(** * Gift guide grid: variant resolution, bundle rule, price formatting
      and cart flow of [assets/gift-guide-grid.js]

    A shallow embedding of the [GiftGuideGridComponent] class.  The pure
    methods ([getSelectedVariant], [isVariantAvailable],
    [initializeVariants], [shouldAutoAddDarkWinterJacket], [formatPrice],
    [getProductImage]) are Rocq functions over records that follow the
    product JSON; the asynchronous handlers ([handleHotspotClick],
    [loadProduct], [handleAddToCart], [addDarkWinterJacketToCart],
    [addToCart]) run in a small state-and-exception monad that records
    the observable effects in a trace.

    Modelling conventions.
    - A JS string is a [string]; the model is exact on ASCII text.
    - A JS number is a binary64 [float] (the kernel's primitive floats),
      so [*], [/] and [>] round exactly as in the engine.
    - [null], [undefined] and an absent property are all [None]: the
      code only tests them for truthiness or compares them with a
      non-empty string, and they behave alike there.
    - [selectedVariants] is a plain object used as a dictionary: a
      [gmap string string] holds its own properties; it is read with
      [Js.get], which also finds the members every plain object inherits
      from [Object.prototype], and written with [Js.set].
    - The popup markup is a template string handed to the HTML parser.
      The option buttons are followed into the document only for option
      names and values without the characters the parser treats
      specially ([Html.inert]), the text written before them (title,
      image address, description) being taken to leave the parser where
      the template means it to be; for other strings the model describes
      the template and says nothing of the elements.
    - [render], [loadProduct] and [handleHotspotClick] leave the option
      markup of the popup aside; [renderWithOptions],
      [loadProductWithOptions] and [handleHotspotClickWithOptions] are
      the methods with it, and with the error it can throw.
    - The elements the class lists in [requiredRefs] (the popup overlay
      and the popup content) are present.
    - A handler runs to its end before the next event is handled; the
      requests [updateCartCount] and [triggerCartUpdate] start without
      being awaited are recorded as effects and not followed.
    - The file holds two revisions of the class; they differ in the
      cart drawer, which only the later one has. *)

From Stdlib Require Import ZArith String Ascii List Bool Lia.
From Stdlib Require Import Floats DecimalString.
From stdpp Require Import gmap strings list.
Import ListNotations.

#[local] Open Scope string_scope.
#[local] Open Scope Z_scope.

(* ===================================================================== *)
(** ** The JavaScript built-ins the component calls *)
(* ===================================================================== *)

Module Js.

(** *** Strings *)

(** [String.prototype.toLowerCase], on ASCII letters. *)
Definition lower_char (c : ascii) : ascii :=
  let n := nat_of_ascii c in
  if ((65 <=? n) && (n <=? 90))%nat then ascii_of_nat (n + 32) else c.

Fixpoint toLowerCase (s : string) : string :=
  match s with
  | EmptyString => EmptyString
  | String c r => String (lower_char c) (toLowerCase r)
  end.

Fixpoint startsWith (s needle : string) : bool :=
  match needle, s with
  | EmptyString, _ => true
  | String a n, String b r => Ascii.eqb a b && startsWith r n
  | String _ _, EmptyString => false
  end.

(** [String.prototype.includes]: [needle] occurs somewhere in [s]. *)
Fixpoint includes (s needle : string) : bool :=
  startsWith s needle
  || match s with
     | EmptyString => false
     | String _ r => includes r needle
     end.

(** *** Plain objects used as dictionaries *)

(** The properties an object created by [{}] inherits from
    [Object.prototype]. *)
Definition object_prototype : list string :=
  ["constructor"; "hasOwnProperty"; "isPrototypeOf"; "propertyIsEnumerable";
   "toLocaleString"; "toString"; "valueOf"; "__proto__";
   "__defineGetter__"; "__defineSetter__";
   "__lookupGetter__"; "__lookupSetter__"].

Definition inherited (key : string) : bool :=
  existsb (String.eqb key) object_prototype.

(** What [object[key]] evaluates to, on an object whose own properties
    hold strings: [undefined], the own string, or a member of
    [Object.prototype] (a function, or the prototype itself under
    ["__proto__"]). *)
Inductive property :=
| Missing
| Text (s : string)
| Member.

Definition get (object : gmap string string) (key : string) : property :=
  match object !! key with
  | Some s => Text s
  | None => if inherited key then Member else Missing
  end.

(** [object[key] = value] for a string [value].  An own property is
    written, or created, under every key but one: with no own property
    ["__proto__"], the assignment reaches the setter of
    [Object.prototype], which ignores a string. *)
Definition set (key value : string) (object : gmap string string)
    : gmap string string :=
  if String.eqb key "__proto__" && negb (bool_decide (is_Some (object !! key)))
  then object
  else <[key := value]> object.

(** ToBoolean of a property: a member of [Object.prototype] is truthy. *)
Definition truthy_property (p : property) : bool :=
  match p with
  | Missing => false
  | Text s => negb (String.eqb s "")
  | Member => true
  end.

(** [x === p], where [x] is a string or absent.  The component compares
    a property only with a string, or after finding the property truthy;
    two absent values are never compared. *)
Definition strict_equal (x : option string) (p : property) : bool :=
  match x, p with
  | Some s, Text t => String.eqb s t
  | _, _ => false
  end.

(** Truthiness of a string-or-absent value: [undefined], [null] and
    the empty string are falsy. *)
Definition truthy_str (o : option string) : bool :=
  match o with
  | Some s => negb (String.eqb s "")
  | None => false
  end.

(** [Array.prototype.every] with the [(element, index)] callback. *)
Fixpoint every_from {A} (f : A -> nat -> bool) (i : nat) (l : list A) : bool :=
  match l with
  | [] => true
  | x :: r => f x i && every_from f (S i) r
  end.

Definition every {A} (f : A -> nat -> bool) (l : list A) : bool :=
  every_from f 0 l.

(** [Array.prototype.forEach] with the [(element, index)] callback,
    the callback's writes threaded through [s]. *)
Fixpoint forEach_from {A St} (f : A -> nat -> St -> St) (i : nat)
    (l : list A) (s : St) : St :=
  match l with
  | [] => s
  | x :: r => forEach_from f (S i) r (f x i s)
  end.

Definition forEach {A St} (f : A -> nat -> St -> St) (l : list A) (s : St)
    : St :=
  forEach_from f 0 l s.

(** [Array.prototype.findIndex]; [None] stands for [-1]. *)
Fixpoint findIndex_from {A} (f : A -> bool) (i : nat) (l : list A) : option nat :=
  match l with
  | [] => None
  | x :: r => if f x then Some i else findIndex_from f (S i) r
  end.

Definition findIndex {A} (f : A -> bool) (l : list A) : option nat :=
  findIndex_from f 0 l.

(** *** Numbers *)

(** The values a price can hold in the product and cart JSON. *)
Inductive value :=
| Undefined
| Null
| Num (f : float)
| Str (s : string).

(** ToBoolean: [0], [-0] and [NaN] are the falsy numbers. *)
Definition truthy (v : value) : bool :=
  match v with
  | Undefined | Null => false
  | Num f => negb (PrimFloat.eqb f 0 || PrimFloat.is_nan f)
  | Str s => negb (String.eqb s "")
  end.

(** [a || b] on values. *)
Definition or_else (a b : value) : value := if truthy a then a else b.

(** The Number value of the decimal [m * 10^k], [m > 0]: the binary64
    nearest to it, ties to even. *)
Definition round_decimal (sign : bool) (m : positive) (k : Z) : spec_float :=
  match k with
  | Zneg p =>
      let '(mz, ez, lz) :=
        SFdiv_core_binary prec emax (Zpos m) 0 (Zpos (10 ^ p)) 0 in
      binary_round_aux prec emax sign mz ez lz
  | _ => binary_round prec emax sign (m * Z.to_pos (10 ^ k)) 0
  end.

Definition is_digit (c : ascii) : bool :=
  let n := nat_of_ascii c in ((48 <=? n) && (n <=? 57))%nat.

Definition digit_val (c : ascii) : Z := Z.of_nat (nat_of_ascii c) - 48.

Definition is_space (c : ascii) : bool :=
  let n := nat_of_ascii c in
  ((n =? 32) || ((9 <=? n) && (n <=? 13)))%nat.

Fixpoint skip_spaces (s : string) : string :=
  match s with
  | String c r => if is_space c then skip_spaces r else s
  | EmptyString => s
  end.

(** Reads a run of decimal digits: their value continued from [acc],
    how many were read, and the rest of the text. *)
Fixpoint read_digits (s : string) (acc : Z) (n : Z) : Z * Z * string :=
  match s with
  | String c r =>
      if is_digit c then read_digits r (10 * acc + digit_val c) (n + 1)
      else (acc, n, s)
  | EmptyString => (acc, n, s)
  end.

(** The exponent part [e±ddd], when one is there in full. *)
Definition read_exponent (s : string) : Z :=
  match s with
  | String c r =>
      if Ascii.eqb (lower_char c) "e" then
        let '(neg, r') :=
          match r with
          | String "-" r' => (true, r')
          | String "+" r' => (false, r')
          | _ => (false, r)
          end in
        let '(e, n, _) := read_digits r' 0 0 in
        if n =? 0 then 0 else if neg then - e else e
      else 0
  | EmptyString => 0
  end.

(** [parseFloat]: leading white space is skipped, the longest prefix
    that is a decimal literal is read, and [NaN] is returned when
    there is none. *)
Definition parseFloat (s : string) : float :=
  let s := skip_spaces s in
  let '(neg, s) :=
    match s with
    | String "-" r => (true, r)
    | String "+" r => (false, r)
    | _ => (false, s)
    end in
  if startsWith s "Infinity" then SF2Prim (S754_infinity neg)
  else
    let '(i, ni, s) := read_digits s 0 0 in
    let '(m, nf, s) :=
      match s with
      | String "." r => read_digits r i 0
      | _ => (i, 0, s)
      end in
    if ni + nf =? 0 then PrimFloat.nan
    else
      match m with
      | Zpos p => SF2Prim (round_decimal neg p (read_exponent s - nf))
      | _ => SF2Prim (S754_zero neg)
      end.

(** *** Currency formatting *)

Definition decimal (n : Z) : string :=
  NilZero.string_of_uint (N.to_uint (Z.to_N n)).

(** Digits of [n] in groups of three, separated by commas. *)
Fixpoint grouped (fuel : nat) (n : Z) : string :=
  match fuel with
  | O => decimal n
  | S fuel' =>
      if n <? 1000 then decimal n
      else
        let low := n mod 1000 in
        grouped fuel' (n / 1000) +:+ ","
        +:+ (if low <? 10 then "00" else if low <? 100 then "0" else "")
        +:+ decimal low
  end.

(** [|m * 2^e|] in hundredths, rounded to the nearest one, a half
    going away from zero. *)
Definition hundredths (m : positive) (e : Z) : Z :=
  match e with
  | Zneg p =>
      let d := 2 ^ Zpos p in
      let n := Zpos m * 100 in
      if d <=? 2 * (n mod d) then n / d + 1 else n / d
  | _ => Zpos m * 100 * 2 ^ e
  end.

(** [new Intl.NumberFormat('en-US', {style: 'currency', currency:
    'USD'}).format(x)]: two fraction digits, grouping by thousands,
    the sign in front of the dollar sign.  The rounding is the one of
    ECMA-402 (FormatNumericToString, mode halfExpand) on the exact
    value of the double.  An engine may round the shortest decimal that
    reads back as the double instead; the two agree unless that decimal
    lies on a half cent or the value is 2^53 or more.  The
    constructor does not throw for these constant options, so the
    [toFixed] fallback of [formatPrice] is never taken and is not
    modelled. *)
Definition format_usd (x : float) : string :=
  match Prim2SF x with
  | S754_nan => "$NaN"
  | S754_infinity s => (if s then "-" else "") +:+ "$∞"
  | S754_zero s => (if s then "-" else "") +:+ "$0.00"
  | S754_finite s m e =>
      let c := hundredths m e in
      let frac := c mod 100 in
      (if s then "-" else "") +:+ "$"
      +:+ grouped (Z.to_nat (Z.log2 c)) (c / 100) +:+ "."
      +:+ (if frac <? 10 then "0" else "") +:+ decimal frac
  end.

End Js.

(* ===================================================================== *)
(** ** The HTML parser, as far as the popup markup needs it *)
(* ===================================================================== *)

Module Html.

(** The characters that do not stand for themselves when a string is
    written unescaped into a double-quoted attribute value or into the
    text of an element: the double quote ends the attribute value, [&]
    starts a character reference, [<] starts a tag, and the parser
    replaces U+0000 and carriage return. *)
Definition special (c : ascii) : bool :=
  let n := nat_of_ascii c in
  ((n =? 0) || (n =? 13) || (n =? 34) || (n =? 38) || (n =? 60))%nat.

(** A string without such characters: the parser reads it back as it
    was written. *)
Fixpoint inert (s : string) : bool :=
  match s with
  | EmptyString => true
  | String c r => negb (special c) && inert r
  end.

End Html.

(* ===================================================================== *)
(** ** Data model: the product JSON and the component state *)
(* ===================================================================== *)

(** A variant of [product.variants]. *)
Record variant := {
  id : Z;
  price : Js.value;
  available : bool;
  option1 : option string;
  option2 : option string;
  option3 : option string;
  featured_image : option string;
  featured_image_id : option Z
}.

(** An entry of [product.options_with_values] or [product.options]; the
    component reads only its [name] when it resolves variants. *)
Record product_option := {
  name : string
}.

Record image := {
  image_id : Z;
  src : string
}.

Record product := {
  title : string;
  product_price : Js.value;
  body_html : option string;
  variants : option (list variant);
  options_with_values : option (list product_option);
  options : option (list product_option);
  product_featured_image : option string;
  images : option (list image)
}.

(** [this.currentProduct] and [this.selectedVariants]. *)
Record component := {
  currentProduct : option product;
  selectedVariants : gmap string string
}.

(** [variant[`option${index + 1}`]]: only [option1] to [option3] exist. *)
Definition slot (v : variant) (index : nat) : option string :=
  match index with
  | 0%nat => option1 v
  | 1%nat => option2 v
  | 2%nat => option3 v
  | _ => None
  end.

(** [x && x.length > 0] on an array that may be absent. *)
Definition nonempty {A} (o : option (list A)) : bool :=
  match o with
  | Some (_ :: _) => true
  | _ => false
  end.

Definition elements {A} (o : option (list A)) : list A :=
  match o with
  | Some l => l
  | None => []
  end.

(* ===================================================================== *)
(** ** Variant resolution *)
(* ===================================================================== *)

(** The callback shared by [getSelectedVariant] and [isVariantAvailable]:
    [const selectedValue = this.selectedVariants[option.name];
     return !selectedValue || variant[`option${index + 1}`] === selectedValue]. *)
Definition selected_or_wildcard (sel : gmap string string) (v : variant)
    (option : product_option) (index : nat) : bool :=
  let selectedValue := Js.get sel (name option) in
  negb (Js.truthy_property selectedValue)
  || Js.strict_equal (slot v index) selectedValue.

Definition getSelectedVariant (c : component) : option variant :=
  match currentProduct c with
  | None => None
  | Some p =>
      match variants p with
      | None => None
      | Some vs =>
          find (fun v =>
                  if nonempty (options_with_values p) then
                    Js.every (selected_or_wildcard (selectedVariants c) v)
                             (elements (options_with_values p))
                  else if nonempty (options p) then
                    Js.every (selected_or_wildcard (selectedVariants c) v)
                             (elements (options p))
                  else false)
               vs
      end
  end.

(** The body of the [some] callback of [isVariantAvailable], for either
    schema. *)
Definition carries_and_matches (sel : gmap string string)
    (schema : list product_option) (optionName optionValue : string)
    (v : variant) : bool :=
  match Js.findIndex (fun opt => String.eqb (name opt) optionName) schema with
  | None => false
  | Some optionIndex =>
      if negb (bool_decide (slot v optionIndex = Some optionValue)) then false
      else
        Js.every (fun option index =>
                    if String.eqb (name option) optionName then true
                    else selected_or_wildcard sel v option index)
                 schema
  end.

Definition isVariantAvailable (c : component) (optionName optionValue : string)
    : bool :=
  match currentProduct c with
  | None => false
  | Some p =>
      match variants p with
      | None => false
      | Some vs =>
          if nonempty (options_with_values p) then
            existsb (carries_and_matches (selectedVariants c)
                       (elements (options_with_values p)) optionName optionValue)
                    vs
          else if nonempty (options p) then
            existsb (carries_and_matches (selectedVariants c)
                       (elements (options p)) optionName optionValue)
                    vs
          else false
      end
  end.

(** [initializeVariants]: the selection is emptied, then seeded from the
    first available variant (or the first variant when none is
    available). *)
Definition seed_option (firstAvailableVariant : variant)
    (option : product_option) (index : nat) (sel : gmap string string)
    : gmap string string :=
  let optionValue := slot firstAvailableVariant index in
  match optionValue with
  | Some s => if Js.truthy_str optionValue
              then Js.set (name option) s sel else sel
  | None => sel
  end.

Definition seed_modern (firstAvailableVariant : variant)
    (schema : list product_option) : gmap string string :=
  Js.forEach (seed_option firstAvailableVariant) schema ∅.

(** [this.currentProduct.options[k]?.name || fallback]. *)
Definition legacy_name (schema : list product_option) (k : nat)
    (fallback : string) : string :=
  match schema !! k with
  | Some option => if Js.truthy_str (Some (name option)) then name option
                   else fallback
  | None => fallback
  end.

Definition seed_legacy_slot (v : variant) (schema : list product_option)
    (k : nat) (fallback : string) (sel : gmap string string)
    : gmap string string :=
  match slot v k with
  | Some s => if Js.truthy_str (slot v k)
              then Js.set (legacy_name schema k fallback) s sel else sel
  | None => sel
  end.

Definition seed_legacy (v : variant) (schema : list product_option)
    : gmap string string :=
  seed_legacy_slot v schema 2 "Option 3"
    (seed_legacy_slot v schema 1 "Option 2"
       (seed_legacy_slot v schema 0 "Option 1" ∅)).

(** The new value of [this.selectedVariants] for the product [p]. *)
Definition initial_selection (p : product) : gmap string string :=
  match elements (variants p) with
  | [] => ∅
  | first :: _ =>
      let firstAvailableVariant :=
        match find available (elements (variants p)) with
        | Some v => v
        | None => first
        end in
      if nonempty (options_with_values p) then
        seed_modern firstAvailableVariant (elements (options_with_values p))
      else if nonempty (options p) then
        seed_legacy firstAvailableVariant (elements (options p))
      else ∅
  end.

(** [initializeVariants] starts with [this.selectedVariants = {}]; with
    no current product only that assignment takes effect. *)
Definition initializeVariants (c : component) : component :=
  {| currentProduct := currentProduct c;
     selectedVariants :=
       match currentProduct c with
       | Some p => initial_selection p
       | None => ∅
       end |}.

(** [handleVariantSelection]:
    [this.selectedVariants[optionName] = optionValue], with the clicked
    element's [dataset.option] and [dataset.value]. *)
Definition handleVariantSelection (optionName optionValue : string)
    (c : component) : component :=
  {| currentProduct := currentProduct c;
     selectedVariants := Js.set optionName optionValue (selectedVariants c) |}.

(* ===================================================================== *)
(** ** Bundle rule and price formatting *)
(* ===================================================================== *)

(** [[variant.option1, variant.option2, variant.option3].filter(Boolean)] *)
Definition allOptions (v : variant) : list string :=
  omap (fun o => if Js.truthy_str o then o else None)
       [option1 v; option2 v; option3 v].

Definition shouldAutoAddDarkWinterJacket (v : variant) : bool :=
  let hasBlack :=
    existsb (fun option => Js.includes (Js.toLowerCase option) "black")
            (allOptions v) in
  let hasMedium :=
    existsb (fun option =>
               Js.includes (Js.toLowerCase option) "medium"
               || String.eqb (Js.toLowerCase option) "m")
            (allOptions v) in
  hasBlack && hasMedium.

Definition darkWinterJacketVariantId : Z := 52160865337711.

Definition formatPrice (price : Js.value) : string :=
  if negb (Js.truthy price) then ""
  else
    let priceValue :=
      match price with
      | Js.Str s => Js.parseFloat s
      | Js.Num f => f
      | _ => PrimFloat.nan
      end in
    let priceInCents :=
      if (1000 <? priceValue)%float then priceValue
      else (priceValue * 100)%float in
    Js.format_usd (priceInCents / 100)%float.

(* ===================================================================== *)
(** ** The popup *)
(* ===================================================================== *)

Definition placeholder_image : string :=
  "https://via.placeholder.com/400x400?text=Product+Image".

Definition getProductImage (p : product) (selectedVariant : option variant)
    : string :=
  let variantImage :=
    match selectedVariant with
    | Some v =>
        if Js.truthy_str (featured_image v) then featured_image v
        else
          match featured_image_id v, images p with
          | Some fid, Some imgs =>
              if fid =? 0 then None
              else src <$> find (fun img => image_id img =? fid) imgs
          | _, _ => None
          end
    | None => None
    end in
  match variantImage with
  | Some url => url
  | None =>
      if Js.truthy_str (product_featured_image p)
      then default "" (product_featured_image p)
      else
        match images p with
        | Some (img :: _) => src img
        | _ => placeholder_image
        end
  end.

(** What [renderProductPopup] writes into the popup, as far as it depends
    on the resolved variant: the image, the price text and the
    add-to-cart button. *)
Record popup_view := {
  view_image : string;
  view_title : string;
  view_price : string;
  view_disabled : bool;
  view_label : string;
  view_variant_id : option Z
}.

Definition renderProductPopup (c : component) : option popup_view :=
  match currentProduct c with
  | None => None
  | Some p =>
      let selectedVariant := getSelectedVariant c in
      let is_available :=
        match selectedVariant with Some v => available v | None => false end in
      Some {|
        view_image := getProductImage p selectedVariant;
        view_title := title p;
        view_price :=
          formatPrice
            (Js.or_else
               (match selectedVariant with
                | Some v => price v
                | None => Js.Undefined
                end)
               (product_price p));
        view_disabled := negb is_available;
        view_label := if is_available then "ADD TO CART" else "OUT OF STOCK";
        view_variant_id :=
          match selectedVariant with
          | Some v => if id v =? 0 then None else Some (id v)
          | None => None
          end
      |}
  end.

(* ===================================================================== *)
(** ** Effects: network, popup, notifications *)
(* ===================================================================== *)

(** The body of a 2xx response, as [response.json()] sees it.  The body
    of [/cart/add.js] is parsed and never read, so any JSON stands for
    it. *)
Inductive body :=
| InvalidJson
| Json (p : option product).

(** What a [fetch] call comes back with. *)
Inductive response :=
| Rejected
| NotOk (status : Z) (description : option string)
| Ok (b : body).

(** The effects a handler has on the page, in the order they happen. *)
Inductive event :=
| FetchProduct (url : string)
| PostCartAdd (variantId quantity : Z)
| UpdateCartCount
| TriggerCartUpdate
| OpenPopup
| ClosePopup
| SuccessMessage (message : string)
| ErrorMessage (message : string)
| ConsoleError (label message : string)
| ConsoleWarn (message : string)
| ShowCartDrawer.

(** The component, the popup, the responses still to come from the
    storefront (a [fetch] with none left is rejected), and the effects
    so far. *)
Record world := {
  comp : component;
  popup_open : bool;
  popup_content : option popup_view;
  network : list response;
  trace : list event
}.

Inductive outcome (A : Type) :=
| Returned (a : A)
| Thrown (error : string).
Arguments Returned {A} a.
Arguments Thrown {A} error.

(** An asynchronous method, run to completion: [await] is sequencing. *)
Definition M (A : Type) : Type := world -> outcome A * world.

Definition ret {A} (a : A) : M A := fun w => (Returned a, w).

Definition bind {A B} (m : M A) (k : A -> M B) : M B :=
  fun w =>
    match m w with
    | (Returned a, w') => k a w'
    | (Thrown e, w') => (Thrown e, w')
    end.

Definition throw {A} (error : string) : M A := fun w => (Thrown error, w).

(** [try { m } catch (error) { handler error }] *)
Definition try_catch {A} (m : M A) (handler : string -> M A) : M A :=
  fun w =>
    match m w with
    | (Returned a, w') => (Returned a, w')
    | (Thrown e, w') => handler e w'
    end.

Declare Scope js_scope.
Delimit Scope js_scope with js.
Notation "x <- m ;; k" := (bind m (fun x => k))
  (at level 100, m at level 99, k at level 200, right associativity) : js_scope.
Notation "m ;; k" := (bind m (fun _ => k))
  (at level 100, k at level 200, right associativity) : js_scope.
#[local] Open Scope js_scope.

Definition emit (e : event) : M unit :=
  fun w =>
    (Returned tt,
     {| comp := comp w; popup_open := popup_open w;
        popup_content := popup_content w; network := network w;
        trace := (trace w ++ [e])%list |}).

Definition fetch (request : event) : M response :=
  fun w =>
    (Returned (hd Rejected (network w)),
     {| comp := comp w; popup_open := popup_open w;
        popup_content := popup_content w; network := tl (network w);
        trace := (trace w ++ [request])%list |}).

Definition update (f : component -> component) : M unit :=
  fun w =>
    (Returned tt,
     {| comp := f (comp w); popup_open := popup_open w;
        popup_content := popup_content w; network := network w;
        trace := trace w |}).

Definition set_popup (open : bool) : M unit :=
  fun w =>
    (Returned tt,
     {| comp := comp w; popup_open := open;
        popup_content := popup_content w; network := network w;
        trace := trace w |}).

(** [renderProductPopup] as a step of a handler, its option markup left
    aside: the popup content is replaced, unless there is no current
    product.  [renderWithOptions] below is the step in full. *)
Definition render : M unit :=
  fun w =>
    (Returned tt,
     {| comp := comp w; popup_open := popup_open w;
        popup_content :=
          match renderProductPopup (comp w) with
          | Some v => Some v
          | None => popup_content w
          end;
        network := network w; trace := trace w |}).

Definition read_component : M component := fun w => (Returned (comp w), w).

Definition openPopup : M unit := set_popup true ;; emit OpenPopup.
Definition closePopup : M unit := set_popup false ;; emit ClosePopup.
Definition showSuccessMessage (message : string) : M unit :=
  emit (SuccessMessage message).
Definition showErrorMessage (message : string) : M unit :=
  emit (ErrorMessage message).

Definition network_error : string := "TypeError: Failed to fetch".
Definition json_error : string := "SyntaxError: Unexpected token".
Definition null_error : string :=
  "TypeError: Cannot read properties of null".

(** [loadProduct] and [handleHotspotClick] over [render];
    [loadProductWithOptions] and [handleHotspotClickWithOptions] below
    are the methods in full. *)
Definition loadProduct (productIdentifier : string) : M unit :=
  try_catch
    (let url := "/products/" +:+ productIdentifier +:+ ".js" in
     response <- fetch (FetchProduct url) ;;
     match response with
     | Rejected => throw network_error
     | NotOk status _ =>
         throw ("Failed to load product: " +:+ Js.decimal status)
     | Ok InvalidJson => throw json_error
     | Ok (Json product) =>
         update (fun c => {| currentProduct := product;
                             selectedVariants := selectedVariants c |}) ;;
         update initializeVariants ;;
         match product with
         | None => throw null_error
         | Some _ => render
         end
     end)
    (fun error => emit (ConsoleError "Error loading product:" error) ;;
                  throw error).

(** The [data-product-handle] and [data-product-id] attributes of a
    hotspot element. *)
Record hotspot := {
  productHandle : option string;
  productId : option string
}.

Definition handleHotspotClick (h : hotspot) : M unit :=
  if negb (Js.truthy_str (productHandle h))
     && negb (Js.truthy_str (productId h)) then
    emit (ConsoleWarn "No product handle or ID found for hotspot")
  else
    try_catch
      (loadProduct
         (default ""
            (if Js.truthy_str (productHandle h) then productHandle h
             else productId h)) ;;
       openPopup)
      (fun error => emit (ConsoleError "Error loading product:" error) ;;
                    openPopup).

Definition addToCart (variantId quantity : Z) : M unit :=
  try_catch
    (response <- fetch (PostCartAdd variantId quantity) ;;
     match response with
     | Rejected => throw network_error
     | NotOk status description =>
         throw (if Js.truthy_str description then default "" description
                else "Failed to add to cart: " +:+ Js.decimal status)
     | Ok InvalidJson => throw json_error
     | Ok (Json _) => emit UpdateCartCount ;; emit TriggerCartUpdate
     end)
    (fun error => emit (ConsoleError "Add to cart error:" error) ;;
                  throw error).

Definition addDarkWinterJacketToCart : M unit :=
  try_catch
    (addToCart darkWinterJacketVariantId 1 ;;
     showSuccessMessage "Dark Winter Jacket automatically added to cart!")
    (fun error =>
       emit (ConsoleError "Error adding Dark Winter Jacket to cart:" error)).

Section AddToCart.

(** The file holds two revisions of the class; the later one ends the
    success path with [this.showCartDrawer()], which is started and
    not awaited. *)
Variable with_cart_drawer : bool.

Definition handleAddToCart : M unit :=
  c <- read_component ;;
  match getSelectedVariant c with
  | None => ret tt
  | Some selectedVariant =>
      if negb (available selectedVariant) then ret tt
      else
        try_catch
          (addToCart (id selectedVariant) 1 ;;
           (if shouldAutoAddDarkWinterJacket selectedVariant
            then addDarkWinterJacketToCart else ret tt) ;;
           closePopup ;;
           showSuccessMessage "Product added to cart!" ;;
           (if with_cart_drawer then emit ShowCartDrawer else ret tt))
          (fun error =>
             emit (ConsoleError "Error adding to cart:" error) ;;
             showErrorMessage "Failed to add product to cart")
  end.

End AddToCart.

(* ===================================================================== *)
(** ** The cart drawer (later revision) *)
(* ===================================================================== *)

Record cart_item := {
  item_title : string;
  final_price : Js.value;
  quantity : Z
}.

Record cart := {
  item_count : Z;
  items : list cart_item;
  total_price : Js.value
}.

(** What [updateCartDrawer] leaves in the drawer: which of the item list
    and the empty message is displayed, the checkout button, the price
    text of each rendered line and the subtotal text. *)
Record drawer_view := {
  items_displayed : bool;
  empty_displayed : bool;
  checkout_disabled : bool;
  line_prices : list string;
  subtotal_amount : string
}.

Definition updateCartDrawer (old : drawer_view) (c : cart) : drawer_view :=
  if item_count c =? 0 then
    {| items_displayed := false; empty_displayed := true;
       checkout_disabled := true; line_prices := line_prices old;
       subtotal_amount := formatPrice (total_price c) |}
  else
    {| items_displayed := true; empty_displayed := false;
       checkout_disabled := false;
       line_prices := map (fun item => formatPrice (final_price item)) (items c);
       subtotal_amount := formatPrice (total_price c) |}.

(* ===================================================================== *)
(** ** Vocabulary of the statements *)
(* ===================================================================== *)

(** The option schema in force for a product: the modern one when it has
    entries, else the legacy one. *)
Definition schema_of (p : product) : list product_option :=
  if nonempty (options_with_values p) then elements (options_with_values p)
  else elements (options p).

(** Matching as the specification words it: every option slot either
    has no selected value or carries the selected value. *)
Definition matches_as_specified (sel : gmap string string)
    (schema : list product_option) (v : variant) : Prop :=
  forall (index : nat) (option : product_option),
    schema !! index = Some option ->
    sel !! name option = None \/ slot v index = sel !! name option.

(** Matching as the code computes it.  What the code reads under an
    option's name counts as no selection when it is [undefined] or the
    empty string. *)
Definition unselected (sel : gmap string string) (optionName : string) : Prop :=
  Js.get sel optionName = Js.Missing \/ Js.get sel optionName = Js.Text "".

(** What the code reads under the option's name is a string, and it is
    the value [x] of the variant.  A member of [Object.prototype], read
    under a name such as "constructor" that the selection does not hold
    itself, is neither unselected nor equal to any value. *)
Definition selected_as (sel : gmap string string) (optionName : string)
    (x : option string) : Prop :=
  exists s, x = Some s /\ Js.get sel optionName = Js.Text s.

(** The code reads a chosen value under the option's name: a string,
    and not the empty one. *)
Definition named (sel : gmap string string) (optionName : string) : Prop :=
  exists s, Js.get sel optionName = Js.Text s /\ s <> "".

Definition matches_selection (sel : gmap string string)
    (schema : list product_option) (v : variant) : Prop :=
  forall (index : nat) (option : product_option),
    schema !! index = Some option ->
    unselected sel (name option) \/ selected_as sel (name option) (slot v index).

(** The slot of the option named [optionName]: the position of the first
    schema entry with that name. *)
Definition slot_of (schema : list product_option) (optionName : string)
    (index : nat) : Prop :=
  (exists option, schema !! index = Some option /\ name option = optionName)
  /\ forall k option, (k < index)%nat -> schema !! k = Some option ->
                      name option <> optionName.

(** A variant supports the value [optionValue] of the option
    [optionName], as the code computes it: it carries the value in the
    option's slot, and every option of another name is unselected
    (nothing, or the empty string, is read under its name) or agrees
    with the string read under its name. *)
Definition supports (sel : gmap string string) (schema : list product_option)
    (optionName optionValue : string) (v : variant) : Prop :=
  exists index,
    slot_of schema optionName index
    /\ slot v index = Some optionValue
    /\ forall k option,
         schema !! k = Some option -> name option <> optionName ->
         unselected sel (name option) \/ selected_as sel (name option) (slot v k).

(** The same, as the specification words it: every other option with a
    selected value agrees with the selection. *)
Definition supports_as_specified (sel : gmap string string)
    (schema : list product_option) (optionName optionValue : string)
    (v : variant) : Prop :=
  exists index,
    slot_of schema optionName index
    /\ slot v index = Some optionValue
    /\ forall k option selected,
         schema !! k = Some option -> name option <> optionName ->
         sel !! name option = Some selected -> slot v k = Some selected.

(** [needle] occurs in [s] as a run of consecutive characters. *)
Definition occurs_in (needle s : string) : Prop :=
  exists before after, s = before +:+ needle +:+ after.

(** The option values a variant defines: those of [option1] to
    [option3] that are present and not empty. *)
Definition defined_value (v : variant) (s : string) : Prop :=
  s <> "" /\ (option1 v = Some s \/ option2 v = Some s \/ option3 v = Some s).

(** The number [formatPrice] computes with: the price itself, or what
    [parseFloat] reads from it when it is a string. *)
Definition price_value (price : Js.value) : option float :=
  match price with
  | Js.Num f => Some f
  | Js.Str s => Some (Js.parseFloat s)
  | Js.Undefined | Js.Null => None
  end.

(** A whole number as a JS number. *)
Definition number (n : Z) : float := PrimFloat.of_uint63 (Uint63.of_Z n).

(** An amount of [cents] written as dollars and cents: "$1,234.56". *)
Definition amount (cents : Z) : string :=
  "$" +:+ Js.grouped 8 (cents / 100) +:+ "."
  +:+ (if cents mod 100 <? 10 then "0" else "") +:+ Js.decimal (cents mod 100).

(** [f] holds of [count] consecutive integers, starting at [from]. *)
Fixpoint holds_from (f : Z -> bool) (from : Z) (count : nat) : bool :=
  match count with
  | O => true
  | S k => f from && holds_from f (from + 1) k
  end.

(** The effects of running [m] from [w]: what it appends to the trace. *)
Definition effects_of {A} (m : M A) (w : world) : list event :=
  drop (length (trace w)) (trace (snd (m w))).

Ltac run_handler :=
  unfold handleAddToCart, addDarkWinterJacketToCart, addToCart,
    handleHotspotClick, loadProduct, openPopup, closePopup,
    showSuccessMessage, showErrorMessage, read_component, render, update,
    set_popup, emit, fetch, try_catch, bind, throw, ret;
  cbn [comp popup_open popup_content network trace fst snd].

(** The responses on which [addToCart] throws: all but a 2xx response
    with a body that parses. *)
Definition failed (r : response) : Prop :=
  forall j, r <> Ok (Json j).

(** The identifier [handleHotspotClick] asks for:
    [productHandle || productId]. *)
Definition requested (h : hotspot) : string :=
  default "" (if Js.truthy_str (productHandle h) then productHandle h
              else productId h).

(** The effect is a [console.warn]. *)
Definition is_warning (e : event) : bool :=
  match e with
  | ConsoleWarn _ => true
  | _ => false
  end.

(** The product request is answered with a product. *)
Definition loads (w : world) (p : product) : Prop :=
  hd Rejected (network w) = Ok (Json (Some p)).

(* ===================================================================== *)
(** ** Sample catalogue, for the concrete runs *)
(* ===================================================================== *)

Module Sample.

Definition mk_variant (i : Z) (cents : float) (avail : bool)
    (o1 o2 o3 : option string) : variant :=
  {| id := i; price := Js.Num cents;
     available := avail; option1 := o1; option2 := o2; option3 := o3;
     featured_image := None; featured_image_id := None |}.

Definition Color : product_option := {| name := "Color" |}.
Definition Size : product_option := {| name := "Size" |}.

Definition red_small := mk_variant 101 2000 true (Some "Red") (Some "Small") None.
Definition red_large := mk_variant 102 2200 false (Some "Red") (Some "Large") None.
Definition blue_small := mk_variant 103 2000 true (Some "Blue") (Some "Small") None.

(** A shirt in two colours and two sizes, with the modern schema. *)
Definition shirt : product :=
  {| title := "Shirt"; product_price := Js.Num 2000; body_html := None;
     variants := Some [red_small; red_large; blue_small];
     options_with_values := Some [Color; Size]; options := None;
     product_featured_image := Some "shirt.jpg"; images := None |}.

(** The same shirt as the legacy schema describes it. *)
Definition legacy_shirt : product :=
  {| title := "Shirt"; product_price := Js.Num 2000; body_html := None;
     variants := Some [red_small; red_large; blue_small];
     options_with_values := None; options := Some [Color; Size];
     product_featured_image := Some "shirt.jpg"; images := None |}.

Definition viewing (p : product) (sel : gmap string string) : component :=
  {| currentProduct := Some p; selectedVariants := sel |}.

End Sample.

Module Jackets.

Definition with_options (o1 o2 o3 : option string) : variant :=
  {| id := 7; price := Js.Num 4900; available := true;
     option1 := o1; option2 := o2; option3 := o3;
     featured_image := None; featured_image_id := None |}.

End Jackets.

Module GiftCard.

Definition gold : variant :=
  {| id := 201; price := Js.Num 2000; available := true;
     option1 := None; option2 := None; option3 := None;
     featured_image := Some "card-gold.jpg"; featured_image_id := None |}.

Definition plain : variant :=
  {| id := 202; price := Js.Num 1500; available := true;
     option1 := None; option2 := None; option3 := None;
     featured_image := None; featured_image_id := None |}.

(** A product without any option schema; its own price is the lowest
    variant price, as the storefront reports it. *)
Definition card : product :=
  {| title := "Gift card"; product_price := Js.Num 1500; body_html := None;
     variants := Some [gold; plain];
     options_with_values := Some []; options := None;
     product_featured_image := Some "card.jpg"; images := None |}.

End GiftCard.

(** The double nearest to 19.99. *)
Definition dollars_19_99 : float := 0x1.3fd70a3d70a3dp+4%float.

Module Shop.

Definition black_medium : variant :=
  {| id := 301; price := Js.Num 5900; available := true;
     option1 := Some "Black"; option2 := Some "Medium"; option3 := None;
     featured_image := None; featured_image_id := None |}.

Definition sold_out : variant :=
  {| id := 302; price := Js.Num 5900; available := false;
     option1 := Some "Navy"; option2 := Some "Medium"; option3 := None;
     featured_image := None; featured_image_id := None |}.

Definition coat : product :=
  {| title := "Coat"; product_price := Js.Num 5900; body_html := None;
     variants := Some [black_medium; sold_out];
     options_with_values := None;
     options := Some [Sample.Color; Sample.Size];
     product_featured_image := None; images := None |}.

(** The popup is open on [p] with the selection [sel], and the
    storefront will answer with [answers]. *)
Definition browsing (p : product) (sel : gmap string string)
    (answers : list response) : world :=
  {| comp := Sample.viewing p sel; popup_open := true;
     popup_content := renderProductPopup (Sample.viewing p sel);
     network := answers; trace := [] |}.

End Shop.

Module Page.

Definition shirt_hotspot : hotspot :=
  {| productHandle := Some "classic-shirt"; productId := None |}.

(** A freshly connected component: no product, nothing rendered. *)
Definition fresh (answers : list response) : world :=
  {| comp := {| currentProduct := None; selectedVariants := ∅ |};
     popup_open := false; popup_content := None;
     network := answers; trace := [] |}.

End Page.

Module Scarf.

(** The only variant is available and leaves its second option
    undefined. *)
Definition one_size : variant :=
  {| id := 401; price := Js.Num 1900; available := true;
     option1 := Some "Grey"; option2 := None; option3 := None;
     featured_image := None; featured_image_id := None |}.

Definition scarf : product :=
  {| title := "Scarf"; product_price := Js.Num 1900; body_html := None;
     variants := Some [one_size];
     options_with_values := Some [Sample.Color; Sample.Size];
     options := None;
     product_featured_image := None; images := None |}.

End Scarf.

Module Odd.

(** Option names that collide with members of [Object.prototype], and
    an option without a name. *)
Definition Constructor : product_option := {| name := "constructor" |}.
Definition Proto : product_option := {| name := "__proto__" |}.
Definition Unnamed : product_option := {| name := "" |}.

Definition red : variant :=
  Sample.mk_variant 601 1200 true (Some "Red") None None.

Definition with_option (o : product_option) (modern : bool) : product :=
  {| title := "Trinket"; product_price := Js.Num 1200; body_html := None;
     variants := Some [red];
     options_with_values := if modern then Some [o] else None;
     options := if modern then None else Some [o];
     product_featured_image := None; images := None |}.

Definition kit : product := with_option Constructor true.
Definition charm : product := with_option Proto true.
Definition ribbon : product := with_option Unnamed false.

(** A product of the legacy schema with the options Color and
    "constructor". *)
Definition red_plain : variant :=
  Sample.mk_variant 602 1200 true (Some "Red") (Some "Plain") None.

Definition duo : product :=
  {| title := "Duo"; product_price := Js.Num 1200; body_html := None;
     variants := Some [red_plain];
     options_with_values := None;
     options := Some [Sample.Color; Constructor];
     product_featured_image := None; images := None |}.

End Odd.

Module Inches.

(** The inch sign, as catalogues write it: a double quote. *)
Definition inch : string := String (ascii_of_nat 34) "".

Definition Waist : product_option := {| name := "Waist" |}.

Definition waist_27 : variant :=
  Sample.mk_variant 701 4500 true (Some ("27" +:+ inch)) None None.
Definition waist_32 : variant :=
  Sample.mk_variant 702 4500 true (Some ("32" +:+ inch)) None None.

Definition jeans : product :=
  {| title := "Jeans"; product_price := Js.Num 4500; body_html := None;
     variants := Some [waist_27; waist_32];
     options_with_values := None; options := Some [Waist];
     product_featured_image := None; images := None |}.

End Inches.

(* ===================================================================== *)
(** ** Further parts of the component *)
(* ===================================================================== *)

(** The variant [initializeVariants] seeds the selection from:
    [variants.find(v => v.available) || variants[0]]. *)
Definition seed_variant (p : product) : option variant :=
  match elements (variants p) with
  | [] => None
  | first :: _ => Some (default first (find available (elements (variants p))))
  end.

(** A variant defines a value for exactly the options of the schema. *)
Definition defines_exactly (v : variant) (schema : list product_option) : Prop :=
  forall index : nat,
    Js.truthy_str (slot v index) = true <-> (index < length schema)%nat.

(** The product with the [available] flag of every variant replaced. *)
Definition with_stock (stock : variant -> bool) (p : product) : product :=
  {| title := title p; product_price := product_price p;
     body_html := body_html p;
     variants :=
       (fun vs =>
          map (fun v =>
                 {| id := id v; price := price v; available := stock v;
                    option1 := option1 v; option2 := option2 v;
                    option3 := option3 v;
                    featured_image := featured_image v;
                    featured_image_id := featured_image_id v |}) vs)
       <$> variants p;
     options_with_values := options_with_values p;
     options := options p;
     product_featured_image := product_featured_image p;
     images := images p |}.

(** *** The option buttons of the legacy schema *)

(** [[...new Set(l)]]: the values of [l] without repetition, each at
    the place of its first occurrence. *)
Fixpoint unique_from (seen : list string) (l : list string) : list string :=
  match l with
  | [] => []
  | x :: r =>
      if bool_decide (x ∈ seen) then unique_from seen r
      else x :: unique_from (x :: seen) r
  end.

Definition unique (l : list string) : list string := unique_from [] l.

(** [Array.prototype.map] with the [(element, index)] callback. *)
Fixpoint map_from {A B} (f : A -> nat -> B) (i : nat) (l : list A) : list B :=
  match l with
  | [] => []
  | x :: r => f x i :: map_from f (S i) r
  end.

Definition map_indexed {A B} (f : A -> nat -> B) (l : list A) : list B :=
  map_from f 0 l.

(** A button of the option markup, as the template has it: the strings
    it writes, unescaped, as [data-option] and as [data-value] (the
    latter also as the button's text), and whether it writes the classes
    [selected] and [disabled]. *)
Record option_button := {
  button_option : string;
  button_value : string;
  button_selected : bool;
  button_disabled : bool
}.

Record option_group := {
  group_label : string;
  group_buttons : list option_button
}.

(** [variants.map(v => v[`option${index + 1}`]).filter(Boolean)], without
    repetition. *)
Definition optionValues (vs : list variant) (index : nat) : list string :=
  unique (omap (fun v => if Js.truthy_str (slot v index) then slot v index
                         else None) vs).

(** [renderVariantOptionsLegacy]; [None] is the TypeError of reading
    [options.map] or [variants.map] on a missing array. *)
Definition renderVariantOptionsLegacy (c : component)
    : option (list option_group) :=
  match currentProduct c with
  | None => None
  | Some p =>
      match options p with
      | None => None
      | Some [] => Some []
      | Some opts =>
          match variants p with
          | None => None
          | Some vs =>
              Some (map_indexed
                      (fun option index =>
                         let optionName := name option in
                         {| group_label := optionName;
                            group_buttons :=
                              map (fun value =>
                                     {| button_option := optionName;
                                        button_value := value;
                                        button_selected :=
                                          Js.strict_equal (Some value)
                                            (Js.get (selectedVariants c)
                                                    optionName);
                                        button_disabled :=
                                          negb (isVariantAvailable
                                                  c optionName value) |})
                                  (optionValues vs index) |})
                      opts)
          end
      end
  end.

(** A button element of the popup, as the listeners see it: whether its
    class list holds [disabled], and its [dataset]. *)
Record button_element := {
  element_disabled : bool;
  dataset_option : string;
  dataset_value : string
}.

(** The element the parser builds for a button of the template.  The
    class attribute comes first in the tag and holds no interpolated
    text.  The two data attributes are read back as they were written
    when both strings are inert; otherwise what the parser builds (an
    attribute cut at a double quote, further attributes or elements made
    of the rest) is not modelled: [None]. *)
Definition parsed (b : option_button) : option button_element :=
  if Html.inert (button_option b) && Html.inert (button_value b)
  then Some {| element_disabled := button_disabled b;
               dataset_option := button_option b;
               dataset_value := button_value b |}
  else None.

(** *** Reading a trace *)

(** The cart additions among some effects: variant id and quantity of
    each [POST /cart/add.js], in order. *)
Definition cart_posts (effects : list event) : list (Z * Z) :=
  omap (fun e => match e with
                 | PostCartAdd variantId quantity => Some (variantId, quantity)
                 | _ => None
                 end) effects.

(** The response lets [addToCart] return: a 2xx status and a body that
    parses. *)
Definition accepted (r : response) : bool :=
  match r with
  | Ok (Json _) => true
  | _ => false
  end.

(** The option values of a variant, lower-cased, slot by slot. *)
Definition lowered_options (v : variant) : list (option string) :=
  map (option_map Js.toLowerCase) [option1 v; option2 v; option3 v].

(** What [addToCart] throws on a response, if it throws. *)
Definition cart_error (r : response) : option string :=
  match r with
  | Rejected => Some network_error
  | NotOk status description =>
      Some (if Js.truthy_str description then default "" description
            else "Failed to add to cart: " +:+ Js.decimal status)
  | Ok InvalidJson => Some json_error
  | Ok (Json _) => None
  end.

(** The effects of one [addToCart] call answered by [r]. *)
Definition add_effects (variantId : Z) (r : response) : list event :=
  PostCartAdd variantId 1
  :: match cart_error r with
     | Some error => [ConsoleError "Add to cart error:" error]
     | None => [UpdateCartCount; TriggerCartUpdate]
     end.

(** The product requests among some effects: the URLs fetched, in
    order. *)
Definition product_requests (effects : list event) : list string :=
  omap (fun e => match e with
                 | FetchProduct url => Some url
                 | _ => None
                 end) effects.

(** *** Rendering with the option markup *)

(** What [renderVariantOptions] produces.  The markup of the modern
    schema is built from the value lists of its entries, which the
    records here do not hold; those lists are taken to be present, and
    the markup is not followed further. *)
Inductive options_markup :=
| NoOptions
| ModernOptions
| LegacyOptions (groups : list option_group).

(** [renderVariantOptions]; [None] is a TypeError. *)
Definition renderVariantOptions (c : component) : option options_markup :=
  match currentProduct c with
  | None => Some NoOptions
  | Some p =>
      if nonempty (options_with_values p) then Some ModernOptions
      else if nonempty (options p)
           then LegacyOptions <$> renderVariantOptionsLegacy c
           else Some NoOptions
  end.

Definition map_error : string :=
  "TypeError: Cannot read properties of undefined (reading 'map')".

(** [renderProductPopup] as a step of a handler, the option markup
    included: the popup content is replaced only when the whole markup
    could be built. *)
Definition renderWithOptions : M unit :=
  fun w =>
    match renderVariantOptions (comp w) with
    | None => (Thrown map_error, w)
    | Some _ => render w
    end.

(** A click on an option button.  [setupPopupEventListeners] binds the
    handler to the buttons without the class [disabled] only; the
    handler stores the element's [dataset.option] and [dataset.value]
    and renders the popup again. *)
Definition clickOption (e : button_element) : M unit :=
  if element_disabled e then ret tt
  else update (handleVariantSelection (dataset_option e) (dataset_value e)) ;;
       renderWithOptions.

(** [loadProduct] and [handleHotspotClick] with that rendering. *)
Definition loadProductWithOptions (productIdentifier : string) : M unit :=
  try_catch
    (let url := "/products/" +:+ productIdentifier +:+ ".js" in
     response <- fetch (FetchProduct url) ;;
     match response with
     | Rejected => throw network_error
     | NotOk status _ =>
         throw ("Failed to load product: " +:+ Js.decimal status)
     | Ok InvalidJson => throw json_error
     | Ok (Json product) =>
         update (fun c => {| currentProduct := product;
                             selectedVariants := selectedVariants c |}) ;;
         update initializeVariants ;;
         match product with
         | None => throw null_error
         | Some _ => renderWithOptions
         end
     end)
    (fun error => emit (ConsoleError "Error loading product:" error) ;;
                  throw error).

Definition handleHotspotClickWithOptions (h : hotspot) : M unit :=
  if negb (Js.truthy_str (productHandle h))
     && negb (Js.truthy_str (productId h)) then
    emit (ConsoleWarn "No product handle or ID found for hotspot")
  else
    try_catch
      (loadProductWithOptions
         (default ""
            (if Js.truthy_str (productHandle h) then productHandle h
             else productId h)) ;;
       openPopup)
      (fun error => emit (ConsoleError "Error loading product:" error) ;;
                    openPopup).

(** The product has the legacy schema in force and no variants array:
    its option markup cannot be built. *)
Definition unrenderable (p : product) : Prop :=
  nonempty (options_with_values p) = false
  /\ nonempty (options p) = true
  /\ variants p = None.

(* ===================================================================== *)
(** ** The life of the cart drawer (later revision) *)
(* ===================================================================== *)

(** The cart as it arrives: any of the fields the code reads may be
    missing, as in the error object the storefront sends with a refusal. *)
Record cart_json := {
  json_item_count : option Z;
  json_items : option (list cart_item);
  json_total_price : Js.value
}.

(** What [fetch('/cart.js')] can give: a rejection, or a response whose
    body parses ([Some]) or not.  [loadCartData] never reads
    [response.ok]; the flag is kept to say so. *)
Inductive cart_response :=
| CartRejected
| CartResponse (ok : bool) (payload : option cart_json).

Record drawer := {
  view : drawer_view;
  active : bool
}.

(** The part of the page the drawer touches: the element once created,
    the scroll lock on the body, and the labels of the errors logged. *)
Record page := {
  cartDrawer : option drawer;
  scroll_locked : bool;
  console : list string
}.

Definition log_error (label : string) (pg : page) : page :=
  {| cartDrawer := cartDrawer pg; scroll_locked := scroll_locked pg;
     console := (console pg ++ [label])%list |}.

(** The markup [createCartDrawer] writes: an empty item list, the empty
    message hidden, the subtotal "$0.00" and the checkout button
    disabled. *)
Definition createCartDrawer : drawer :=
  {| view := {| items_displayed := true; empty_displayed := false;
                checkout_disabled := true; line_prices := [];
                subtotal_amount := "$0.00" |};
     active := false |}.

(** [updateCartDrawer] on the cart as it arrives.  The boolean tells that
    [cart.items.map] threw, which happens after the three style updates
    and before the subtotal is written. *)
Definition updateCartDrawerJson (old : drawer_view) (c : cart_json)
    : drawer_view * bool :=
  if bool_decide (json_item_count c = Some 0) then
    ({| items_displayed := false; empty_displayed := true;
        checkout_disabled := true; line_prices := line_prices old;
        subtotal_amount := formatPrice (json_total_price c) |}, false)
  else
    match json_items c with
    | Some lines =>
        ({| items_displayed := true; empty_displayed := false;
            checkout_disabled := false;
            line_prices := map (fun item => formatPrice (final_price item)) lines;
            subtotal_amount := formatPrice (json_total_price c) |}, false)
    | None =>
        ({| items_displayed := true; empty_displayed := false;
            checkout_disabled := false; line_prices := line_prices old;
            subtotal_amount := subtotal_amount old |}, true)
    end.

Definition loadCartData (r : cart_response) (pg : page) : page :=
  match r with
  | CartRejected => log_error "Error loading cart data:" pg
  | CartResponse _ None => log_error "Error loading cart data:" pg
  | CartResponse _ (Some c) =>
      match cartDrawer pg with
      | None => log_error "Error loading cart data:" pg
      | Some d =>
          let (v, threw) := updateCartDrawerJson (view d) c in
          let pg' := {| cartDrawer := Some {| view := v; active := active d |};
                        scroll_locked := scroll_locked pg;
                        console := console pg |} in
          if threw then log_error "Error loading cart data:" pg' else pg'
      end
  end.

Definition showCartDrawer (r : cart_response) (pg : page) : page :=
  let created :=
    match cartDrawer pg with
    | Some _ => pg
    | None => {| cartDrawer := Some createCartDrawer;
                 scroll_locked := scroll_locked pg; console := console pg |}
    end in
  let loaded := loadCartData r created in
  match cartDrawer loaded with
  | Some d => {| cartDrawer := Some {| view := view d; active := true |};
                 scroll_locked := true; console := console loaded |}
  | None => loaded
  end.

Definition hideCartDrawer (pg : page) : page :=
  match cartDrawer pg with
  | Some d => {| cartDrawer := Some {| view := view d; active := false |};
                 scroll_locked := false; console := console pg |}
  | None => pg
  end.

(** The [keydown] listener [createCartDrawer] installs. *)
Definition drawerKeydown (key : string) (pg : page) : page :=
  if (key =? "Escape")%string
     && match cartDrawer pg with Some d => active d | None => false end
  then hideCartDrawer pg
  else pg.

(** The drawer content before the load: the element's own, or the fresh
    markup when the element is still to be created. *)
Definition view_before (pg : page) : drawer_view :=
  match cartDrawer pg with
  | Some d => view d
  | None => view createCartDrawer
  end.

Definition shown_view (pg : page) : option drawer_view :=
  option_map view (cartDrawer pg).

Definition json_of (c : cart) : cart_json :=
  {| json_item_count := Some (item_count c); json_items := Some (items c);
     json_total_price := total_price c |}.

Module Basket.

Definition mug : cart_item :=
  {| item_title := "Mug"; final_price := Js.Num 1500; quantity := 2 |}.

Definition one_mug : cart :=
  {| item_count := 2; items := [mug]; total_price := Js.Num 3000 |}.

Definition refusal : cart_json :=
  {| json_item_count := None; json_items := None;
     json_total_price := Js.Undefined |}.

Definition untouched : page :=
  {| cartDrawer := None; scroll_locked := false; console := [] |}.

End Basket.

(* ===================================================================== *)
(** ** Further sample products *)
(* ===================================================================== *)

Module Belt.

(** A product as the legacy schema describes it, sent without its
    variants array. *)
Definition belt : product :=
  {| title := "Belt"; product_price := Js.Num 2500; body_html := None;
     variants := None; options_with_values := None;
     options := Some [Sample.Size];
     product_featured_image := None; images := None |}.

End Belt.

Module Gallery.

Definition front : image := {| image_id := 11; src := "front.jpg" |}.
Definition back : image := {| image_id := 12; src := "back.jpg" |}.

Definition by_id : variant :=
  {| id := 501; price := Js.Num 3000; available := true;
     option1 := Some "One size"; option2 := None; option3 := None;
     featured_image := None; featured_image_id := Some 12 |}.

Definition hat : product :=
  {| title := "Hat"; product_price := Js.Num 3000; body_html := None;
     variants := Some [by_id]; options_with_values := None;
     options := Some [Sample.Size];
     product_featured_image := Some "hat.jpg";
     images := Some [front; back] |}.

End Gallery.

(* ===================================================================== *)
(** ** Facts about the built-ins *)
(* ===================================================================== *)

Lemma every_from_spec {A} (f : A -> nat -> bool) (l : list A) (i : nat) :
  Js.every_from f i l = true <->
  forall (k : nat) (x : A), l !! k = Some x -> f x (i + k)%nat = true.
Proof.
  revert i. induction l as [|a l IH]; intros i; simpl.
  - split; [intros _ k x Hk; discriminate | reflexivity].
  - rewrite andb_true_iff, IH. split.
    + intros [Ha Hl] [|k] x Hk; simpl in Hk.
      * injection Hk as <-. now rewrite Nat.add_0_r.
      * rewrite <- Nat.add_succ_comm. now apply Hl.
    + intros H. split.
      * rewrite <- (Nat.add_0_r i). now apply (H 0%nat).
      * intros k x Hk. rewrite Nat.add_succ_comm. now apply (H (S k)).
Qed.

Lemma every_spec {A} (f : A -> nat -> bool) (l : list A) :
  Js.every f l = true <->
  forall (k : nat) (x : A), l !! k = Some x -> f x k = true.
Proof. unfold Js.every. now rewrite every_from_spec. Qed.

(** [find] returns the first element that passes the test. *)
Lemma find_first {A} (f : A -> bool) (l : list A) (x : A) :
  find f l = Some x <->
  exists before after,
    l = (before ++ x :: after)%list /\ f x = true /\ Forall (fun y => f y = false) before.
Proof.
  induction l as [|a l IH]; simpl.
  - split; [discriminate | intros (b & r & H & _); now destruct b].
  - destruct (f a) eqn:Ha.
    + split.
      * intros [= <-]. exists [], l. repeat split; [assumption | constructor].
      * intros (b & r & H & Hx & Hb). destruct b as [|b0 b].
        -- now injection H as ->.
        -- injection H as -> _. apply Forall_cons in Hb as [Hb _]. congruence.
    + rewrite IH. split.
      * intros (b & r & -> & Hx & Hb). exists (a :: b), r.
        repeat split; [assumption | now constructor].
      * intros (b & r & H & Hx & Hb). destruct b as [|b0 b].
        -- injection H as -> _. congruence.
        -- injection H as _ ->. apply Forall_cons in Hb as [_ Hb]. eauto.
Qed.

Lemma find_nothing {A} (f : A -> bool) (l : list A) :
  find f l = None <-> Forall (fun y => f y = false) l.
Proof.
  induction l as [|a l IH]; simpl.
  - split; [constructor | reflexivity].
  - destruct (f a) eqn:Ha.
    + split; [discriminate | intros H; apply Forall_cons in H as [H _]; congruence].
    + rewrite IH. split; [now constructor | intros H; now apply Forall_cons in H as [_ H]].
Qed.

Lemma truthy_str_false (o : option string) :
  Js.truthy_str o = false <-> o = None \/ o = Some "".
Proof.
  destruct o as [s|]; simpl.
  - rewrite negb_false_iff, String.eqb_eq. split.
    + intros ->. now right.
    + intros [H|H]; congruence.
  - split; [now left | reflexivity].
Qed.

Lemma truthy_str_true (o : option string) :
  Js.truthy_str o = true <-> exists s, o = Some s /\ s <> "".
Proof.
  destruct o as [s|]; simpl.
  - rewrite negb_true_iff, String.eqb_neq. split.
    + intros H. now exists s.
    + now intros (s' & [= <-] & H).
  - split; [discriminate | now intros (s & H & _)].
Qed.

(* ===================================================================== *)
(** ** Variant resolution: [getSelectedVariant] *)
(* ===================================================================== *)

(** *** Reading and writing a plain object *)

Lemma truthy_property_false (p : Js.property) :
  Js.truthy_property p = false <-> p = Js.Missing \/ p = Js.Text "".
Proof.
  destruct p as [|s|]; simpl.
  - split; [now left | reflexivity].
  - rewrite negb_false_iff, String.eqb_eq. split.
    + intros ->. now right.
    + intros [H|H]; congruence.
  - split; [discriminate | intros [H|H]; discriminate H].
Qed.

Lemma strict_equal_spec (x : option string) (p : Js.property) :
  Js.strict_equal x p = true <-> exists s, x = Some s /\ p = Js.Text s.
Proof.
  destruct x as [s|], p as [|t|]; simpl;
    try (split; [discriminate | intros (u & H1 & H2); congruence]).
  rewrite String.eqb_eq. split.
  - intros ->. now exists t.
  - intros (u & [= ->] & [= ->]). reflexivity.
Qed.

(** The own properties are the strings that are read. *)
Lemma get_Text (o : gmap string string) (key s : string) :
  Js.get o key = Js.Text s <-> o !! key = Some s.
Proof.
  unfold Js.get. destruct (o !! key) as [t|].
  - split; intros [= ->]; reflexivity.
  - destruct (Js.inherited key); split; discriminate.
Qed.

(** Under a name that [Object.prototype] does not have, reading is the
    lookup of the own property. *)
Lemma get_own (o : gmap string string) (key : string) :
  Js.inherited key = false ->
  Js.get o key = match o !! key with
                 | Some s => Js.Text s
                 | None => Js.Missing
                 end.
Proof. intros H. unfold Js.get. now rewrite H. Qed.

Lemma set_insert (o : gmap string string) (key value : string) :
  key <> "__proto__" -> Js.set key value o = <[key := value]> o.
Proof.
  intros H. unfold Js.set. apply String.eqb_neq in H. now rewrite H.
Qed.

(** A write changes what is read under no other key. *)
Lemma get_set_ne (o : gmap string string) (key value other : string) :
  other <> key -> Js.get (Js.set key value o) other = Js.get o other.
Proof.
  intros H. unfold Js.set.
  destruct (_ && _); [reflexivity|].
  unfold Js.get. now rewrite lookup_insert_ne.
Qed.

Lemma get_set_eq (o : gmap string string) (key value : string) :
  key <> "__proto__" -> Js.get (Js.set key value o) key = Js.Text value.
Proof.
  intros H. rewrite set_insert by exact H.
  unfold Js.get. now rewrite lookup_insert_eq.
Qed.

Lemma lookup_set_ne (o : gmap string string) (key value other : string) :
  other <> key -> Js.set key value o !! other = o !! other.
Proof.
  intros H. unfold Js.set. destruct (_ && _); [reflexivity|].
  now rewrite lookup_insert_ne.
Qed.

Lemma lookup_set_eq (o : gmap string string) (key value : string) :
  key <> "__proto__" -> Js.set key value o !! key = Some value.
Proof.
  intros H. rewrite set_insert by exact H. apply lookup_insert_eq.
Qed.

(** A write under "__proto__" is lost, unless the object has an own
    property of that name. *)
Lemma set_proto (o : gmap string string) (value : string) :
  o !! "__proto__" = None -> Js.set "__proto__" value o = o.
Proof.
  intros H. unfold Js.set. now rewrite H.
Qed.

Lemma selected_or_wildcard_spec sel v option index :
  selected_or_wildcard sel v option index = true <->
  unselected sel (name option) \/ selected_as sel (name option) (slot v index).
Proof.
  unfold selected_or_wildcard, unselected, selected_as.
  rewrite orb_true_iff, negb_true_iff, truthy_property_false, strict_equal_spec.
  reflexivity.
Qed.

Lemma every_selected_spec sel v schema :
  Js.every (selected_or_wildcard sel v) schema = true <->
  matches_selection sel schema v.
Proof.
  rewrite every_spec. unfold matches_selection.
  split; intros H k o Hk; apply selected_or_wildcard_spec; now apply H.
Qed.

(** The test [getSelectedVariant] passes to [find], on a product with a
    schema. *)
Lemma resolver_test_spec p sel v :
  schema_of p <> [] ->
  (if nonempty (options_with_values p) then
     Js.every (selected_or_wildcard sel v) (elements (options_with_values p))
   else if nonempty (options p) then
     Js.every (selected_or_wildcard sel v) (elements (options p))
   else false) = true <->
  matches_selection sel (schema_of p) v.
Proof.
  unfold schema_of. intros Hne.
  destruct (nonempty (options_with_values p)).
  - apply every_selected_spec.
  - destruct (options p) as [[|o l]|]; simpl in *; try congruence.
    apply every_selected_spec.
Qed.

(** C1, as amended.  On a product with a non-empty option schema,
    [getSelectedVariant] returns the first variant, in the product's
    variant order, that matches the selection, and returns none exactly
    when no variant matches; a variant matches when, for every option,
    what the code reads from the selection under the option's name is
    [undefined] or the empty string, or is a string equal to the
    variant's value in the option's slot.  For an option named like a
    member of [Object.prototype] ("constructor", "toString",
    "__proto__", ...) that the selection does not hold itself, the code
    reads that member, and no variant matches. *)
Theorem getSelectedVariant_first_match (c : component) (p : product) :
  currentProduct c = Some p ->
  schema_of p <> [] ->
  (forall v : variant,
      getSelectedVariant c = Some v <->
      exists before after,
        elements (variants p) = (before ++ v :: after)%list
        /\ matches_selection (selectedVariants c) (schema_of p) v
        /\ Forall (fun u => ~ matches_selection (selectedVariants c) (schema_of p) u)
                  before)
  /\ (getSelectedVariant c = None <->
      Forall (fun u => ~ matches_selection (selectedVariants c) (schema_of p) u)
             (elements (variants p))).
Proof.
  intros Hp Hschema. unfold getSelectedVariant. rewrite Hp.
  assert (Hfalse : forall u,
             (if nonempty (options_with_values p) then
                Js.every (selected_or_wildcard (selectedVariants c) u)
                         (elements (options_with_values p))
              else if nonempty (options p) then
                Js.every (selected_or_wildcard (selectedVariants c) u)
                         (elements (options p))
              else false) = false <->
             ~ matches_selection (selectedVariants c) (schema_of p) u).
  { intros u. rewrite <- (resolver_test_spec p _ u Hschema).
    now rewrite not_true_iff_false. }
  destruct (variants p) as [vs|]; simpl.
  - split.
    + intros v. rewrite find_first. split.
      * intros (b & r & Hvs & Hv & Hb). exists b, r. repeat split; try assumption.
        -- now apply (resolver_test_spec p _ v Hschema).
        -- eapply Forall_impl; [exact Hb|]. intros u Hu. now apply Hfalse.
      * intros (b & r & Hvs & Hv & Hb). exists b, r. repeat split; try assumption.
        -- now apply (resolver_test_spec p _ v Hschema).
        -- eapply Forall_impl; [exact Hb|]. intros u Hu. now apply Hfalse.
    + rewrite find_nothing. split; intros H.
      * eapply Forall_impl; [exact H|]. intros u Hu. now apply Hfalse.
      * eapply Forall_impl; [exact H|]. intros u Hu. now apply Hfalse.
  - split.
    + intros v. split; [discriminate|].
      intros (b & r & H & _). now destruct b.
    + split; [constructor | reflexivity].
Qed.

Lemma getSelectedVariant_first_match_witness :
  let c := Sample.viewing Sample.shirt {["Color" := "Blue"]} in
  (forall v : variant,
      getSelectedVariant c = Some v <->
      exists before after,
        elements (variants Sample.shirt) = (before ++ v :: after)%list
        /\ matches_selection (selectedVariants c) (schema_of Sample.shirt) v
        /\ Forall (fun u => ~ matches_selection (selectedVariants c)
                                (schema_of Sample.shirt) u) before)
  /\ (getSelectedVariant c = None <->
      Forall (fun u => ~ matches_selection (selectedVariants c)
                          (schema_of Sample.shirt) u)
             (elements (variants Sample.shirt))).
Proof.
  apply (getSelectedVariant_first_match
           (Sample.viewing Sample.shirt {["Color" := "Blue"]}) Sample.shirt).
  - reflexivity.
  - discriminate.
Defined.

Example getSelectedVariant_blue :
  getSelectedVariant (Sample.viewing Sample.shirt {["Color" := "Blue"]})
  = Some Sample.blue_small.
Proof. reflexivity. Qed.

(** A click stores the element's [dataset.value] as it is, the empty
    string included; under "__proto__" alone nothing is stored. *)
Example handleVariantSelection_stores (c : component) (o value : string) :
  o <> "__proto__" ->
  Js.get (selectedVariants (handleVariantSelection o value c)) o = Js.Text value.
Proof. apply get_set_eq. Qed.

(** C1 as stated fails in two ways.  On a selection that holds the
    empty string, the code treats it as no selection and returns the
    first variant, which does not match in the stated sense (the
    selection has a value for Color, and it differs from the
    variant's).  On a product with an option named "constructor" and an
    empty selection, every variant matches in the stated sense (the
    selection has no value for the option), and the code returns none:
    it reads the inherited member of [Object.prototype]. *)
Lemma getSelectedVariant_empty_value_counterexample :
  (let c := Sample.viewing Sample.shirt {["Color" := ""]} in
   getSelectedVariant c = Some Sample.red_small
   /\ ~ matches_as_specified (selectedVariants c) (schema_of Sample.shirt)
                             Sample.red_small
   /\ Forall (fun u => ~ matches_as_specified (selectedVariants c)
                          (schema_of Sample.shirt) u)
             (elements (variants Sample.shirt)))
  /\ (let c := Sample.viewing Odd.kit ∅ in
      getSelectedVariant c = None
      /\ In Odd.red (elements (variants Odd.kit))
      /\ matches_as_specified (selectedVariants c) (schema_of Odd.kit) Odd.red).
Proof.
  assert (H : forall u, option1 u <> Some "" ->
            ~ matches_as_specified {["Color" := ""]} (schema_of Sample.shirt) u).
  { intros u Hu Hm. destruct (Hm 0%nat Sample.Color eq_refl) as [H|H].
    - discriminate H.
    - now apply Hu. }
  split; cbv zeta.
  - split; [reflexivity|]. split.
    + now apply H.
    + repeat constructor; now apply H.
  - split; [reflexivity|]. split; [now left|].
    intros index option _. left. apply lookup_empty.
Qed.

(* ===================================================================== *)
(** ** Availability of an option value: [isVariantAvailable] *)
(* ===================================================================== *)

Lemma findIndex_from_spec {A} (f : A -> bool) (l : list A) (i n : nat) :
  Js.findIndex_from f i l = Some n <->
  exists k, n = (i + k)%nat
    /\ (exists x, l !! k = Some x /\ f x = true)
    /\ forall j y, (j < k)%nat -> l !! j = Some y -> f y = false.
Proof.
  revert i. induction l as [|a l IH]; intros i; simpl.
  - split; [discriminate | now intros (k & _ & (x & Hx & _) & _)].
  - destruct (f a) eqn:Ha.
    + split.
      * intros [= <-]. exists 0%nat. repeat split; [lia | eauto | lia].
      * intros (k & -> & _ & Hk). destruct k as [|k]; [f_equal; lia|].
        specialize (Hk 0%nat a ltac:(lia) eq_refl). congruence.
    + rewrite IH. split.
      * intros (k & -> & (x & Hx & Hfx) & Hk). exists (S k).
        repeat split; [lia | eauto |].
        intros [|j] y Hj Hy; simpl in Hy; [congruence|].
        apply (Hk j); [lia | assumption].
      * intros (k & -> & (x & Hx & Hfx) & Hk). destruct k as [|k].
        -- simpl in Hx. congruence.
        -- exists k. repeat split; [lia | eauto |].
           intros j y Hj Hy. apply (Hk (S j)); [lia | assumption].
Qed.

Lemma findIndex_slot_of schema optionName index :
  Js.findIndex (fun opt => String.eqb (name opt) optionName) schema = Some index
  <-> slot_of schema optionName index.
Proof.
  unfold Js.findIndex, slot_of. rewrite findIndex_from_spec. split.
  - intros (k & -> & (x & Hx & Hfx) & Hk). simpl. split.
    + exists x. split; [assumption | now apply String.eqb_eq].
    + intros j y Hj Hy. apply String.eqb_neq. now apply (Hk j).
  - intros [(x & Hx & Hn) Hk]. exists index. repeat split.
    + exists x. split; [assumption | now apply String.eqb_eq].
    + intros j y Hj Hy. apply String.eqb_neq. now apply (Hk j).
Qed.

Lemma carries_and_matches_spec sel schema optionName optionValue v :
  carries_and_matches sel schema optionName optionValue v = true <->
  supports sel schema optionName optionValue v.
Proof.
  unfold carries_and_matches, supports.
  destruct (Js.findIndex _ schema) as [i|] eqn:Hi.
  - apply findIndex_slot_of in Hi.
    assert (Huniq : forall j, slot_of schema optionName j -> j = i).
    { intros j [(oj & Hoj & Hnj) Hj]. destruct Hi as [(oi & Hoi & Hni) Hi].
      destruct (Nat.lt_trichotomy j i) as [Hlt|[Heq|Hgt]]; [|assumption|].
      - now destruct (Hi j oj Hlt Hoj).
      - now destruct (Hj i oi Hgt Hoi). }
    destruct (bool_decide (slot v i = Some optionValue)) eqn:Hv; simpl.
    + apply bool_decide_eq_true in Hv. rewrite every_spec. split.
      * intros H. exists i. repeat split; try assumption; try apply Hi.
        intros k o Hk Hne. specialize (H k o Hk).
        apply String.eqb_neq in Hne. rewrite Hne in H.
        now apply selected_or_wildcard_spec.
      * intros (j & Hj & _ & H) k o Hk.
        destruct (String.eqb (name o) optionName) eqn:Hn; [reflexivity|].
        apply selected_or_wildcard_spec, (H k o Hk). now apply String.eqb_neq.
    + apply bool_decide_eq_false in Hv. split; [discriminate|].
      intros (j & Hj & Hvj & _). apply Huniq in Hj. congruence.
  - split; [discriminate|]. intros (j & Hj & _).
    apply findIndex_slot_of in Hj. congruence.
Qed.

(** C2, as amended.  [isVariantAvailable(O, V)] is true exactly when
    some variant of the product carries [V] in the slot of [O] (the
    slot of the first option named [O]) and, for every option of another
    name, what the code reads from the selection under that name is
    [undefined] or the empty string, or is a string equal to the
    variant's value in the corresponding slot.  For another option named
    like a member of [Object.prototype] that the selection does not hold
    itself, the code reads that member, and no variant qualifies. *)
Theorem isVariantAvailable_iff (c : component) (p : product)
    (optionName optionValue : string) :
  currentProduct c = Some p ->
  (isVariantAvailable c optionName optionValue = true <->
   exists v, In v (elements (variants p))
             /\ supports (selectedVariants c) (schema_of p)
                         optionName optionValue v).
Proof.
  intros Hp. unfold isVariantAvailable, schema_of. rewrite Hp.
  destruct (variants p) as [vs|]; simpl.
  - destruct (nonempty (options_with_values p)).
    + rewrite existsb_exists.
      split; intros (v & Hv & H); exists v; split; try assumption;
        now apply carries_and_matches_spec.
    + destruct (nonempty (options p)) eqn:Hl.
      * rewrite existsb_exists.
        split; intros (v & Hv & H); exists v; split; try assumption;
          now apply carries_and_matches_spec.
      * split; [discriminate|]. intros (v & _ & i & [(o & Ho & _) _] & _).
        destruct (options p) as [[|o' l]|]; simpl in *; discriminate.
  - split; [discriminate | now intros (v & [] & _)].
Qed.

Lemma isVariantAvailable_iff_witness :
  let c := Sample.viewing Sample.legacy_shirt {["Size" := "Large"]} in
  isVariantAvailable c "Color" "Blue" = true <->
  exists v, In v (elements (variants Sample.legacy_shirt))
            /\ supports (selectedVariants c) (schema_of Sample.legacy_shirt)
                        "Color" "Blue" v.
Proof.
  apply (isVariantAvailable_iff
           (Sample.viewing Sample.legacy_shirt {["Size" := "Large"]})
           Sample.legacy_shirt "Color" "Blue").
  reflexivity.
Defined.

Example isVariantAvailable_blue_large :
  isVariantAvailable
    (Sample.viewing Sample.legacy_shirt {["Size" := "Large"]}) "Color" "Blue"
  = false
  /\ isVariantAvailable
       (Sample.viewing Sample.legacy_shirt {["Size" := "Large"]}) "Color" "Red"
     = true
  /\ isVariantAvailable
       (Sample.viewing Sample.legacy_shirt {["Size" := "Large"]}) "Size" "Small"
     = true.
Proof. repeat split; reflexivity. Qed.

(** C2 as stated fails in two ways.  When another option's selected
    value is the empty string, the code skips that option, so Red is
    reported available although no variant has the empty string as its
    Size.  When another option is named "constructor" and nothing is
    selected, a variant carries Red and no other option has a selected
    value, yet Red is reported unavailable: under "constructor" the code
    reads the inherited member of [Object.prototype]. *)
Lemma isVariantAvailable_empty_value_counterexample :
  (let c := Sample.viewing Sample.legacy_shirt {["Size" := ""]} in
   isVariantAvailable c "Color" "Red" = true
   /\ ~ exists v, In v (elements (variants Sample.legacy_shirt))
                  /\ supports_as_specified (selectedVariants c)
                       (schema_of Sample.legacy_shirt) "Color" "Red" v)
  /\ (let c := Sample.viewing Odd.duo ∅ in
      isVariantAvailable c "Color" "Red" = false
      /\ exists v, In v (elements (variants Odd.duo))
                   /\ supports_as_specified (selectedVariants c)
                        (schema_of Odd.duo) "Color" "Red" v).
Proof.
  split; cbv zeta.
  - split; [reflexivity|].
    intros (v & Hv & i & _ & _ & H).
    specialize (H 1%nat Sample.Size "" eq_refl ltac:(discriminate) eq_refl).
    simpl in Hv. destruct Hv as [<-|[<-|[<-|[]]]]; discriminate H.
  - split; [vm_compute; reflexivity|].
    exists Odd.red_plain. split; [now left|].
    exists 0%nat. split; [|split].
    + split; [now exists Sample.Color | intros k o Hk; lia].
    + reflexivity.
    + intros k o selected _ _ Hsel. simpl in Hsel.
      rewrite lookup_empty in Hsel. discriminate Hsel.
Qed.

(* ===================================================================== *)
(** ** The bundle rule: [shouldAutoAddDarkWinterJacket] *)
(* ===================================================================== *)

Lemma startsWith_spec (s needle : string) :
  Js.startsWith s needle = true <-> exists after, s = needle +:+ after.
Proof.
  revert s. induction needle as [|a n IH]; intros s; simpl.
  - split; [intros _; now exists s | now destruct s].
  - destruct s as [|b r].
    + split; [discriminate | now intros (x & H)].
    + simpl. rewrite andb_true_iff, Ascii.eqb_eq, IH. split.
      * intros [-> (x & ->)]. now exists x.
      * intros (x & [= -> ->]). split; [reflexivity | now exists x].
Qed.

Lemma includes_spec (s needle : string) :
  Js.includes s needle = true <-> occurs_in needle s.
Proof.
  unfold occurs_in. induction s as [|b r IH]; cbn [Js.includes].
  - rewrite orb_false_r, startsWith_spec. split.
    + intros (x & H). now exists "", x.
    + intros (pre & post & H). destruct pre; [now exists post | discriminate].
  - rewrite orb_true_iff, startsWith_spec, IH. split.
    + intros [(x & H)|(pre & post & ->)].
      * now exists "", x.
      * now exists (String b pre), post.
    + intros (pre & post & H). destruct pre as [|c pre]; simpl in H.
      * left. now exists post.
      * right. injection H as -> ->. now exists pre, post.
Qed.

Lemma allOptions_spec (v : variant) (s : string) :
  In s (allOptions v) <-> defined_value v s.
Proof.
  unfold allOptions, defined_value.
  assert (Hkeep : forall o : option string,
             (if Js.truthy_str o then o else None) = Some s <->
             s <> "" /\ o = Some s).
  { intros [t|]; simpl.
    - destruct (String.eqb_spec t ""); simpl.
      + subst. split; [discriminate | intros [H [= <-]]; congruence].
      + split; [intros [= <-]; now split | now intros [_ H]].
    - split; [discriminate | now intros [_ H]]. }
  rewrite <- list_elem_of_In, list_elem_of_omap. split.
  - intros (o & Ho & Hs). apply Hkeep in Hs as [Hne ->]. split; [assumption|].
    rewrite !elem_of_cons in Ho. rewrite elem_of_nil in Ho.
    destruct Ho as [H|[H|[H|[]]]]; auto.
  - intros [Hne Ho]. exists (Some s). split.
    + rewrite !elem_of_cons. destruct Ho as [<-|[<-|<-]]; auto.
    + now apply Hkeep.
Qed.

(** C3, as amended.  [shouldAutoAddDarkWinterJacket] is true exactly
    when some defined option value of the variant, lower-cased, contains
    "black", and some defined option value, lower-cased, contains
    "medium" or is equal to "m".  It is true for Black with Medium in
    either order and for BLACK with M, and false for Navy with
    Medium. *)
Theorem shouldAutoAddDarkWinterJacket_iff :
  (forall v : variant,
      shouldAutoAddDarkWinterJacket v = true <->
      (exists a, defined_value v a /\ occurs_in "black" (Js.toLowerCase a))
      /\ (exists b, defined_value v b
                    /\ (occurs_in "medium" (Js.toLowerCase b)
                        \/ Js.toLowerCase b = "m")))
  /\ shouldAutoAddDarkWinterJacket
       (Jackets.with_options (Some "Black") (Some "Medium") None) = true
  /\ shouldAutoAddDarkWinterJacket
       (Jackets.with_options (Some "Medium") (Some "Black") None) = true
  /\ shouldAutoAddDarkWinterJacket
       (Jackets.with_options (Some "BLACK") (Some "M") None) = true
  /\ shouldAutoAddDarkWinterJacket
       (Jackets.with_options (Some "m") None (Some "black")) = true
  /\ shouldAutoAddDarkWinterJacket
       (Jackets.with_options (Some "Navy") (Some "Medium") None) = false.
Proof.
  split; [|repeat split; reflexivity].
  intros v. unfold shouldAutoAddDarkWinterJacket.
  rewrite andb_true_iff, !existsb_exists. split.
  - intros [(a & Ha & Hblack) (b & Hb & Hmedium)]. split.
    + exists a. split; [now apply allOptions_spec | now apply includes_spec].
    + exists b. split; [now apply allOptions_spec|].
      apply orb_true_iff in Hmedium as [H|H].
      * left. now apply includes_spec.
      * right. now apply String.eqb_eq.
  - intros [(a & Ha & Hblack) (b & Hb & Hmedium)]. split.
    + exists a. split; [now apply allOptions_spec | now apply includes_spec].
    + exists b. split; [now apply allOptions_spec|].
      apply orb_true_iff. destruct Hmedium as [H|H].
      * left. now apply includes_spec.
      * right. now apply String.eqb_eq.
Qed.

(** C3 as stated fails on a size that contains "medium" without being
    equal to it: the bundle is added for Black with Mediumweight,
    although no option value of the variant is "medium" or "m". *)
Lemma shouldAutoAddDarkWinterJacket_size_counterexample :
  let v := Jackets.with_options (Some "Black") (Some "Mediumweight") None in
  shouldAutoAddDarkWinterJacket v = true
  /\ ~ exists b, defined_value v b
                 /\ (Js.toLowerCase b = "medium" \/ Js.toLowerCase b = "m").
Proof.
  split; [reflexivity|].
  intros (b & [_ [H|[H|H]]] & Hb); simpl in H; try discriminate H;
    injection H as <-; destruct Hb as [Hb|Hb]; discriminate Hb.
Qed.

(* ===================================================================== *)
(** ** The popup of a product without options *)
(* ===================================================================== *)

(** C4, as amended.  On a product whose option schema is empty or
    absent, [getSelectedVariant] resolves to none whatever the variants
    and the selection are; the popup then shows the product's own price
    and the product's image (its featured image, else its first gallery
    image, else the placeholder), and the add-to-cart button is disabled
    and reads OUT OF STOCK. *)
Theorem no_options_no_variant (c : component) (p : product) :
  currentProduct c = Some p ->
  nonempty (options_with_values p) = false ->
  nonempty (options p) = false ->
  getSelectedVariant c = None
  /\ renderProductPopup c =
     Some {| view_image := getProductImage p None;
             view_title := title p;
             view_price := formatPrice (product_price p);
             view_disabled := true;
             view_label := "OUT OF STOCK";
             view_variant_id := None |}.
Proof.
  intros Hp Hmodern Hlegacy.
  assert (Hnone : getSelectedVariant c = None).
  { unfold getSelectedVariant. rewrite Hp, Hmodern, Hlegacy.
    destruct (variants p) as [vs|]; [|reflexivity].
    induction vs as [|v vs IH]; [reflexivity | exact IH]. }
  split; [exact Hnone|].
  unfold renderProductPopup. rewrite Hp, Hnone. reflexivity.
Qed.

Lemma no_options_no_variant_witness :
  let c := Sample.viewing GiftCard.card ∅ in
  getSelectedVariant c = None
  /\ renderProductPopup c =
     Some {| view_image := getProductImage GiftCard.card None;
             view_title := title GiftCard.card;
             view_price := formatPrice (product_price GiftCard.card);
             view_disabled := true;
             view_label := "OUT OF STOCK";
             view_variant_id := None |}.
Proof.
  apply (no_options_no_variant (Sample.viewing GiftCard.card ∅) GiftCard.card);
    reflexivity.
Defined.

(** C4 as stated fails: for the gift card, whose first variant costs
    $20.00 and has its own image, the popup shows the product's $15.00
    and the product's image, and no variant is resolved. *)
Lemma no_options_first_variant_counterexample :
  let c := Sample.viewing GiftCard.card ∅ in
  getSelectedVariant c = None
  /\ view_price <$> renderProductPopup c = Some "$15.00"
  /\ formatPrice (price GiftCard.gold) = "$20.00"
  /\ view_image <$> renderProductPopup c = Some "card.jpg"
  /\ getProductImage GiftCard.card (Some GiftCard.gold) = "card-gold.jpg"
  /\ view_disabled <$> renderProductPopup c = Some true.
Proof. repeat split; vm_compute; reflexivity. Qed.

(* ===================================================================== *)
(** ** Price formatting: [formatPrice] *)
(* ===================================================================== *)

Lemma SFcompare_antisym (x y : spec_float) :
  SFcompare y x = option_map CompOpp (SFcompare x y).
Proof.
  destruct x as [sx|sx| |sx mx ex], y as [sy|sy| |sy my ey]; simpl;
    try reflexivity;
    try (destruct sx; reflexivity); try (destruct sy; reflexivity);
    try (destruct sx, sy; reflexivity).
  f_equal. destruct sx, sy; try reflexivity.
  - rewrite (Z.compare_antisym ex ey).
    destruct (ex ?= ey)%Z; simpl; try reflexivity.
    now rewrite (Pos.compare_cont_antisym mx my Eq).
  - rewrite (Z.compare_antisym ex ey).
    destruct (ex ?= ey)%Z; simpl; try reflexivity.
    now rewrite (Pos.compare_cont_antisym mx my Eq).
Qed.

Lemma SFcompare_refl (x : spec_float) :
  x <> S754_nan -> SFcompare x x = Some Eq.
Proof.
  destruct x as [s|s| |s m e]; simpl; intros H; try congruence.
  - now destruct s.
  - f_equal. destruct s; rewrite Z.compare_refl;
      change (Pos.compare_cont Eq m m) with (m ?= m)%positive;
      now rewrite Pos.compare_refl.
Qed.

(** A number above zero is truthy. *)
Lemma positive_truthy (v : float) :
  (0 <? v)%float = true -> Js.truthy (Js.Num v) = true.
Proof.
  unfold Js.truthy, PrimFloat.is_nan.
  rewrite FloatAxioms.ltb_spec, !FloatAxioms.eqb_spec.
  change (Prim2SF 0) with (S754_zero false).
  unfold SFltb, SFeqb. intros H.
  destruct (Prim2SF v) as [s|s| |s m e] eqn:Hv; simpl in H; try discriminate H.
  - destruct s; [discriminate H | reflexivity].
  - rewrite SFcompare_refl by discriminate. simpl. now destruct s.
Qed.

(** A number that is at most 1000 is not above 1000. *)
Lemma at_most_not_above (v bound : float) :
  (v <=? bound)%float = true -> (bound <? v)%float = false.
Proof.
  rewrite FloatAxioms.leb_spec, FloatAxioms.ltb_spec. unfold SFleb, SFltb.
  rewrite (SFcompare_antisym (Prim2SF v) (Prim2SF bound)).
  destruct (SFcompare (Prim2SF v) (Prim2SF bound)) as [[]|];
    simpl; congruence.
Qed.

(** A number above a bound that is not negative is truthy. *)
Lemma above_truthy (bound v : float) :
  (0 <=? bound)%float = true -> (bound <? v)%float = true ->
  Js.truthy (Js.Num v) = true.
Proof.
  unfold Js.truthy, PrimFloat.is_nan.
  rewrite FloatAxioms.leb_spec, FloatAxioms.ltb_spec, !FloatAxioms.eqb_spec.
  change (Prim2SF 0) with (S754_zero false).
  unfold SFleb, SFltb, SFeqb. intros Hb H.
  destruct (Prim2SF v) as [s|s| |s m e] eqn:Hv.
  - destruct (Prim2SF bound) as [sb|sb| |sb mb eb]; simpl in *;
      try discriminate; destruct sb; discriminate.
  - now destruct s.
  - destruct (Prim2SF bound); discriminate H.
  - rewrite SFcompare_refl by discriminate. simpl. now destruct s.
Qed.

Lemma not_above_nan (bound : float) : (bound <? PrimFloat.nan)%float = false.
Proof.
  rewrite FloatAxioms.ltb_spec. change (Prim2SF PrimFloat.nan) with S754_nan.
  unfold SFltb. now destruct (Prim2SF bound).
Qed.

Lemma above_price_truthy (bound : float) (price : Js.value) (v : float) :
  price_value price = Some v ->
  (0 <=? bound)%float = true -> (bound <? v)%float = true ->
  Js.truthy price = true.
Proof.
  destruct price as [| |f|s]; simpl; try discriminate.
  - intros [= ->]. apply above_truthy.
  - intros [= <-] _ H. destruct s; [|reflexivity].
    change (Js.parseFloat "") with PrimFloat.nan in H.
    now rewrite not_above_nan in H.
Qed.

Lemma holds_from_spec (f : Z -> bool) (from : Z) (count : nat) :
  holds_from f from count = true ->
  forall n, from <= n < from + Z.of_nat count -> f n = true.
Proof.
  revert from. induction count as [|k IH]; intros from H n Hn; simpl in H.
  - lia.
  - apply andb_true_iff in H as [Hfrom Hrest].
    destruct (Z.eq_dec n from) as [->|Hne]; [assumption|].
    apply (IH (from + 1) Hrest). lia.
Qed.

(** Every price from $0.01 to $1000.00, given in dollars, is shown as
    itself. *)
Lemma dollars_shown :
  holds_from (fun c => String.eqb (formatPrice (Js.Num (number c / 100)%float))
                                  (amount c))
             1 (Z.to_nat 100000) = true.
Proof. vm_compute. reflexivity. Qed.

(** Every price from 1001 to 10000, given in cents, is shown as that
    many cents. *)
Lemma cents_shown :
  holds_from (fun n => String.eqb (formatPrice (Js.Num (number n))) (amount n))
             1001 (Z.to_nat 9000) = true.
Proof. vm_compute. reflexivity. Qed.

(** C5.  [formatPrice(2500)] is "$25.00"; a positive number, or numeric
    string, of at most 1000 is multiplied by 100 before it is divided by
    100 for display, so 19.99 is shown as "$19.99" (and not as the
    "$0.20" that reading it as cents would give); a value above 1000 is
    taken to be in cents already.  In particular every two-decimal
    price up to $1000.00 given in dollars is shown as itself, and a
    whole number above 1000 (checked up to 10000) as that many
    cents. *)
Theorem formatPrice_heuristic :
  formatPrice (Js.Num 2500) = "$25.00"
  /\ formatPrice (Js.Str "2500") = "$25.00"
  /\ Js.parseFloat "19.99" = dollars_19_99
  /\ formatPrice (Js.Num dollars_19_99) = "$19.99"
  /\ formatPrice (Js.Str "19.99") = "$19.99"
  /\ Js.format_usd (dollars_19_99 / 100)%float = "$0.20"
  /\ (forall (price : Js.value) (v : float),
         price_value price = Some v ->
         (0 <? v)%float = true -> (v <=? 1000)%float = true ->
         formatPrice price = Js.format_usd ((v * 100) / 100)%float)
  /\ (forall (price : Js.value) (v : float),
         price_value price = Some v ->
         (1000 <? v)%float = true ->
         formatPrice price = Js.format_usd (v / 100)%float)
  /\ (forall c : Z, 1 <= c <= 100000 ->
         formatPrice (Js.Num (number c / 100)%float) = amount c)
  /\ (forall n : Z, 1000 < n <= 10000 ->
         formatPrice (Js.Num (number n)) = amount n).
Proof.
  do 6 (split; [vm_compute; reflexivity|]). split; [|split; [|split]].
  - intros price v Hv Hpos Hle. unfold formatPrice.
    rewrite (above_price_truthy 0 price v Hv eq_refl Hpos). simpl.
    destruct price as [| |f|s]; simpl in Hv; try discriminate;
      injection Hv as ->; now rewrite (at_most_not_above _ _ Hle).
  - intros price v Hv Habove. unfold formatPrice.
    rewrite (above_price_truthy 1000 price v Hv eq_refl Habove). simpl.
    destruct price as [| |f|s]; simpl in Hv; try discriminate;
      injection Hv as ->; now rewrite Habove.
  - intros c Hc. apply String.eqb_eq.
    apply (holds_from_spec _ 1 (Z.to_nat 100000) dollars_shown c). lia.
  - intros n Hn. apply String.eqb_eq.
    apply (holds_from_spec _ 1001 (Z.to_nat 9000) cents_shown n). lia.
Qed.

(** C10.  A falsy price (0, -0, NaN, null, undefined, the empty string)
    is formatted as the empty string, not as "$0.00"; so the subtotal of
    an empty cart, and the price of a free line item, are rendered
    without any text. *)
Theorem formatPrice_falsy :
  (forall price : Js.value, Js.truthy price = false -> formatPrice price = "")
  /\ Js.truthy (Js.Num 0) = false
  /\ Js.truthy (Js.Num (-0)) = false
  /\ Js.truthy (Js.Num PrimFloat.nan) = false
  /\ Js.truthy Js.Null = false
  /\ Js.truthy Js.Undefined = false
  /\ Js.truthy (Js.Str "") = false
  /\ formatPrice (Js.Num 0) <> "$0.00"
  /\ Js.format_usd 0 = "$0.00"
  /\ (forall (old : drawer_view) (c : cart),
         Js.truthy (total_price c) = false ->
         subtotal_amount (updateCartDrawer old c) = "")
  /\ (forall (old : drawer_view) (c : cart) (item : cart_item),
         item_count c <> 0 -> In item (items c) ->
         Js.truthy (final_price item) = false ->
         In "" (line_prices (updateCartDrawer old c))).
Proof.
  assert (Hfalsy : forall price, Js.truthy price = false -> formatPrice price = "").
  { intros price H. unfold formatPrice. now rewrite H. }
  split; [exact Hfalsy|].
  do 6 (split; [vm_compute; reflexivity|]).
  split; [vm_compute; discriminate|].
  split; [vm_compute; reflexivity|]. split.
  - intros old c H. unfold updateCartDrawer.
    destruct (item_count c =? 0); simpl; now apply Hfalsy.
  - intros old c item Hcount Hin H. unfold updateCartDrawer.
    apply Z.eqb_neq in Hcount. rewrite Hcount. simpl.
    apply in_map_iff. exists item. split; [now apply Hfalsy | assumption].
Qed.

(* ===================================================================== *)
(** ** The add-to-cart flow: [handleAddToCart] *)
(* ===================================================================== *)

Lemma guard_blocks (drawer : bool) (w : world) :
  (forall v, getSelectedVariant (comp w) = Some v -> available v = false) ->
  handleAddToCart drawer w = (Returned tt, w).
Proof.
  intros H. destruct w as [c po pc net tr]. cbn [comp] in H. run_handler.
  destruct (getSelectedVariant c) as [v|]; [|reflexivity].
  now rewrite (H v eq_refl).
Qed.

(** C6.  A click on the add-to-cart button posts to the cart only if
    [getSelectedVariant] resolves to a variant whose [available] flag is
    true; otherwise [handleAddToCart] returns at once and leaves the
    component, the popup, the network and the trace as they were. *)
Theorem handleAddToCart_guard (drawer : bool) (w : world) :
  (forall variantId quantity,
      In (PostCartAdd variantId quantity)
         (effects_of (handleAddToCart drawer) w) ->
      exists v, getSelectedVariant (comp w) = Some v /\ available v = true)
  /\ ((forall v, getSelectedVariant (comp w) = Some v -> available v = false) ->
      handleAddToCart drawer w = (Returned tt, w)
      /\ effects_of (handleAddToCart drawer) w = []).
Proof.
  assert (Hquiet : (forall v, getSelectedVariant (comp w) = Some v ->
                              available v = false) ->
                   effects_of (handleAddToCart drawer) w = []).
  { intros H. unfold effects_of. rewrite (guard_blocks drawer w H). simpl.
    apply drop_all. }
  split.
  - intros variantId quantity Hin.
    destruct (getSelectedVariant (comp w)) as [v|] eqn:Hv.
    + destruct (available v) eqn:Ha; [now exists v|].
      rewrite Hquiet in Hin; [destruct Hin|].
      intros v' [= <-]. exact Ha.
    + rewrite Hquiet in Hin; [destruct Hin | discriminate].
  - intros H. split; [now apply guard_blocks | now apply Hquiet].
Qed.

Example handleAddToCart_sold_out :
  let w := Shop.browsing Shop.coat {["Color" := "Navy"]} [Ok (Json None)] in
  handleAddToCart true w = (Returned tt, w).
Proof. vm_compute. reflexivity. Qed.

Example handleAddToCart_plain :
  effects_of (handleAddToCart true)
    (Shop.browsing Sample.legacy_shirt {["Color" := "Blue"]} [Ok (Json None)])
  = [PostCartAdd 103 1; UpdateCartCount; TriggerCartUpdate; ClosePopup;
     SuccessMessage "Product added to cart!"; ShowCartDrawer].
Proof. vm_compute. reflexivity. Qed.

Example handleAddToCart_primary_fails :
  effects_of (handleAddToCart false)
    (Shop.browsing Sample.legacy_shirt {["Color" := "Blue"]}
       [NotOk 422 (Some "Sold out")])
  = [PostCartAdd 103 1; ConsoleError "Add to cart error:" "Sold out";
     ConsoleError "Error adding to cart:" "Sold out";
     ErrorMessage "Failed to add product to cart"].
Proof. vm_compute. reflexivity. Qed.

(** C7.  When the primary [addToCart] succeeds and the bundle rule
    fires, a failure of the second add is caught inside
    [addDarkWinterJacketToCart]: it is logged and not thrown again, the
    flow still closes the popup and shows the success message, and no
    error message is shown. *)
Theorem bundle_failure_is_swallowed (drawer : bool) (w : world) (v : variant)
    (j : option product) (rest : list response) :
  getSelectedVariant (comp w) = Some v ->
  available v = true ->
  shouldAutoAddDarkWinterJacket v = true ->
  network w = Ok (Json j) :: rest ->
  failed (hd Rejected rest) ->
  exists error,
    handleAddToCart drawer w =
    (Returned tt,
     {| comp := comp w; popup_open := false;
        popup_content := popup_content w; network := tl rest;
        trace :=
          (trace w
           ++ [PostCartAdd (id v) 1; UpdateCartCount; TriggerCartUpdate;
               PostCartAdd darkWinterJacketVariantId 1;
               ConsoleError "Add to cart error:" error;
               ConsoleError "Error adding Dark Winter Jacket to cart:" error;
               ClosePopup; SuccessMessage "Product added to cart!"]
           ++ (if drawer then [ShowCartDrawer] else []))%list |}).
Proof.
  intros Hv Ha Hrule Hnet Hfail.
  assert (Hshape : exists error,
             match hd Rejected rest with
             | Rejected => error = network_error
             | NotOk status description =>
                 error = (if Js.truthy_str description
                          then default "" description
                          else "Failed to add to cart: " +:+ Js.decimal status)
             | Ok InvalidJson => error = json_error
             | Ok (Json _) => False
             end).
  { destruct (hd Rejected rest) as [|status d|[|j']]; eauto.
    now destruct (Hfail j'). }
  destruct Hshape as (error & Herror). exists error.
  destruct w as [c po pc net tr].
  cbn [comp popup_open popup_content network trace] in *. subst net.
  run_handler. rewrite Hv, Ha. cbn [negb hd tl]. rewrite Hrule.
  cbn [hd tl comp popup_open popup_content network trace].
  destruct (hd Rejected rest) as [|status d|[|j']]; try contradiction;
    subst error; destruct drawer;
    cbn [comp popup_open popup_content network trace];
    rewrite <- ?app_assoc; reflexivity.
Qed.

Lemma bundle_failure_is_swallowed_witness :
  exists error,
    handleAddToCart true
      (Shop.browsing Shop.coat {["Color" := "Black"]}
         [Ok (Json None); NotOk 422 (Some "Sold out")])
    = (Returned tt,
       {| comp := Sample.viewing Shop.coat {["Color" := "Black"]};
          popup_open := false;
          popup_content :=
            renderProductPopup (Sample.viewing Shop.coat {["Color" := "Black"]});
          network := [];
          trace :=
            [PostCartAdd 301 1; UpdateCartCount; TriggerCartUpdate;
             PostCartAdd darkWinterJacketVariantId 1;
             ConsoleError "Add to cart error:" error;
             ConsoleError "Error adding Dark Winter Jacket to cart:" error;
             ClosePopup; SuccessMessage "Product added to cart!";
             ShowCartDrawer] |}).
Proof.
  apply (bundle_failure_is_swallowed true
           (Shop.browsing Shop.coat {["Color" := "Black"]}
              [Ok (Json None); NotOk 422 (Some "Sold out")])
           Shop.black_medium None [NotOk 422 (Some "Sold out")]).
  - reflexivity.
  - reflexivity.
  - reflexivity.
  - reflexivity.
  - intros j. discriminate.
Defined.

(* ===================================================================== *)
(** ** The initial selection: [initializeVariants] *)
(* ===================================================================== *)

Lemma named_set_any (sel : gmap string string) (k k' x : string) :
  x <> "" -> named sel k -> named (Js.set k' x sel) k.
Proof.
  intros Hx H. unfold Js.set. destruct (_ && _); [assumption|].
  destruct (decide (k' = k)) as [->|Hne].
  - exists x. split; [|assumption]. apply get_Text, lookup_insert_eq.
  - destruct H as (s & Hs & Hne'). exists s. split; [|assumption].
    apply get_Text. rewrite lookup_insert_ne by assumption. now apply get_Text.
Qed.

Lemma named_set (sel : gmap string string) (k x : string) :
  k <> "__proto__" -> x <> "" -> named (Js.set k x sel) k.
Proof.
  intros Hk Hx. exists x. split; [|assumption]. now apply get_set_eq.
Qed.

Lemma seed_option_keeps v option index sel k :
  named sel k -> named (seed_option v option index sel) k.
Proof.
  intros H. unfold seed_option.
  destruct (slot v index) as [s|]; [|assumption].
  destruct (Js.truthy_str (Some s)) eqn:Hs; [|assumption].
  apply truthy_str_true in Hs as (t & [= <-] & Hne).
  now apply named_set_any.
Qed.

Lemma forEach_seed_keeps v schema i sel k :
  named sel k -> named (Js.forEach_from (seed_option v) i schema sel) k.
Proof.
  revert i sel. induction schema as [|o schema IH]; intros i sel H; simpl.
  - assumption.
  - apply IH. now apply seed_option_keeps.
Qed.

Lemma forEach_seed_covers v schema i sel index option :
  schema !! index = Some option ->
  name option <> "__proto__" ->
  Js.truthy_str (slot v (i + index)) = true ->
  named (Js.forEach_from (seed_option v) i schema sel) (name option).
Proof.
  revert i sel index.
  induction schema as [|o schema IH]; intros i sel index Hidx Hproto Hslot.
  - discriminate Hidx.
  - destruct index as [|index]; simpl in *.
    + injection Hidx as ->. rewrite Nat.add_0_r in Hslot.
      apply forEach_seed_keeps. unfold seed_option.
      apply truthy_str_true in Hslot as Hs. destruct Hs as (s & Hs & Hne).
      rewrite Hs in *. rewrite Hslot. now apply named_set.
    + apply (IH (S i) _ index Hidx Hproto).
      now rewrite Nat.add_succ_comm.
Qed.

Lemma seed_legacy_slot_keeps v schema k' fallback sel k :
  named sel k -> named (seed_legacy_slot v schema k' fallback sel) k.
Proof.
  intros H. unfold seed_legacy_slot.
  destruct (slot v k') as [s|]; [|assumption].
  destruct (Js.truthy_str (Some s)) eqn:Hs; [|assumption].
  apply truthy_str_true in Hs as (t & [= <-] & Hne).
  now apply named_set_any.
Qed.

Lemma seed_legacy_slot_covers v schema k fallback sel option :
  schema !! k = Some option -> name option <> "" ->
  name option <> "__proto__" ->
  Js.truthy_str (slot v k) = true ->
  named (seed_legacy_slot v schema k fallback sel) (name option).
Proof.
  intros Hk Hname Hproto Hslot. unfold seed_legacy_slot, legacy_name.
  apply truthy_str_true in Hslot as Hs. destruct Hs as (s & Hs & Hne).
  rewrite Hs in *. rewrite Hslot, Hk. simpl.
  apply String.eqb_neq in Hname. rewrite Hname. simpl.
  now apply named_set.
Qed.

Lemma seed_legacy_covers v schema index option :
  schema !! index = Some option -> name option <> "" ->
  name option <> "__proto__" ->
  Js.truthy_str (slot v index) = true ->
  named (seed_legacy v schema) (name option).
Proof.
  intros Hidx Hname Hproto Hslot. unfold seed_legacy.
  destruct index as [|[|[|index]]].
  - do 2 apply seed_legacy_slot_keeps. now apply seed_legacy_slot_covers.
  - apply seed_legacy_slot_keeps. now apply seed_legacy_slot_covers.
  - now apply seed_legacy_slot_covers.
  - discriminate Hslot.
Qed.

(** C9, as amended.  When the product has an available variant, the
    code reads, after [initializeVariants], a non-empty string under the
    name of every option whose slot in the first available variant holds
    a non-empty value, provided the option is not named "__proto__" and,
    under the legacy schema, that its name is not empty; in particular
    for every option so named, when that variant has a non-empty value
    in each option slot.  The selection is computed from the product
    alone: whatever was selected before is discarded. *)
Theorem initializeVariants_covers (c : component) (p : product) (v : variant) :
  currentProduct c = Some p ->
  find available (elements (variants p)) = Some v ->
  (forall index option,
      schema_of p !! index = Some option ->
      Js.truthy_str (slot v index) = true ->
      name option <> "__proto__" ->
      nonempty (options_with_values p) = true \/ name option <> "" ->
      named (selectedVariants (initializeVariants c)) (name option))
  /\ (forall c', currentProduct c' = Some p ->
                 initializeVariants c' = initializeVariants c).
Proof.
  intros Hp Hv. split.
  - intros index option Hidx Hslot Hproto Hname.
    unfold initializeVariants, initial_selection, schema_of in *. simpl.
    rewrite Hp, Hv.
    destruct (elements (variants p)) as [|first vs] eqn:Hvs;
      [discriminate Hv|].
    destruct (nonempty (options_with_values p)) eqn:Hmodern.
    + unfold seed_modern, Js.forEach.
      now apply (forEach_seed_covers v _ 0%nat _ index).
    + destruct Hname as [Hname|Hname]; [discriminate Hname|].
      destruct (options p) as [[|o schema]|] eqn:Hlegacy; simpl in *;
        try discriminate Hidx.
      now apply (seed_legacy_covers v (o :: schema) index).
  - intros c' Hp'. unfold initializeVariants. now rewrite Hp, Hp'.
Qed.

Lemma initializeVariants_covers_witness :
  let c := Sample.viewing Sample.legacy_shirt {["Color" := "Green"]} in
  (forall index option,
      schema_of Sample.legacy_shirt !! index = Some option ->
      Js.truthy_str (slot Sample.red_small index) = true ->
      name option <> "__proto__" ->
      nonempty (options_with_values Sample.legacy_shirt) = true
      \/ name option <> "" ->
      named (selectedVariants (initializeVariants c)) (name option))
  /\ (forall c', currentProduct c' = Some Sample.legacy_shirt ->
                 initializeVariants c' = initializeVariants c).
Proof.
  apply (initializeVariants_covers
           (Sample.viewing Sample.legacy_shirt {["Color" := "Green"]})
           Sample.legacy_shirt Sample.red_small);
    reflexivity.
Defined.

Example initializeVariants_shirt :
  selectedVariants
    (initializeVariants (Sample.viewing Sample.legacy_shirt {["Color" := "Green"]}))
  = {["Color" := "Red"; "Size" := "Small"]}.
Proof. vm_compute. reflexivity. Qed.

(** C9 as stated fails in three ways, each on a product whose only
    variant is available.  The scarf's variant has no value in the slot
    of Size: nothing is selected for Size.  The ribbon, of the legacy
    schema, has an option without a name: its value is stored under
    "Option 1", and nothing is read under the option's own name.  The
    charm has an option named "__proto__": the assignment is lost, the
    selection stays empty, and what the code reads under that name is
    the prototype, not a chosen value. *)
Lemma initializeVariants_gap_counterexample :
  (let c := initializeVariants (Sample.viewing Scarf.scarf ∅) in
   find available (elements (variants Scarf.scarf)) = Some Scarf.one_size
   /\ schema_of Scarf.scarf !! 1%nat = Some Sample.Size
   /\ Js.get (selectedVariants c) (name Sample.Size) = Js.Missing
   /\ selectedVariants c = {["Color" := "Grey"]})
  /\ (let c := initializeVariants (Sample.viewing Odd.ribbon ∅) in
      find available (elements (variants Odd.ribbon)) = Some Odd.red
      /\ schema_of Odd.ribbon = [Odd.Unnamed]
      /\ slot Odd.red 0 = Some "Red"
      /\ Js.get (selectedVariants c) (name Odd.Unnamed) = Js.Missing
      /\ selectedVariants c = {["Option 1" := "Red"]})
  /\ (let c := initializeVariants (Sample.viewing Odd.charm ∅) in
      find available (elements (variants Odd.charm)) = Some Odd.red
      /\ schema_of Odd.charm = [Odd.Proto]
      /\ slot Odd.red 0 = Some "Red"
      /\ Js.get (selectedVariants c) (name Odd.Proto) = Js.Member
      /\ selectedVariants c = ∅).
Proof.
  split; [|split]; cbv zeta.
  - do 3 (split; [vm_compute; reflexivity|]). vm_compute. reflexivity.
  - do 4 (split; [vm_compute; reflexivity|]). vm_compute. reflexivity.
  - do 4 (split; [vm_compute; reflexivity|]). vm_compute. reflexivity.
Qed.

(* ===================================================================== *)
(** ** Selection, resolution and availability together *)
(* ===================================================================== *)

Lemma every_from_ext {A} (f g : A -> nat -> bool) (i : nat) (l : list A) :
  (forall k x, l !! k = Some x -> f x (i + k)%nat = g x (i + k)%nat) ->
  Js.every_from f i l = Js.every_from g i l.
Proof.
  revert i. induction l as [|a l IH]; intros i H; simpl; [reflexivity|].
  rewrite <- (Nat.add_0_r i) at 1 3. rewrite (H 0%nat a eq_refl).
  rewrite Nat.add_0_r. f_equal. apply IH.
  intros k x Hk. rewrite Nat.add_succ_comm. now apply (H (S k)).
Qed.

(** [getSelectedVariant] as one [find] over the schema in force. *)
Lemma getSelectedVariant_find (c : component) (p : product) :
  currentProduct c = Some p ->
  schema_of p <> [] ->
  getSelectedVariant c =
  find (fun v => Js.every (selected_or_wildcard (selectedVariants c) v)
                          (schema_of p))
       (elements (variants p)).
Proof.
  intros Hp Hne. unfold getSelectedVariant, schema_of in *. rewrite Hp.
  destruct (nonempty (options_with_values p)).
  - now destruct (variants p).
  - destruct (options p) as [[|o l]|]; simpl in *; try congruence.
    now destruct (variants p).
Qed.

Lemma getSelectedVariant_no_schema (c : component) (p : product) :
  currentProduct c = Some p -> schema_of p = [] -> getSelectedVariant c = None.
Proof.
  intros Hp He. unfold getSelectedVariant, schema_of in *. rewrite Hp.
  destruct (variants p) as [vs|]; [|reflexivity].
  destruct (nonempty (options_with_values p)) eqn:Hm.
  - destruct (options_with_values p) as [[|o l]|]; simpl in *; congruence.
  - destruct (options p) as [[|o l]|]; simpl in *; try congruence;
      induction vs as [|v vs IH]; simpl; auto.
Qed.

(** [isVariantAvailable] as one [some] over the schema in force. *)
Lemma isVariantAvailable_existsb (c : component) (p : product)
    (optionName optionValue : string) :
  currentProduct c = Some p ->
  isVariantAvailable c optionName optionValue =
  existsb (carries_and_matches (selectedVariants c) (schema_of p)
                               optionName optionValue)
          (elements (variants p)).
Proof.
  intros Hp. unfold isVariantAvailable, schema_of. rewrite Hp.
  destruct (variants p) as [vs|]; [|reflexivity]. simpl.
  destruct (nonempty (options_with_values p)); [reflexivity|].
  destruct (options p) as [[|o l]|]; simpl; try reflexivity;
    induction vs as [|v vs IH]; simpl; auto.
Qed.

Lemma selected_or_wildcard_set_ne sel v option index o x :
  name option <> o ->
  selected_or_wildcard (Js.set o x sel) v option index
  = selected_or_wildcard sel v option index.
Proof.
  intros Hne. unfold selected_or_wildcard. now rewrite get_set_ne.
Qed.

(** X1.  The answer of [isVariantAvailable] for an option does not depend on
    what is selected for that option: a click on one of its values
    leaves the answers for all its values as they were. *)
Theorem isVariantAvailable_ignores_own_selection (c : component)
    (optionName clicked optionValue : string) :
  isVariantAvailable (handleVariantSelection optionName clicked c)
                     optionName optionValue
  = isVariantAvailable c optionName optionValue.
Proof.
  destruct (currentProduct c) as [p|] eqn:Hp.
  - rewrite (isVariantAvailable_existsb _ p) by exact Hp.
    rewrite (isVariantAvailable_existsb c p) by exact Hp.
    simpl. induction (elements (variants p)) as [|v vs IH]; [reflexivity|].
    simpl. rewrite IH. f_equal.
    unfold carries_and_matches.
    destruct (Js.findIndex _ (schema_of p)); [|reflexivity].
    destruct (negb _); [reflexivity|].
    apply every_from_ext. intros k o Hk.
    destruct (String.eqb_spec (name o) optionName); [reflexivity|].
    now apply selected_or_wildcard_set_ne.
  - unfold isVariantAvailable. simpl. now rewrite Hp.
Qed.

(** X2.  [isVariantAvailable] never reads the [available] flag of a variant:
    a value whose every variant is out of stock is reported just like
    one in stock. *)
Theorem isVariantAvailable_ignores_stock (stock : variant -> bool)
    (p : product) (sel : gmap string string) (optionName optionValue : string) :
  isVariantAvailable
    {| currentProduct := Some (with_stock stock p); selectedVariants := sel |}
    optionName optionValue
  = isVariantAvailable
      {| currentProduct := Some p; selectedVariants := sel |}
      optionName optionValue.
Proof.
  rewrite (isVariantAvailable_existsb _ (with_stock stock p)) by reflexivity.
  rewrite (isVariantAvailable_existsb _ p) by reflexivity.
  change (schema_of (with_stock stock p)) with (schema_of p).
  simpl. destruct (variants p) as [vs|]; [|reflexivity]. simpl.
  induction vs as [|v vs IH]; [reflexivity|]. simpl. now rewrite IH.
Qed.

Lemma find_is_Some {A} (f : A -> bool) (l : list A) :
  is_Some (find f l) <-> exists x, In x l /\ f x = true.
Proof.
  split.
  - intros [x Hx]. apply find_some in Hx. now exists x.
  - intros (x & Hin & Hx). destruct (find f l) eqn:Hf; [eauto|].
    now rewrite (find_none _ _ Hf x Hin) in Hx.
Qed.

Lemma findIndex_from_None {A} (f : A -> bool) (l : list A) (i : nat) :
  Js.findIndex_from f i l = None -> forall x, In x l -> f x = false.
Proof.
  revert i. induction l as [|a l IH]; intros i H x Hin; simpl in *.
  - destruct Hin.
  - destruct (f a) eqn:Ha; [discriminate|].
    destruct Hin as [<-|Hin]; [assumption | now apply (IH (S i))].
Qed.

(** An option the schema names has a slot. *)
Lemma named_option_has_slot (schema : list product_option) (optionName : string) :
  (exists option, In option schema /\ name option = optionName) ->
  exists index, slot_of schema optionName index.
Proof.
  intros (o & Hin & Hname).
  destruct (Js.findIndex (fun opt => String.eqb (name opt) optionName) schema)
    as [i|] eqn:Hi.
  - exists i. now apply findIndex_slot_of.
  - apply (findIndex_from_None _ _ _ Hi) in Hin.
    apply String.eqb_neq in Hin. contradiction.
Qed.

Lemma unique_name_unique_index (schema : list product_option) (i k : nat)
    (a b : product_option) :
  NoDup (name <$> schema) ->
  schema !! i = Some a -> schema !! k = Some b -> name a = name b -> i = k.
Proof.
  intros Hnd Ha Hb Hname.
  apply (NoDup_lookup (name <$> schema) i k (name a)); [assumption| |].
  - now rewrite list_lookup_fmap, Ha.
  - now rewrite list_lookup_fmap, Hb, Hname.
Qed.

(** The variant a selection resolves to carries every non-empty selected
    value in the slot of its option. *)
Lemma resolved_carries_selection (c : component) (p : product) (u : variant)
    (index : nat) (option : product_option) (value : string) :
  currentProduct c = Some p ->
  getSelectedVariant c = Some u ->
  schema_of p !! index = Some option ->
  Js.get (selectedVariants c) (name option) = Js.Text value ->
  value <> "" ->
  In u (elements (variants p)) /\ slot u index = Some value.
Proof.
  intros Hp Hu Hidx Hsel Hne.
  assert (Hschema : schema_of p <> []) by (intros He; now rewrite He in Hidx).
  rewrite (getSelectedVariant_find c p Hp Hschema) in Hu.
  apply find_some in Hu as [Hin Hu]. split; [assumption|].
  apply every_selected_spec in Hu. destruct (Hu index option Hidx) as [H|H].
  - unfold unselected in H. rewrite Hsel in H. destruct H; congruence.
  - destruct H as (s & Hs & Hget). congruence.
Qed.

Lemma available_then_resolves (c : component) (p : product)
    (optionName optionValue : string) :
  currentProduct c = Some p ->
  NoDup (name <$> schema_of p) ->
  optionName <> "__proto__" ->
  isVariantAvailable c optionName optionValue = true ->
  is_Some (getSelectedVariant
             (handleVariantSelection optionName optionValue c)).
Proof.
  intros Hp Hnd Hproto H.
  rewrite (isVariantAvailable_existsb c p _ _ Hp) in H.
  apply existsb_exists in H as (v & Hv & H).
  apply carries_and_matches_spec in H as (j & Hj & Hcarry & Hothers).
  assert (Hschema : schema_of p <> []).
  { destruct Hj as [(oj & Hoj & _) _]. intros He. now rewrite He in Hoj. }
  rewrite (getSelectedVariant_find _ p) by assumption.
  apply find_is_Some. exists v. split; [assumption|].
  apply every_selected_spec. simpl. intros k o Hk.
  destruct (String.eqb_spec (name o) optionName) as [Heq|Hne].
  - right. exists optionValue. rewrite Heq. split; [|now apply get_set_eq].
    destruct Hj as [(oj & Hoj & Hnj) _].
    assert (k = j) as ->; [|assumption].
    apply (unique_name_unique_index (schema_of p) k j o oj); congruence.
  - unfold unselected, selected_as. rewrite get_set_ne by assumption.
    now apply Hothers.
Qed.

(** X3.  On a schema without repeated option names, a value of one of its
    options, other than an option named "__proto__", is reported
    available exactly when selecting it leaves some variant resolved: an
    enabled button never leads to a popup without a variant, and a
    disabled one always would.  (Under "__proto__" the click stores
    nothing, and no variant resolves.) *)
Theorem available_value_resolves (c : component) (p : product)
    (optionName optionValue : string) :
  currentProduct c = Some p ->
  NoDup (name <$> schema_of p) ->
  (exists option, In option (schema_of p) /\ name option = optionName) ->
  optionName <> "__proto__" ->
  optionValue <> "" ->
  (isVariantAvailable c optionName optionValue = true <->
   is_Some (getSelectedVariant
              (handleVariantSelection optionName optionValue c))).
Proof.
  intros Hp Hnd Hin Hproto Hvalue.
  split; [now apply (available_then_resolves c p)|].
  intros [u Hu].
  destruct (named_option_has_slot _ _ Hin) as (i & Hi).
  pose proof Hi as [(oi & Hoi & Hni) _].
  assert (Hschema : schema_of p <> []) by (intros He; now rewrite He in Hoi).
  destruct (resolved_carries_selection
              (handleVariantSelection optionName optionValue c)
              p u i oi optionValue Hp Hu Hoi)
    as [Hmember Hslot]; [simpl; rewrite Hni; now apply get_set_eq | assumption |].
  rewrite (getSelectedVariant_find _ p) in Hu by assumption.
  apply find_some in Hu as [_ Hu]. apply every_selected_spec in Hu.
  rewrite (isVariantAvailable_existsb c p _ _ Hp).
  apply existsb_exists. exists u. split; [assumption|].
  apply carries_and_matches_spec. exists i. split; [assumption|].
  split; [assumption|].
  intros k o Hk Hne. specialize (Hu k o Hk). simpl in Hu.
  unfold unselected, selected_as in Hu.
  now rewrite get_set_ne in Hu by assumption.
Qed.

Lemma available_value_resolves_witness :
  let c := Sample.viewing Sample.legacy_shirt {["Color" := "Red"; "Size" := "Large"]} in
  isVariantAvailable c "Color" "Blue" = true <->
  is_Some (getSelectedVariant (handleVariantSelection "Color" "Blue" c)).
Proof.
  apply (available_value_resolves
           (Sample.viewing Sample.legacy_shirt
              {["Color" := "Red"; "Size" := "Large"]})
           Sample.legacy_shirt "Color" "Blue").
  - reflexivity.
  - apply (bool_decide_unpack _). vm_compute. exact I.
  - exists Sample.Color. split; [now left | reflexivity].
  - discriminate.
  - discriminate.
Defined.

(** An option named "__proto__": Red is reported available, and a click
    on it leaves the selection empty and resolves no variant. *)
Example available_value_proto :
  let c := Sample.viewing Odd.charm ∅ in
  isVariantAvailable c "__proto__" "Red" = true
  /\ selectedVariants (handleVariantSelection "__proto__" "Red" c) = ∅
  /\ getSelectedVariant (handleVariantSelection "__proto__" "Red" c) = None.
Proof. repeat split; vm_compute; reflexivity. Qed.

(** X4.  On a product none of whose options is named like a member of
    [Object.prototype], a selection that says less resolves at least as
    well: whatever a selection resolves to also matches every selection
    contained in it, so removing entries from the selection never loses
    the variant.  (For an option named "constructor", say, removing its
    entry lets the code read the inherited member, which matches no
    variant.) *)
Theorem getSelectedVariant_narrowing (c c' : component) (p : product)
    (u : variant) :
  currentProduct c = Some p ->
  currentProduct c' = Some p ->
  (forall o, In o (schema_of p) -> Js.inherited (name o) = false) ->
  selectedVariants c ⊆ selectedVariants c' ->
  getSelectedVariant c' = Some u ->
  matches_selection (selectedVariants c) (schema_of p) u
  /\ is_Some (getSelectedVariant c).
Proof.
  intros Hp Hp' Hplain Hsub Hu.
  assert (Hschema : schema_of p <> []).
  { intros He. now rewrite (getSelectedVariant_no_schema c' p Hp' He) in Hu. }
  rewrite (getSelectedVariant_find c' p Hp' Hschema) in Hu.
  apply find_some in Hu as [Hin Hu]. apply every_selected_spec in Hu.
  assert (Hm : matches_selection (selectedVariants c) (schema_of p) u).
  { intros k o Hk. specialize (Hu k o Hk).
    assert (Ho : Js.inherited (name o) = false).
    { apply Hplain, list_elem_of_In, list_elem_of_lookup. eauto. }
    unfold unselected, selected_as in *. rewrite !get_own in * by exact Ho.
    destruct (selectedVariants c !! name o) as [s|] eqn:Hs; [|now left; left].
    now rewrite (lookup_weaken _ _ _ _ Hs Hsub) in Hu. }
  split; [exact Hm|].
  rewrite (getSelectedVariant_find c p Hp Hschema).
  apply find_is_Some. exists u. split; [assumption|].
  now apply every_selected_spec.
Qed.

Lemma getSelectedVariant_narrowing_witness :
  let c := Sample.viewing Sample.shirt {["Color" := "Blue"]} in
  let c' := Sample.viewing Sample.shirt {["Color" := "Blue"; "Size" := "Small"]} in
  matches_selection (selectedVariants c) (schema_of Sample.shirt) Sample.blue_small
  /\ is_Some (getSelectedVariant c).
Proof.
  apply (getSelectedVariant_narrowing
           (Sample.viewing Sample.shirt {["Color" := "Blue"]})
           (Sample.viewing Sample.shirt {["Color" := "Blue"; "Size" := "Small"]})
           Sample.shirt Sample.blue_small).
  - reflexivity.
  - reflexivity.
  - intros o [<-|[<-|[]]]; reflexivity.
  - apply (bool_decide_unpack _). vm_compute. exact I.
  - reflexivity.
Defined.

(** An option named "constructor": the selection that holds Red for it
    resolves to the variant, the empty selection to none. *)
Example getSelectedVariant_constructor :
  getSelectedVariant (Sample.viewing Odd.kit {["constructor" := "Red"]})
  = Some Odd.red
  /\ getSelectedVariant (Sample.viewing Odd.kit ∅) = None
  /\ isVariantAvailable (Sample.viewing Odd.kit ∅) "constructor" "Red" = true.
Proof. repeat split; vm_compute; reflexivity. Qed.

(* ===================================================================== *)
(** ** The selection a freshly loaded product starts with *)
(* ===================================================================== *)

Lemma forEach_seed_other v schema i sel k :
  k ∉ name <$> schema ->
  Js.forEach_from (seed_option v) i schema sel !! k = sel !! k.
Proof.
  revert i sel. induction schema as [|o schema IH]; intros i sel Hk; simpl.
  - reflexivity.
  - rewrite fmap_cons, not_elem_of_cons in Hk. destruct Hk as [Hne Hk].
    rewrite IH by assumption. unfold seed_option.
    destruct (slot v i) as [s|]; [|reflexivity].
    destruct (Js.truthy_str (Some s)); [|reflexivity].
    now rewrite lookup_set_ne.
Qed.

Lemma forEach_seed_lookup v schema i sel index option :
  NoDup (name <$> schema) ->
  schema !! index = Some option ->
  name option <> "__proto__" ->
  Js.truthy_str (slot v (i + index)) = true ->
  Js.forEach_from (seed_option v) i schema sel !! name option
  = slot v (i + index).
Proof.
  revert i sel index.
  induction schema as [|o schema IH]; intros i sel index Hnd Hidx Hproto Hslot.
  - discriminate Hidx.
  - rewrite fmap_cons in Hnd. apply NoDup_cons in Hnd as [Hfresh Hnd].
    destruct index as [|index]; simpl in *.
    + injection Hidx as ->. rewrite Nat.add_0_r in *.
      rewrite forEach_seed_other by assumption. unfold seed_option.
      apply truthy_str_true in Hslot as Hs. destruct Hs as (s & Hs & _).
      rewrite Hs in *. rewrite Hslot. now apply lookup_set_eq.
    + rewrite <- Nat.add_succ_comm in *. now apply IH.
Qed.

Lemma defines_exactly_short v schema :
  defines_exactly v schema -> (length schema <= 3)%nat.
Proof.
  intros H. destruct (le_lt_dec (length schema) 3) as [Hle|Hgt]; [assumption|].
  apply (H 3%nat) in Hgt. discriminate Hgt.
Qed.

Lemma seed_legacy_lookup v schema index option :
  NoDup (name <$> schema) ->
  (forall o, In o schema -> name o <> "") ->
  (forall o, In o schema -> name o <> "__proto__") ->
  defines_exactly v schema ->
  schema !! index = Some option ->
  seed_legacy v schema !! name option = slot v index.
Proof.
  intros Hnd Hnames Hproto Hdef Hidx.
  pose proof (defines_exactly_short v schema Hdef) as Hlen.
  assert (Hset : forall k o s fallback sel,
             schema !! k = Some o -> slot v k = Some s ->
             Js.truthy_str (Some s) = true ->
             seed_legacy_slot v schema k fallback sel = <[name o := s]> sel).
  { intros k o s fb sel Hk Hs Ht. unfold seed_legacy_slot, legacy_name.
    rewrite Hs, Ht, Hk. simpl.
    assert (Hn : name o <> "").
    { apply Hnames, list_elem_of_In, list_elem_of_lookup. eauto. }
    assert (Hn' : name o <> "__proto__").
    { apply Hproto, list_elem_of_In, list_elem_of_lookup. eauto. }
    apply String.eqb_neq in Hn. rewrite Hn. simpl. now apply set_insert. }
  assert (Hskip : forall k fallback sel,
             (length schema <= k)%nat ->
             seed_legacy_slot v schema k fallback sel = sel).
  { intros k fb sel Hk. unfold seed_legacy_slot.
    destruct (slot v k) as [s|] eqn:Hs; [|reflexivity].
    destruct (Js.truthy_str (Some s)) eqn:Ht; [|reflexivity].
    rewrite <- Hs in Ht. apply Hdef in Ht. lia. }
  assert (Hval : forall k o, schema !! k = Some o ->
             exists s, slot v k = Some s /\ Js.truthy_str (Some s) = true).
  { intros k o Hk. apply lookup_lt_Some in Hk. apply Hdef in Hk.
    apply truthy_str_true in Hk as Hs. destruct Hs as (s & Hs & _).
    exists s. split; [assumption | now rewrite <- Hs]. }
  unfold seed_legacy.
  destruct schema as [|a [|b [|d [|e rest]]]]; simpl in Hlen; try lia.
  - discriminate Hidx.
  - destruct (Hval 0%nat a eq_refl) as (sa & Ha & Hta).
    rewrite (Hskip 2%nat), (Hskip 1%nat) by (simpl; lia).
    rewrite (Hset 0%nat a sa) by auto.
    destruct index as [|index]; [|discriminate Hidx].
    injection Hidx as <-. now rewrite lookup_insert_eq.
  - destruct (Hval 0%nat a eq_refl) as (sa & Ha & Hta).
    destruct (Hval 1%nat b eq_refl) as (sb & Hb & Htb).
    rewrite (Hskip 2%nat) by (simpl; lia).
    rewrite (Hset 1%nat b sb), (Hset 0%nat a sa) by auto.
    apply NoDup_cons in Hnd as [Hab _]. rewrite list_elem_of_singleton in Hab.
    destruct index as [|[|index]]; try discriminate Hidx;
      injection Hidx as <-; simplify_map_eq; congruence.
  - destruct (Hval 0%nat a eq_refl) as (sa & Ha & Hta).
    destruct (Hval 1%nat b eq_refl) as (sb & Hb & Htb).
    destruct (Hval 2%nat d eq_refl) as (sd & Hd & Htd).
    rewrite (Hset 2%nat d sd), (Hset 1%nat b sb), (Hset 0%nat a sa) by auto.
    apply NoDup_cons in Hnd as [Hab Hnd]. apply NoDup_cons in Hnd as [Hbd _].
    rewrite list_elem_of_singleton in Hbd.
    rewrite !elem_of_cons, elem_of_nil in Hab.
    destruct index as [|[|[|index]]]; try discriminate Hidx;
      injection Hidx as <-; simplify_map_eq; try congruence;
      exfalso; apply Hab; auto.
Qed.

Lemma seed_variant_member (p : product) (v : variant) :
  seed_variant p = Some v -> In v (elements (variants p)).
Proof.
  unfold seed_variant. destruct (elements (variants p)) as [|first vs] eqn:Hvs;
    [discriminate|].
  destruct (find available (first :: vs)) as [u|] eqn:Hu;
    cbn [default]; intros [= <-].
  - now apply find_some in Hu as [Hin _].
  - now left.
Qed.

Lemma initial_selection_seed (p : product) (v : variant) :
  seed_variant p = Some v ->
  initial_selection p =
  if nonempty (options_with_values p)
  then seed_modern v (elements (options_with_values p))
  else if nonempty (options p) then seed_legacy v (elements (options p))
       else ∅.
Proof.
  unfold seed_variant, initial_selection.
  destruct (elements (variants p)) as [|first vs]; [discriminate|].
  destruct (find available (first :: vs)); cbn [default]; now intros [= <-].
Qed.

Lemma initial_selection_lookup (p : product) (v : variant) index option :
  seed_variant p = Some v ->
  NoDup (name <$> schema_of p) ->
  (forall o, In o (schema_of p) -> name o <> "") ->
  (forall o, In o (schema_of p) -> name o <> "__proto__") ->
  defines_exactly v (schema_of p) ->
  schema_of p !! index = Some option ->
  initial_selection p !! name option = slot v index.
Proof.
  intros Hv Hnd Hnames Hproto Hdef Hidx.
  rewrite (initial_selection_seed p v Hv). unfold schema_of in *.
  destruct (nonempty (options_with_values p)).
  - unfold seed_modern, Js.forEach.
    apply (forEach_seed_lookup v _ 0%nat ∅ index option Hnd Hidx).
    + apply Hproto, list_elem_of_In, list_elem_of_lookup. eauto.
    + apply Hdef. now apply lookup_lt_Some in Hidx.
  - destruct (nonempty (options p)) eqn:Hl.
    + now apply seed_legacy_lookup.
    + destruct (options p) as [[|o l]|]; simpl in *; discriminate.
Qed.

(** What the code reads under the name of an option, after
    [initializeVariants]: the seed variant's value. *)
Lemma initialized_selection_lookup (c : component) (p : product) (v : variant)
    index option :
  currentProduct c = Some p ->
  seed_variant p = Some v ->
  NoDup (name <$> schema_of p) ->
  (forall o, In o (schema_of p) -> name o <> "") ->
  (forall o, In o (schema_of p) -> name o <> "__proto__") ->
  defines_exactly v (schema_of p) ->
  schema_of p !! index = Some option ->
  selected_as (selectedVariants (initializeVariants c)) (name option)
              (slot v index).
Proof.
  intros Hp Hv Hnd Hnames Hproto Hdef Hidx. unfold initializeVariants. simpl.
  rewrite Hp.
  pose proof (initial_selection_lookup p v index option
                Hv Hnd Hnames Hproto Hdef Hidx) as Hsel.
  apply lookup_lt_Some in Hidx. apply Hdef in Hidx.
  apply truthy_str_true in Hidx as (s & Hs & _).
  exists s. split; [assumption|]. apply get_Text. congruence.
Qed.

Lemma initialized_resolves (c : component) (p : product) (v : variant) :
  currentProduct c = Some p ->
  seed_variant p = Some v ->
  schema_of p <> [] ->
  NoDup (name <$> schema_of p) ->
  (forall o, In o (schema_of p) -> name o <> "") ->
  (forall o, In o (schema_of p) -> name o <> "__proto__") ->
  defines_exactly v (schema_of p) ->
  exists u,
    getSelectedVariant (initializeVariants c) = Some u
    /\ In u (elements (variants p))
    /\ forall index, (index < length (schema_of p))%nat ->
                     slot u index = slot v index.
Proof.
  intros Hp Hv Hschema Hnd Hnames Hproto Hdef.
  assert (Hsel : forall index option,
             schema_of p !! index = Some option ->
             selected_as (selectedVariants (initializeVariants c))
                         (name option) (slot v index)).
  { intros index option. now apply initialized_selection_lookup. }
  assert (Hcur : currentProduct (initializeVariants c) = Some p) by exact Hp.
  assert (Hsome : is_Some (getSelectedVariant (initializeVariants c))).
  { rewrite (getSelectedVariant_find _ p Hcur Hschema).
    apply find_is_Some. exists v. split; [now apply seed_variant_member|].
    apply every_selected_spec. intros k o Hk. right. now apply Hsel. }
  destruct Hsome as [u Hu]. exists u. split; [exact Hu|].
  rewrite (getSelectedVariant_find _ p Hcur Hschema) in Hu.
  apply find_some in Hu as [Hin Hu]. apply every_selected_spec in Hu.
  split; [exact Hin|].
  intros index Hlt. destruct (lookup_lt_is_Some_2 _ _ Hlt) as [o Ho].
  apply Hdef in Hlt. apply truthy_str_true in Hlt as (s & Hs & Hne).
  destruct (Hsel index o Ho) as (t & Ht & Hget).
  assert (t = s) as -> by congruence.
  destruct (Hu index o Ho) as [Hun|(t & Ht' & Hget')].
  - unfold unselected in Hun. rewrite Hget in Hun.
    destruct Hun as [Hun|Hun]; congruence.
  - congruence.
Qed.

(** X5.  On a product whose options have distinct, non-empty names
    other than "__proto__" and whose seed variant (the first available
    one, else the first) has a value for exactly those options,
    [initializeVariants] selects, for every option, the seed variant's
    value; the selection then resolves to a variant with those same
    option values; and every selected value is reported available, so no
    selected button starts out disabled. *)
Theorem initial_selection_resolves (c : component) (p : product) (v : variant) :
  currentProduct c = Some p ->
  seed_variant p = Some v ->
  schema_of p <> [] ->
  NoDup (name <$> schema_of p) ->
  (forall o, In o (schema_of p) -> name o <> "") ->
  (forall o, In o (schema_of p) -> name o <> "__proto__") ->
  defines_exactly v (schema_of p) ->
  (forall index option,
      schema_of p !! index = Some option ->
      selected_as (selectedVariants (initializeVariants c)) (name option)
                  (slot v index))
  /\ (exists u,
         getSelectedVariant (initializeVariants c) = Some u
         /\ forall index, (index < length (schema_of p))%nat ->
                          slot u index = slot v index)
  /\ (forall index option value,
         schema_of p !! index = Some option ->
         slot v index = Some value ->
         isVariantAvailable (initializeVariants c) (name option) value = true).
Proof.
  intros Hp Hv Hschema Hnd Hnames Hproto Hdef.
  assert (Hsel : forall index option,
             schema_of p !! index = Some option ->
             selected_as (selectedVariants (initializeVariants c))
                         (name option) (slot v index)).
  { intros index option. now apply initialized_selection_lookup. }
  assert (Hcur : currentProduct (initializeVariants c) = Some p) by exact Hp.
  split; [exact Hsel|]. split.
  - destruct (initialized_resolves c p v Hp Hv Hschema Hnd Hnames Hproto Hdef)
      as (u & Hu & _ & Hslots).
    now exists u.
  - intros index option value Hidx Hval.
    rewrite (isVariantAvailable_existsb _ p _ _ Hcur).
    apply existsb_exists. exists v. split; [now apply seed_variant_member|].
    apply carries_and_matches_spec. exists index. split; [|split].
    + split; [eauto|]. intros k o Hlt Hk Heq.
      assert (k = index); [|lia].
      now apply (unique_name_unique_index (schema_of p) k index o option).
    + exact Hval.
    + intros k o Hk _. right. now apply Hsel.
Qed.

Lemma initial_selection_resolves_witness :
  let c := Sample.viewing Sample.legacy_shirt ∅ in
  let p := Sample.legacy_shirt in
  let v := Sample.red_small in
  (forall index option,
      schema_of p !! index = Some option ->
      selected_as (selectedVariants (initializeVariants c)) (name option)
                  (slot v index))
  /\ (exists u,
         getSelectedVariant (initializeVariants c) = Some u
         /\ forall index, (index < length (schema_of p))%nat ->
                          slot u index = slot v index)
  /\ (forall index option value,
         schema_of p !! index = Some option ->
         slot v index = Some value ->
         isVariantAvailable (initializeVariants c) (name option) value = true).
Proof.
  apply (initial_selection_resolves
           (Sample.viewing Sample.legacy_shirt ∅)
           Sample.legacy_shirt Sample.red_small).
  - reflexivity.
  - reflexivity.
  - discriminate.
  - apply (bool_decide_unpack _). vm_compute. exact I.
  - intros o [<-|[<-|[]]]; discriminate.
  - intros o [<-|[<-|[]]]; discriminate.
  - intros [|[|[|index]]]; simpl; split; intros H;
      try reflexivity; try lia; try discriminate H.
Defined.

(** X6.  If moreover the seed variant is available and no other variant has
    its option values, a freshly initialised popup resolves to that very
    variant, and its add-to-cart button is enabled, reads ADD TO CART
    and, when the variant's id is not 0, carries that id.  (For a
    product with an option named "__proto__" the selection stays empty,
    no variant resolves and the button is disabled.) *)
Theorem initial_popup_enabled (c : component) (p : product) (v : variant) :
  currentProduct c = Some p ->
  seed_variant p = Some v ->
  available v = true ->
  schema_of p <> [] ->
  NoDup (name <$> schema_of p) ->
  (forall o, In o (schema_of p) -> name o <> "") ->
  (forall o, In o (schema_of p) -> name o <> "__proto__") ->
  defines_exactly v (schema_of p) ->
  (forall u, In u (elements (variants p)) ->
             (forall index, (index < length (schema_of p))%nat ->
                            slot u index = slot v index) ->
             u = v) ->
  getSelectedVariant (initializeVariants c) = Some v
  /\ exists view,
       renderProductPopup (initializeVariants c) = Some view
       /\ view_disabled view = false
       /\ view_label view = "ADD TO CART"
       /\ (id v <> 0 -> view_variant_id view = Some (id v)).
Proof.
  intros Hp Hv Ha Hschema Hnd Hnames Hproto Hdef Huniq.
  destruct (initialized_resolves c p v Hp Hv Hschema Hnd Hnames Hproto Hdef)
    as (u & Hu & Hin & Hslots).
  assert (Hcur : currentProduct (initializeVariants c) = Some p) by exact Hp.
  assert (u = v) as -> by now apply Huniq.
  split; [exact Hu|].
  unfold renderProductPopup. rewrite Hcur, Hu, Ha. eexists. split; [reflexivity|].
  simpl. repeat split. intros Hid. apply Z.eqb_neq in Hid. now rewrite Hid.
Qed.

Lemma initial_popup_enabled_witness :
  let c := Sample.viewing Sample.legacy_shirt ∅ in
  getSelectedVariant (initializeVariants c) = Some Sample.red_small
  /\ exists view,
       renderProductPopup (initializeVariants c) = Some view
       /\ view_disabled view = false
       /\ view_label view = "ADD TO CART"
       /\ (id Sample.red_small <> 0 -> view_variant_id view = Some (id Sample.red_small)).
Proof.
  apply (initial_popup_enabled
           (Sample.viewing Sample.legacy_shirt ∅)
           Sample.legacy_shirt Sample.red_small).
  - reflexivity.
  - reflexivity.
  - reflexivity.
  - discriminate.
  - apply (bool_decide_unpack _). vm_compute. exact I.
  - intros o [<-|[<-|[]]]; discriminate.
  - intros o [<-|[<-|[]]]; discriminate.
  - intros [|[|[|index]]]; simpl; split; intros H;
      try reflexivity; try lia; try discriminate H.
  - intros u [<-|[<-|[<-|[]]]] H; try reflexivity.
    + specialize (H 1%nat ltac:(simpl; lia)). discriminate H.
    + specialize (H 0%nat ltac:(simpl; lia)). discriminate H.
Defined.

(* ===================================================================== *)
(** ** The option buttons of the legacy schema *)
(* ===================================================================== *)

Lemma unique_from_spec (seen l : list string) :
  NoDup (unique_from seen l)
  /\ (forall x, x ∈ unique_from seen l <-> x ∈ l /\ x ∉ seen)
  /\ unique_from seen l `sublist_of` l.
Proof.
  revert seen. induction l as [|a l IH]; intros seen; simpl.
  - split; [constructor|]. split; [|constructor].
    intros x. split; [intros H | intros [H _]]; now apply elem_of_nil in H.
  - case_bool_decide as Ha.
    + destruct (IH seen) as (Hnd & Hin & Hsub). split; [assumption|].
      split; [|now constructor].
      intros x. rewrite Hin, elem_of_cons. split.
      * intros [Hx Hs]. auto.
      * intros [[->|Hx] Hs]; [contradiction | auto].
    + destruct (IH (a :: seen)) as (Hnd & Hin & Hsub). split; [|split].
      * constructor; [|assumption]. rewrite Hin, elem_of_cons. intros [_ H].
        apply H. now left.
      * intros x. rewrite !elem_of_cons, Hin, elem_of_cons. split.
        -- intros [->|[Hx Hs]]; [auto | split; auto].
        -- intros [[->|Hx] Hs]; [now left|].
           destruct (decide (x = a)) as [->|Hne]; [now left|].
           right. split; [assumption|]. intros [H|H]; contradiction.
      * now constructor.
Qed.

Lemma optionValues_spec (vs : list variant) (index : nat) (value : string) :
  value ∈ optionValues vs index <->
  value <> "" /\ exists v, In v vs /\ slot v index = Some value.
Proof.
  unfold optionValues, unique.
  destruct (unique_from_spec [] (omap (fun v => if Js.truthy_str (slot v index)
                                   then slot v index else None) vs))
    as (_ & Hin & _).
  rewrite Hin, list_elem_of_omap. split.
  - intros [(v & Hv & Hs) _]. destruct (Js.truthy_str (slot v index)) eqn:Ht;
      [|discriminate]. apply truthy_str_true in Ht as (s & Hs' & Hne).
    assert (s = value) as -> by congruence.
    split; [assumption|]. exists v. split; [now apply list_elem_of_In | assumption].
  - intros (Hne & v & Hv & Hs). split; [|apply not_elem_of_nil].
    exists v. split; [now apply list_elem_of_In|].
    rewrite Hs. simpl. apply String.eqb_neq in Hne. now rewrite Hne.
Qed.

Lemma map_from_lookup {A B} (f : A -> nat -> B) (i : nat) (l : list A) (k : nat) :
  map_from f i l !! k = (fun x => f x (i + k)%nat) <$> l !! k.
Proof.
  revert i k. induction l as [|a l IH]; intros i [|k]; simpl; try reflexivity.
  - now rewrite Nat.add_0_r.
  - rewrite IH. now rewrite Nat.add_succ_comm.
Qed.

Lemma map_from_length {A B} (f : A -> nat -> B) (i : nat) (l : list A) :
  length (map_from f i l) = length l.
Proof. revert i. induction l as [|a l IH]; intros i; simpl; auto. Qed.

(** The group [renderVariantOptionsLegacy] renders for the option at
    [index], button by button. *)
Lemma legacy_group_buttons (c : component) (p : product) (vs : list variant)
    (groups : list option_group) (index : nat) (option : product_option) :
  currentProduct c = Some p ->
  variants p = Some vs ->
  renderVariantOptionsLegacy c = Some groups ->
  elements (options p) !! index = Some option ->
  exists group,
    groups !! index = Some group
    /\ group_label group = name option
    /\ button_value <$> group_buttons group = optionValues vs index
    /\ forall b, b ∈ group_buttons group ->
          button_option b = name option
          /\ button_selected b
             = Js.strict_equal (Some (button_value b))
                               (Js.get (selectedVariants c) (name option))
          /\ button_disabled b
             = negb (isVariantAvailable c (name option) (button_value b)).
Proof.
  intros Hp Hvs. unfold renderVariantOptionsLegacy. rewrite Hp, Hvs.
  destruct (options p) as [opts|]; [|discriminate]. simpl.
  set (render_group := fun (option : product_option) (index : nat) =>
         {| group_label := name option;
            group_buttons :=
              map (fun value =>
                     {| button_option := name option; button_value := value;
                        button_selected :=
                          Js.strict_equal (Some value)
                            (Js.get (selectedVariants c) (name option));
                        button_disabled :=
                          negb (isVariantAvailable c (name option) value) |})
                  (optionValues vs index) |}).
  intros Hgroups Hidx.
  assert (groups = map_indexed render_group opts) as ->.
  { destruct opts; now injection Hgroups as <-. }
  exists (render_group option index).
  split; [unfold map_indexed; now rewrite map_from_lookup, Hidx|].
  split; [reflexivity|]. split.
  - simpl. change (@map string option_button) with (@fmap list _ string option_button).
    rewrite <- list_fmap_compose. simpl. apply list_fmap_id.
  - intros b Hb. simpl in Hb.
    change (@map string option_button) with (@fmap list _ string option_button) in Hb.
    apply list_elem_of_fmap in Hb as (value & -> & _). now simpl.
Qed.

Lemma legacy_groups_length (c : component) (p : product) (vs : list variant)
    (groups : list option_group) :
  currentProduct c = Some p ->
  variants p = Some vs ->
  renderVariantOptionsLegacy c = Some groups ->
  length groups = length (elements (options p)).
Proof.
  intros Hp Hvs. unfold renderVariantOptionsLegacy. rewrite Hp, Hvs.
  destruct (options p) as [[|o opts]|]; [|now intros [= <-]; simpl; rewrite map_from_length|discriminate].
  now intros [= <-].
Qed.

(** The button is selected when the code reads its value under the
    option's name. *)
Lemma strict_equal_Text (value : string) (p : Js.property) :
  Js.strict_equal (Some value) p = true <-> p = Js.Text value.
Proof.
  rewrite strict_equal_spec. split.
  - intros (s & [= <-] & ->). reflexivity.
  - intros ->. now exists value.
Qed.

(** X7.  What [renderVariantOptionsLegacy] shows, on a product with a
    variants array whose option names and option values are free of the
    characters the HTML parser treats specially: one group per option,
    labelled with the option's name; its buttons are the distinct
    non-empty values the variants carry in the option's slot, each once,
    and the parser reads each button back with the option's name and
    the value as its [dataset]; a button is marked selected exactly when
    its value is the string read under the option's name, so at most one
    button of a group is; and it is disabled exactly when
    [isVariantAvailable] rejects its value. *)
Theorem renderVariantOptionsLegacy_groups (c : component) (p : product)
    (vs : list variant) (groups : list option_group) :
  currentProduct c = Some p ->
  variants p = Some vs ->
  renderVariantOptionsLegacy c = Some groups ->
  (forall o, In o (elements (options p)) -> Html.inert (name o) = true) ->
  (forall v index value, In v vs -> slot v index = Some value ->
                         Html.inert value = true) ->
  length groups = length (elements (options p))
  /\ forall index option,
       elements (options p) !! index = Some option ->
       exists group,
         groups !! index = Some group
         /\ group_label group = name option
         /\ NoDup (button_value <$> group_buttons group)
         /\ (forall value,
               value ∈ button_value <$> group_buttons group <->
               value <> "" /\ exists v, In v vs /\ slot v index = Some value)
         /\ (forall b, b ∈ group_buttons group ->
               parsed b = Some {| element_disabled := button_disabled b;
                                  dataset_option := name option;
                                  dataset_value := button_value b |}
               /\ (button_selected b = true <->
                   Js.get (selectedVariants c) (name option)
                   = Js.Text (button_value b))
               /\ (button_disabled b = false <->
                   isVariantAvailable c (name option) (button_value b) = true))
         /\ (forall b b', b ∈ group_buttons group -> b' ∈ group_buttons group ->
               button_selected b = true -> button_selected b' = true -> b = b').
Proof.
  intros Hp Hvs Hgroups Hnames Hvalues'.
  split; [now apply (legacy_groups_length c p vs)|].
  intros index option Hidx.
  destruct (legacy_group_buttons c p vs groups index option Hp Hvs Hgroups Hidx)
    as (group & Hgroup & Hlabel & Hvalues & Hbutton).
  exists group. split; [assumption|]. split; [assumption|]. rewrite Hvalues.
  split; [apply (unique_from_spec [] _)|].
  split; [intros value; apply optionValues_spec|]. split.
  - intros b Hb. destruct (Hbutton b Hb) as (Ho & Hs & Hd).
    split; [|split].
    + assert (Hin : button_value b ∈ optionValues vs index).
      { rewrite <- Hvalues. now apply list_elem_of_fmap_2. }
      apply optionValues_spec in Hin as (_ & v & Hv & Hslot).
      unfold parsed. rewrite Ho, (Hvalues' v index _ Hv Hslot).
      rewrite Hnames; [reflexivity|].
      apply list_elem_of_In, list_elem_of_lookup. eauto.
    + rewrite Hs. apply strict_equal_Text.
    + rewrite Hd, negb_false_iff. reflexivity.
  - intros b b' Hb Hb' Hsel Hsel'.
    destruct (Hbutton b Hb) as (Ho & Hs & Hd).
    destruct (Hbutton b' Hb') as (Ho' & Hs' & Hd').
    rewrite Hs in Hsel. rewrite Hs' in Hsel'.
    apply strict_equal_Text in Hsel, Hsel'.
    assert (Hv : button_value b = button_value b') by congruence.
    destruct b as [o v s d], b' as [o' v' s' d']; simpl in *.
    subst o o' v s s' d d'. reflexivity.
Qed.

Lemma renderVariantOptionsLegacy_groups_witness :
  let c := Sample.viewing Sample.legacy_shirt {["Color" := "Red"; "Size" := "Large"]} in
  let p := Sample.legacy_shirt in
  let vs := [Sample.red_small; Sample.red_large; Sample.blue_small] in
  let groups := default [] (renderVariantOptionsLegacy c) in
  length groups = length (elements (options p))
  /\ forall index option,
       elements (options p) !! index = Some option ->
       exists group,
         groups !! index = Some group
         /\ group_label group = name option
         /\ NoDup (button_value <$> group_buttons group)
         /\ (forall value,
               value ∈ button_value <$> group_buttons group <->
               value <> "" /\ exists v, In v vs /\ slot v index = Some value)
         /\ (forall b, b ∈ group_buttons group ->
               parsed b = Some {| element_disabled := button_disabled b;
                                  dataset_option := name option;
                                  dataset_value := button_value b |}
               /\ (button_selected b = true <->
                   Js.get (selectedVariants c) (name option)
                   = Js.Text (button_value b))
               /\ (button_disabled b = false <->
                   isVariantAvailable c (name option) (button_value b) = true))
         /\ (forall b b', b ∈ group_buttons group -> b' ∈ group_buttons group ->
               button_selected b = true -> button_selected b' = true -> b = b').
Proof.
  apply (renderVariantOptionsLegacy_groups
           (Sample.viewing Sample.legacy_shirt
              {["Color" := "Red"; "Size" := "Large"]})
           Sample.legacy_shirt
           [Sample.red_small; Sample.red_large; Sample.blue_small]
           (default [] (renderVariantOptionsLegacy
                          (Sample.viewing Sample.legacy_shirt
                             {["Color" := "Red"; "Size" := "Large"]}))));
    try reflexivity.
  - intros o [<-|[<-|[]]]; reflexivity.
  - intros v [|[|[|index]]] value [<-|[<-|[<-|[]]]] [= <-]; reflexivity.
Defined.

Example renderVariantOptionsLegacy_shirt :
  renderVariantOptionsLegacy
    (Sample.viewing Sample.legacy_shirt {["Color" := "Red"; "Size" := "Large"]})
  = Some [ {| group_label := "Color";
              group_buttons :=
                [ {| button_option := "Color"; button_value := "Red";
                     button_selected := true; button_disabled := false |};
                  {| button_option := "Color"; button_value := "Blue";
                     button_selected := false; button_disabled := true |} ] |};
           {| group_label := "Size";
              group_buttons :=
                [ {| button_option := "Size"; button_value := "Small";
                     button_selected := false; button_disabled := false |};
                  {| button_option := "Size"; button_value := "Large";
                     button_selected := true; button_disabled := false |} ] |} ].
Proof. vm_compute. reflexivity. Qed.

(** A waist size written with the inch sign (a double quote) is written
    into the attribute as it is: the template has one button for it, and
    the model does not follow it into the document. *)
Example renderVariantOptionsLegacy_inches :
  option_map (map (fun g => map parsed (group_buttons g)))
             (renderVariantOptionsLegacy (Sample.viewing Inches.jeans ∅))
  = Some [[None; None]].
Proof. vm_compute. reflexivity. Qed.

(** X8.  On a schema without repeated names, a button is enabled whenever
    every other option is unselected: with nothing else chosen every
    value the variants carry can be clicked, and on a product with a
    single option no button is ever disabled. *)
Theorem legacy_buttons_enabled_when_free (c : component) (p : product)
    (vs : list variant) (groups : list option_group) (index : nat)
    (option : product_option) (group : option_group) (b : option_button) :
  currentProduct c = Some p ->
  variants p = Some vs ->
  nonempty (options_with_values p) = false ->
  NoDup (name <$> elements (options p)) ->
  renderVariantOptionsLegacy c = Some groups ->
  elements (options p) !! index = Some option ->
  groups !! index = Some group ->
  b ∈ group_buttons group ->
  (forall k o, elements (options p) !! k = Some o -> name o <> name option ->
               unselected (selectedVariants c) (name o)) ->
  button_disabled b = false.
Proof.
  intros Hp Hvs Hmodern Hnd Hgroups Hidx Hgroup Hb Hfree.
  destruct (legacy_group_buttons c p vs groups index option Hp Hvs Hgroups Hidx)
    as (group' & Hgroup' & _ & Hvalues & Hbutton).
  assert (group' = group) as -> by congruence.
  destruct (Hbutton b Hb) as (_ & _ & ->). apply negb_false_iff.
  assert (Hvalue : button_value b ∈ optionValues vs index).
  { rewrite <- Hvalues. now apply list_elem_of_fmap_2. }
  apply optionValues_spec in Hvalue as (Hne & v & Hv & Hslot).
  assert (Hschema : schema_of p = elements (options p)).
  { unfold schema_of. now rewrite Hmodern. }
  rewrite (isVariantAvailable_existsb c p _ _ Hp), Hschema.
  apply existsb_exists. exists v. split; [now rewrite Hvs|].
  apply carries_and_matches_spec. exists index. split; [|split].
  - split; [eauto|]. intros k o Hlt Hk Heq.
    assert (k = index); [|lia].
    now apply (unique_name_unique_index (elements (options p)) k index o option).
  - exact Hslot.
  - intros k o Hk Hname. left. now apply (Hfree k o).
Qed.

Lemma legacy_buttons_enabled_when_free_witness :
  button_disabled
    {| button_option := "Color"; button_value := "Blue";
       button_selected := false;
       button_disabled :=
         negb (isVariantAvailable (Sample.viewing Sample.legacy_shirt ∅)
                                  "Color" "Blue") |}
  = false.
Proof.
  apply (legacy_buttons_enabled_when_free
           (Sample.viewing Sample.legacy_shirt ∅) Sample.legacy_shirt
           [Sample.red_small; Sample.red_large; Sample.blue_small]
           (default [] (renderVariantOptionsLegacy
                          (Sample.viewing Sample.legacy_shirt ∅)))
           0%nat Sample.Color
           {| group_label := "Color";
              group_buttons :=
                [ {| button_option := "Color"; button_value := "Red";
                     button_selected := false;
                     button_disabled :=
                       negb (isVariantAvailable
                               (Sample.viewing Sample.legacy_shirt ∅)
                               "Color" "Red") |};
                  {| button_option := "Color"; button_value := "Blue";
                     button_selected := false;
                     button_disabled :=
                       negb (isVariantAvailable
                               (Sample.viewing Sample.legacy_shirt ∅)
                               "Color" "Blue") |} ] |});
    try reflexivity.
  - apply (bool_decide_unpack _). vm_compute. exact I.
  - apply list_elem_of_In. right. left. reflexivity.
  - intros [|[|k]] o Hk _; simpl in Hk; try discriminate Hk;
      injection Hk as <-; left; reflexivity.
Defined.

(** Another option named "constructor", with nothing selected for it,
    is not unselected for the code: it reads the inherited member, and
    every button of the first option is disabled. *)
Example legacy_buttons_constructor :
  isVariantAvailable (Sample.viewing Odd.duo ∅) "Color" "Red" = false
  /\ ~ unselected ∅ "constructor".
Proof.
  split; [vm_compute; reflexivity|]. intros [H|H]; discriminate H.
Qed.

(* ===================================================================== *)
(** ** Clicking an option button *)
(* ===================================================================== *)

(** X9.  A click on a button of the legacy popup that the parser read
    back as written (its option name and value are free of special
    characters).  On a disabled button nothing happens.  On an enabled
    one (the option names being distinct, and the option not named
    "__proto__") the handler returns normally, the clicked value
    replaces the option's entry, the new selection resolves to a variant
    of the product that carries the clicked value, and the popup shows
    what [renderProductPopup] gives for the new selection. *)
Theorem clickOption_resolves (w : world) (p : product) (vs : list variant)
    (groups : list option_group) (index : nat) (option : product_option)
    (group : option_group) (b : option_button) (e : button_element) :
  currentProduct (comp w) = Some p ->
  variants p = Some vs ->
  nonempty (options_with_values p) = false ->
  NoDup (name <$> elements (options p)) ->
  name option <> "__proto__" ->
  renderVariantOptionsLegacy (comp w) = Some groups ->
  elements (options p) !! index = Some option ->
  groups !! index = Some group ->
  b ∈ group_buttons group ->
  parsed b = Some e ->
  (element_disabled e = true -> clickOption e w = (Returned tt, w))
  /\ (element_disabled e = false ->
      let w' := snd (clickOption e w) in
      fst (clickOption e w) = Returned tt
      /\ selectedVariants (comp w')
         = <[name option := button_value b]> (selectedVariants (comp w))
      /\ popup_content w' = renderProductPopup (comp w')
      /\ trace w' = trace w
      /\ exists u, getSelectedVariant (comp w') = Some u
                   /\ In u vs
                   /\ slot u index = Some (button_value b)).
Proof.
  intros Hp Hvs Hmodern Hnd Hproto Hgroups Hidx Hgroup Hb Hparsed.
  destruct (legacy_group_buttons (comp w) p vs groups index option
              Hp Hvs Hgroups Hidx)
    as (group' & Hgroup' & _ & Hvalues & Hbutton).
  assert (group' = group) as -> by congruence.
  destruct (Hbutton b Hb) as (Ho & _ & Hd).
  assert (He : e = {| element_disabled := button_disabled b;
                      dataset_option := name option;
                      dataset_value := button_value b |}).
  { unfold parsed in Hparsed. rewrite Ho in Hparsed.
    destruct (_ && _); [now injection Hparsed as <- | discriminate]. }
  subst e. cbn [element_disabled dataset_option dataset_value].
  assert (Hschema : schema_of p = elements (options p)).
  { unfold schema_of. now rewrite Hmodern. }
  split.
  - intros Hdis. unfold clickOption.
    cbn [element_disabled]. now rewrite Hdis.
  - intros Hen. rewrite Hen in Hd. symmetry in Hd. apply negb_false_iff in Hd.
    assert (Hvalue : button_value b <> "").
    { assert (Hin : button_value b ∈ optionValues vs index).
      { rewrite <- Hvalues. now apply list_elem_of_fmap_2. }
      now apply optionValues_spec in Hin as [Hne _]. }
    destruct w as [c po pc net tr]. cbn [comp] in *.
    unfold clickOption.
    cbn [element_disabled dataset_option dataset_value]. rewrite Hen.
    unfold bind, update, renderWithOptions, render.
    cbn [comp popup_open popup_content network trace snd fst].
    set (c' := handleVariantSelection (name option) (button_value b) c).
    assert (Hp' : currentProduct c' = Some p) by exact Hp.
    assert (Hmarkup : is_Some (renderVariantOptions c')).
    { unfold renderVariantOptions, renderVariantOptionsLegacy.
      rewrite Hp', Hmodern, Hvs.
      destruct (options p) as [[|o opts]|]; simpl; eauto. }
    destruct Hmarkup as [markup Hmarkup]. rewrite Hmarkup.
    cbn [comp popup_open popup_content network trace snd fst].
    split; [reflexivity|].
    split; [unfold c'; simpl; now apply set_insert|]. split.
    { unfold renderProductPopup. now rewrite Hp'. }
    split; [reflexivity|].
    destruct (available_then_resolves c p (name option) (button_value b))
      as [u Hu]; try assumption; [now rewrite Hschema|].
    exists u. split; [exact Hu|].
    destruct (resolved_carries_selection c' p u index option (button_value b))
      as [Hin Hslot]; try assumption.
    + now rewrite Hschema.
    + now apply get_set_eq.
    + split; [|assumption]. now rewrite Hvs in Hin.
Qed.

Lemma clickOption_resolves_witness :
  let w := Shop.browsing Sample.legacy_shirt
             {["Color" := "Red"; "Size" := "Small"]} [] in
  let b := {| button_option := "Color"; button_value := "Blue";
              button_selected := false; button_disabled := false |} in
  let e := {| element_disabled := false; dataset_option := "Color";
              dataset_value := "Blue" |} in
  (element_disabled e = true -> clickOption e w = (Returned tt, w))
  /\ (element_disabled e = false ->
      let w' := snd (clickOption e w) in
      fst (clickOption e w) = Returned tt
      /\ selectedVariants (comp w')
         = <[name Sample.Color := button_value b]> (selectedVariants (comp w))
      /\ popup_content w' = renderProductPopup (comp w')
      /\ trace w' = trace w
      /\ exists u, getSelectedVariant (comp w') = Some u
                   /\ In u [Sample.red_small; Sample.red_large; Sample.blue_small]
                   /\ slot u 0%nat = Some (button_value b)).
Proof.
  apply (clickOption_resolves
           (Shop.browsing Sample.legacy_shirt
              {["Color" := "Red"; "Size" := "Small"]} [])
           Sample.legacy_shirt
           [Sample.red_small; Sample.red_large; Sample.blue_small]
           (default [] (renderVariantOptionsLegacy
                          (Sample.viewing Sample.legacy_shirt
                             {["Color" := "Red"; "Size" := "Small"]})))
           0%nat Sample.Color
           {| group_label := "Color";
              group_buttons :=
                [ {| button_option := "Color"; button_value := "Red";
                     button_selected := true; button_disabled := false |};
                  {| button_option := "Color"; button_value := "Blue";
                     button_selected := false; button_disabled := false |} ] |}
           {| button_option := "Color"; button_value := "Blue";
              button_selected := false; button_disabled := false |});
    try reflexivity.
  - apply (bool_decide_unpack _). vm_compute. exact I.
  - discriminate.
  - apply list_elem_of_In. right. left. reflexivity.
Defined.

(* ===================================================================== *)
(** ** The bundle rule under reordering and change of case *)
(* ===================================================================== *)

Lemma toLowerCase_empty (s : string) : Js.toLowerCase s = "" <-> s = "".
Proof. destruct s; simpl; split; intros H; congruence. Qed.

Lemma truthy_str_lowered (o : option string) :
  Js.truthy_str (Js.toLowerCase <$> o) = Js.truthy_str o.
Proof.
  destruct o as [s|]; simpl; [|reflexivity]. f_equal.
  destruct (String.eqb_spec s "") as [Hs|Hs],
           (String.eqb_spec (Js.toLowerCase s) "") as [Hl|Hl];
    try reflexivity.
  - subst. exfalso. now apply Hl.
  - apply (proj1 (toLowerCase_empty s)) in Hl. contradiction.
Qed.

(** The lower-cased defined option values, computed from the lower-cased
    slots. *)
Lemma allOptions_lowered (v : variant) :
  Js.toLowerCase <$> allOptions v
  = omap (fun o => if Js.truthy_str o then o else None) (lowered_options v).
Proof.
  unfold allOptions, lowered_options.
  assert (H : forall o : option string,
             Js.toLowerCase <$> (if Js.truthy_str o then o else None)
             = (if Js.truthy_str (Js.toLowerCase <$> o)
                then Js.toLowerCase <$> o else None)).
  { intros o. rewrite truthy_str_lowered. now destruct (Js.truthy_str o). }
  simpl.
  pose proof (H (option1 v)) as H1. pose proof (H (option2 v)) as H2.
  pose proof (H (option3 v)) as H3.
  destruct (Js.truthy_str (option1 v)), (option1 v) as [a|];
    destruct (Js.truthy_str (option2 v)), (option2 v) as [b|];
    destruct (Js.truthy_str (option3 v)), (option3 v) as [d|];
    simpl in *;
    repeat match goal with
           | H : Some _ = (if ?t then _ else _) |- _ =>
               destruct t; [clear H | discriminate H]
           | H : None = (if ?t then _ else _) |- _ =>
               destruct t; [discriminate H | clear H]
           | H : None = None |- _ => clear H
           end; reflexivity.
Qed.

Lemma existsb_fmap {A B} (f : A -> B) (g : B -> bool) (l : list A) :
  existsb g (f <$> l) = existsb (fun x => g (f x)) l.
Proof.
  induction l as [|a l IH]; [reflexivity|].
  rewrite fmap_cons. cbn [existsb]. now rewrite IH.
Qed.

Lemma existsb_Permutation {A} (g : A -> bool) (l l' : list A) :
  l ≡ₚ l' -> existsb g l = existsb g l'.
Proof.
  induction 1; simpl; try congruence.
  - now rewrite !orb_assoc, (orb_comm (g y)).
Qed.

(** X10.  The rule reads the variant only through its lower-cased option
    values, whatever their order: two variants whose lower-cased option
    values are a rearrangement of one another trigger the bundle
    alike. *)
Theorem shouldAutoAddDarkWinterJacket_invariant (v v' : variant) :
  lowered_options v ≡ₚ lowered_options v' ->
  shouldAutoAddDarkWinterJacket v = shouldAutoAddDarkWinterJacket v'.
Proof.
  intros Hperm.
  assert (Hlow : Js.toLowerCase <$> allOptions v
                 ≡ₚ Js.toLowerCase <$> allOptions v').
  { rewrite !allOptions_lowered. now apply omap_Permutation. }
  unfold shouldAutoAddDarkWinterJacket.
  rewrite <- !(existsb_fmap Js.toLowerCase (fun s => Js.includes s "black")).
  rewrite <- !(existsb_fmap Js.toLowerCase
                 (fun s => Js.includes s "medium" || String.eqb s "m")).
  now rewrite !(existsb_Permutation _ _ _ Hlow).
Qed.

Lemma shouldAutoAddDarkWinterJacket_invariant_witness :
  shouldAutoAddDarkWinterJacket
    (Jackets.with_options (Some "Jet BLACK") None (Some "MEDIUM"))
  = shouldAutoAddDarkWinterJacket
      (Jackets.with_options (Some "medium") (Some "jet black") None).
Proof.
  apply (shouldAutoAddDarkWinterJacket_invariant
           (Jackets.with_options (Some "Jet BLACK") None (Some "MEDIUM"))
           (Jackets.with_options (Some "medium") (Some "jet black") None)).
  apply (bool_decide_unpack _). vm_compute. exact I.
Defined.

(* ===================================================================== *)
(** ** What [handleAddToCart] sends to the cart *)
(* ===================================================================== *)

Lemma effects_of_appended {A} (m : M A) (w : world) (new : list event) :
  trace (snd (m w)) = (trace w ++ new)%list -> effects_of m w = new.
Proof. intros H. unfold effects_of. rewrite H. apply drop_app_length. Qed.

(** The run of [handleAddToCart] on a resolved, available variant, as a
    function of the two answers of the storefront. *)
Lemma handleAddToCart_run (drawer : bool) (w : world) (v : variant) :
  getSelectedVariant (comp w) = Some v ->
  available v = true ->
  let first := hd Rejected (network w) in
  let second := hd Rejected (tl (network w)) in
  let bundle := accepted first && shouldAutoAddDarkWinterJacket v in
  handleAddToCart drawer w =
  (Returned tt,
   {| comp := comp w;
      popup_open := if accepted first then false else popup_open w;
      popup_content := popup_content w;
      network := if bundle then tl (tl (network w)) else tl (network w);
      trace :=
        (trace w
         ++ add_effects (id v) first
         ++ match cart_error first with
            | Some error =>
                [ConsoleError "Error adding to cart:" error;
                 ErrorMessage "Failed to add product to cart"]
            | None =>
                (if shouldAutoAddDarkWinterJacket v then
                   add_effects darkWinterJacketVariantId second
                   ++ match cart_error second with
                      | Some error =>
                          [ConsoleError
                             "Error adding Dark Winter Jacket to cart:" error]
                      | None =>
                          [SuccessMessage
                             "Dark Winter Jacket automatically added to cart!"]
                      end
                 else [])
                ++ [ClosePopup; SuccessMessage "Product added to cart!"]
                ++ (if drawer then [ShowCartDrawer] else [])
            end)%list |}).
Proof.
  intros Hv Ha. destruct w as [c po pc net tr]. cbn [comp network] in *.
  cbv zeta. run_handler. rewrite Hv, Ha. cbn [negb].
  unfold add_effects.
  destruct net as [|[|s1 d1|[|j1]] net];
    cbn [hd tl comp popup_open popup_content network trace accepted andb
         cart_error];
    try (rewrite <- ?app_assoc; reflexivity);
    destruct (shouldAutoAddDarkWinterJacket v);
    cbn [hd tl comp popup_open popup_content network trace];
    try (destruct drawer; cbn [comp popup_open popup_content network trace];
         rewrite <- ?app_assoc; reflexivity);
    destruct net as [|[|s2 d2|[|j2]] net];
    cbn [hd tl comp popup_open popup_content network trace cart_error];
    destruct drawer; cbn [comp popup_open popup_content network trace];
    rewrite <- ?app_assoc; reflexivity.
Qed.

Lemma accepted_cart_error (r : response) :
  accepted r = true <-> cart_error r = None.
Proof. destruct r as [| |[|]]; simpl; split; congruence. Qed.

(** X11.  Whatever the state and the answers of the storefront,
    [handleAddToCart] posts at most two cart additions, each of quantity
    one: the resolved variant, when it is available, and after it the
    fixed jacket variant, only when the first addition was accepted and
    the bundle rule holds of the resolved variant.  The popup is closed
    exactly when the first addition was accepted, and an error message
    is shown exactly when it was made and not accepted. *)
Theorem handleAddToCart_posts (drawer : bool) (w : world) :
  let new := effects_of (handleAddToCart drawer) w in
  cart_posts new =
    match getSelectedVariant (comp w) with
    | Some v =>
        if available v then
          (id v, 1)
          :: (if accepted (hd Rejected (network w))
                 && shouldAutoAddDarkWinterJacket v
              then [(darkWinterJacketVariantId, 1)] else [])
        else []
    | None => []
    end
  /\ (In ClosePopup new <->
      exists v, getSelectedVariant (comp w) = Some v /\ available v = true
                /\ accepted (hd Rejected (network w)) = true)
  /\ ((exists message, In (ErrorMessage message) new) <->
      exists v, getSelectedVariant (comp w) = Some v /\ available v = true
                /\ accepted (hd Rejected (network w)) = false).
Proof.
  cbv zeta.
  assert (Hnone : (forall u, getSelectedVariant (comp w) = Some u ->
                             available u = false) ->
                  effects_of (handleAddToCart drawer) w = []).
  { intros Hblocked. apply effects_of_appended.
    rewrite (guard_blocks drawer w Hblocked). now rewrite app_nil_r. }
  destruct (getSelectedVariant (comp w)) as [v|] eqn:Hv.
  2:{ rewrite Hnone by discriminate. split; [reflexivity|].
      split; split; intros Hx.
      - destruct Hx.
      - destruct Hx as (u & Hu & _). discriminate Hu.
      - destruct Hx as (m & []).
      - destruct Hx as (u & Hu & _). discriminate Hu. }
  destruct (available v) eqn:Ha.
  2:{ rewrite Hnone by (intros u [= <-]; exact Ha). split; [reflexivity|].
      split; split; intros Hx.
      - destruct Hx.
      - destruct Hx as (u & [= <-] & Hu & _). congruence.
      - destruct Hx as (m & []).
      - destruct Hx as (u & [= <-] & Hu & _). congruence. }
  erewrite effects_of_appended
    by (rewrite (handleAddToCart_run drawer w v Hv Ha); reflexivity).
  unfold add_effects.
  destruct (hd Rejected (network w)) as [|status d|[|j]];
    cbn [accepted cart_error andb app cart_posts omap].
  1-3: split; [reflexivity|]; split; split; intros Hx;
       [ cbn in Hx; intuition discriminate
       | destruct Hx as (u & _ & _ & Hu); discriminate Hu
       | now exists v
       | eexists; cbn; eauto 6 ].
  destruct (shouldAutoAddDarkWinterJacket v);
    [destruct (hd Rejected (tl (network w))) as [|status d|[|j']]|];
    destruct drawer;
    cbn [accepted cart_error andb app cart_posts omap];
    (split; [reflexivity|]; split; split; intros Hx;
     [ now exists v
     | cbn; tauto
     | destruct Hx as (m & Hm); cbn in Hm; intuition discriminate
     | destruct Hx as (u & _ & _ & Hu); discriminate Hu ]).
Qed.

(** X12.  When the addition of the resolved variant fails (rejected request,
    status outside 2xx, or a body that does not parse), the handler
    returns normally, the popup stays as it was, the jacket is not
    attempted (one answer is consumed), no success message is shown, and
    the shopper sees the fixed message: the storefront's own description
    of the error goes to the console only. *)
Theorem primary_failure_keeps_popup (drawer : bool) (w : world) (v : variant)
    (error : string) :
  getSelectedVariant (comp w) = Some v ->
  available v = true ->
  cart_error (hd Rejected (network w)) = Some error ->
  handleAddToCart drawer w =
  (Returned tt,
   {| comp := comp w; popup_open := popup_open w;
      popup_content := popup_content w; network := tl (network w);
      trace :=
        (trace w
         ++ [PostCartAdd (id v) 1;
             ConsoleError "Add to cart error:" error;
             ConsoleError "Error adding to cart:" error;
             ErrorMessage "Failed to add product to cart"])%list |}).
Proof.
  intros Hv Ha Herror. rewrite (handleAddToCart_run drawer w v Hv Ha).
  unfold add_effects. rewrite Herror.
  assert (Hrefused : accepted (hd Rejected (network w)) = false).
  { destruct (accepted _) eqn:H; [|reflexivity].
    apply accepted_cart_error in H. congruence. }
  now rewrite Hrefused.
Qed.

Lemma primary_failure_keeps_popup_witness :
  let w := Shop.browsing Shop.coat {["Color" := "Black"]}
             [NotOk 422 (Some "All 3 are in your cart."); Ok (Json None)] in
  handleAddToCart true w =
  (Returned tt,
   {| comp := comp w; popup_open := popup_open w;
      popup_content := popup_content w; network := tl (network w);
      trace :=
        (trace w
         ++ [PostCartAdd (id Shop.black_medium) 1;
             ConsoleError "Add to cart error:" "All 3 are in your cart.";
             ConsoleError "Error adding to cart:" "All 3 are in your cart.";
             ErrorMessage "Failed to add product to cart"])%list |}).
Proof.
  apply (primary_failure_keeps_popup true
           (Shop.browsing Shop.coat {["Color" := "Black"]}
              [NotOk 422 (Some "All 3 are in your cart."); Ok (Json None)])
           Shop.black_medium "All 3 are in your cart."); reflexivity.
Defined.

(** X13.  The add-to-cart button tells what a click will do.  When the popup
    was rendered from the current state, a disabled button (OUT OF
    STOCK) means that [handleAddToCart] does nothing at all, and an
    enabled one that its first effect is the cart addition of the
    resolved variant, whose id the button carries in
    [data-variant-id]. *)
Theorem button_tells_click (drawer : bool) (w : world) (view : popup_view) :
  renderProductPopup (comp w) = Some view ->
  (view_disabled view = true -> handleAddToCart drawer w = (Returned tt, w))
  /\ (view_disabled view = false ->
      exists v rest,
        getSelectedVariant (comp w) = Some v
        /\ effects_of (handleAddToCart drawer) w = PostCartAdd (id v) 1 :: rest
        /\ view_label view = "ADD TO CART"
        /\ (id v <> 0 -> view_variant_id view = Some (id v))).
Proof.
  unfold renderProductPopup.
  destruct (currentProduct (comp w)) as [p|]; [|discriminate].
  intros [= <-]. cbn [view_disabled view_label view_variant_id]. split.
  - intros Hdis. apply guard_blocks. intros v Hv. rewrite Hv in Hdis.
    now apply negb_true_iff in Hdis.
  - intros Hen. destruct (getSelectedVariant (comp w)) as [v|] eqn:Hv;
      [|discriminate Hen].
    apply negb_false_iff in Hen. exists v. eexists.
    split; [reflexivity|]. split; [|split].
    + apply effects_of_appended.
      rewrite (handleAddToCart_run drawer w v Hv Hen).
      cbn [trace]. unfold add_effects. reflexivity.
    + now rewrite Hen.
    + intros Hid. apply Z.eqb_neq in Hid. now rewrite Hid.
Qed.

Lemma button_tells_click_witness :
  let w := Shop.browsing Sample.legacy_shirt {["Color" := "Blue"]} [] in
  let view := default {| view_image := ""; view_title := ""; view_price := "";
                         view_disabled := true; view_label := "";
                         view_variant_id := None |}
                      (renderProductPopup (comp w)) in
  (view_disabled view = true -> handleAddToCart false w = (Returned tt, w))
  /\ (view_disabled view = false ->
      exists v rest,
        getSelectedVariant (comp w) = Some v
        /\ effects_of (handleAddToCart false) w = PostCartAdd (id v) 1 :: rest
        /\ view_label view = "ADD TO CART"
        /\ (id v <> 0 -> view_variant_id view = Some (id v))).
Proof.
  apply (button_tells_click false
           (Shop.browsing Sample.legacy_shirt {["Color" := "Blue"]} [])).
  reflexivity.
Defined.

(* ===================================================================== *)
(** ** Loading a product *)
(* ===================================================================== *)

(** The trace [handleHotspotClick] leaves when the hotspot carries an
    identifier. *)
Lemma handleHotspotClick_trace (h : hotspot) (w : world) :
  Js.truthy_str (productHandle h) = true \/ Js.truthy_str (productId h) = true ->
  exists logged,
    trace (snd (handleHotspotClick h w))
    = (trace w ++ FetchProduct ("/products/" +:+ requested h +:+ ".js")
               :: logged ++ [OpenPopup])%list
    /\ product_requests logged = []
    /\ popup_open (snd (handleHotspotClick h w)) = true
    /\ network (snd (handleHotspotClick h w)) = tl (network w).
Proof.
  intros Hid.
  assert (Hguard : negb (Js.truthy_str (productHandle h))
                   && negb (Js.truthy_str (productId h)) = false).
  { destruct Hid as [-> | ->]; simpl; [reflexivity | apply andb_false_r]. }
  unfold requested.
  destruct w as [c po pc [|[|status d|[|[p|]]] net] tr];
    run_handler; rewrite Hguard; simpl;
    try (exists []; rewrite <- ?app_assoc; repeat split; reflexivity);
    (eexists [_; _]; rewrite <- ?app_assoc; repeat split; reflexivity).
Qed.

Lemma product_requests_load (url : string) (logged : list event) :
  product_requests logged = [] ->
  product_requests (FetchProduct url :: (logged ++ [OpenPopup])%list) = [url].
Proof.
  intros H. unfold product_requests in *. simpl. f_equal.
  rewrite omap_app, H. reflexivity.
Qed.

(** X14.  A click on a hotspot requests at most one product: the one named by
    the handle when the hotspot has a non-empty handle, else the one
    named by its id, and none when it has neither, in which case a
    warning is logged and nothing else changes.  The popup is opened
    exactly when a request was made, and exactly then one answer of the
    storefront is consumed. *)
Theorem handleHotspotClick_requests (h : hotspot) (w : world) :
  network (snd (handleHotspotClick h w))
  = (if Js.truthy_str (productHandle h) || Js.truthy_str (productId h)
     then tl (network w) else network w)
  /\ product_requests (effects_of (handleHotspotClick h) w)
  = match productHandle h, productId h with
    | Some handle, other =>
        if negb (String.eqb handle "") then ["/products/" +:+ handle +:+ ".js"]
        else match other with
             | Some identifier =>
                 if negb (String.eqb identifier "")
                 then ["/products/" +:+ identifier +:+ ".js"] else []
             | None => []
             end
    | None, Some identifier =>
        if negb (String.eqb identifier "")
        then ["/products/" +:+ identifier +:+ ".js"] else []
    | None, None => []
    end
  /\ (In OpenPopup (effects_of (handleHotspotClick h) w) <->
      Js.truthy_str (productHandle h) = true
      \/ Js.truthy_str (productId h) = true)
  /\ (Js.truthy_str (productHandle h) = false ->
      Js.truthy_str (productId h) = false ->
      handleHotspotClick h w =
      (Returned tt,
       {| comp := comp w; popup_open := popup_open w;
          popup_content := popup_content w; network := network w;
          trace := (trace w ++ [ConsoleWarn
                      "No product handle or ID found for hotspot"])%list |})).
Proof.
  assert (Hnone : Js.truthy_str (productHandle h) = false ->
                  Js.truthy_str (productId h) = false ->
                  handleHotspotClick h w =
                  (Returned tt,
                   {| comp := comp w; popup_open := popup_open w;
                      popup_content := popup_content w; network := network w;
                      trace := (trace w ++ [ConsoleWarn
                        "No product handle or ID found for hotspot"])%list |})).
  { intros Hh Hi. unfold handleHotspotClick. now rewrite Hh, Hi. }
  split.
  { destruct (Js.truthy_str (productHandle h)) eqn:Hh;
      [|destruct (Js.truthy_str (productId h)) eqn:Hi]; simpl.
    - destruct (handleHotspotClick_trace h w) as (? & _ & _ & _ & Hn); auto.
    - destruct (handleHotspotClick_trace h w) as (? & _ & _ & _ & Hn); auto.
    - now rewrite Hnone. }
  destruct (Js.truthy_str (productHandle h)) eqn:Hh;
    [|destruct (Js.truthy_str (productId h)) eqn:Hi].
  3:{ rewrite (effects_of_appended _ w
                 [ConsoleWarn "No product handle or ID found for hotspot"])
        by now rewrite Hnone.
      split; [|split; [|exact Hnone]].
      - destruct (productHandle h) as [a|], (productId h) as [b|];
          simpl in *; try rewrite Hh; try rewrite Hi; reflexivity.
      - split; [intros [H|[]]; discriminate H | intros [H|H]; discriminate H]. }
  all: destruct (handleHotspotClick_trace h w) as (logged & Htrace & Hlogged & _);
    [auto|];
    rewrite (effects_of_appended _ w _ Htrace);
    rewrite (product_requests_load _ _ Hlogged);
    (split; [|split; [|intros; discriminate]]);
    [ unfold requested; rewrite ?Hh;
      destruct (productHandle h) as [a|], (productId h) as [b|];
        simpl in *; try rewrite Hh; try rewrite Hi; try discriminate; reflexivity
    | split; [auto | intros _; right; apply in_or_app; right; now left] ].
Qed.

(** X15.  A load that fails leaves the popup showing what it showed before.
    When it fails before a body is parsed (rejected request, status
    outside 2xx, body that does not parse), the component too is as it
    was: the previous product and selection stay current.  When the body
    is [null], the product is cleared and the selection emptied before
    the error, so the add-to-cart button of the popup that opens does
    nothing. *)
Theorem failed_load_state (h : hotspot) (w : world) :
  Js.truthy_str (productHandle h) = true \/ Js.truthy_str (productId h) = true ->
  let w' := snd (handleHotspotClick h w) in
  ((forall body, hd Rejected (network w) <> Ok (Json body)) ->
   comp w' = comp w /\ popup_content w' = popup_content w)
  /\ (hd Rejected (network w) = Ok (Json None) ->
      comp w' = {| currentProduct := None; selectedVariants := ∅ |}
      /\ popup_content w' = popup_content w
      /\ forall drawer, handleAddToCart drawer w' = (Returned tt, w')).
Proof.
  intros Hid. cbv zeta.
  assert (Hguard : negb (Js.truthy_str (productHandle h))
                   && negb (Js.truthy_str (productId h)) = false).
  { destruct Hid as [-> | ->]; simpl; [reflexivity | apply andb_false_r]. }
  split.
  - intros Hfail.
    destruct w as [c po pc [|[|status d|[|body]] net] tr];
      run_handler; rewrite Hguard; simpl; try (split; reflexivity).
    now destruct (Hfail body).
  - intros Hnull.
    assert (Hstate : comp (snd (handleHotspotClick h w))
                     = {| currentProduct := None; selectedVariants := ∅ |}
                     /\ popup_content (snd (handleHotspotClick h w))
                        = popup_content w).
    { destruct w as [c po pc [|[|status d|[|[p|]]] net] tr];
        try discriminate Hnull.
      run_handler. rewrite Hguard. simpl. split; reflexivity. }
    destruct Hstate as [Hcomp Hcontent].
    split; [assumption|]. split; [assumption|].
    intros drawer. apply guard_blocks. intros v. now rewrite Hcomp.
Qed.

Lemma failed_load_state_witness :
  let h := Page.shirt_hotspot in
  let w := Shop.browsing Shop.coat {["Color" := "Black"]} [Ok (Json None)] in
  let w' := snd (handleHotspotClick h w) in
  ((forall body, hd Rejected (network w) <> Ok (Json body)) ->
   comp w' = comp w /\ popup_content w' = popup_content w)
  /\ (hd Rejected (network w) = Ok (Json None) ->
      comp w' = {| currentProduct := None; selectedVariants := ∅ |}
      /\ popup_content w' = popup_content w
      /\ forall drawer, handleAddToCart drawer w' = (Returned tt, w')).
Proof.
  apply (failed_load_state Page.shirt_hotspot
           (Shop.browsing Shop.coat {["Color" := "Black"]} [Ok (Json None)])).
  left. reflexivity.
Defined.

(* ===================================================================== *)
(** ** Rendering the option markup *)
(* ===================================================================== *)

Lemma renderVariantOptions_throws (c : component) (p : product) :
  currentProduct c = Some p ->
  (renderVariantOptions c = None <-> unrenderable p).
Proof.
  intros Hp. unfold renderVariantOptions, renderVariantOptionsLegacy, unrenderable.
  rewrite Hp.
  destruct (nonempty (options_with_values p)).
  - split; [discriminate | now intros [H _]].
  - destruct (options p) as [[|o opts]|]; simpl.
    + split; [discriminate | now intros (_ & H & _)].
    + destruct (variants p); simpl; split; try discriminate; auto.
      now intros (_ & _ & H).
    + split; [discriminate | now intros (_ & H & _)].
Qed.

(* ===================================================================== *)
(** ** Opening the popup: [handleHotspotClick] *)
(* ===================================================================== *)

Lemma no_warning_among (effects : list event) :
  existsb is_warning effects = false ->
  forall message, ~ In (ConsoleWarn message) effects.
Proof.
  intros H message Hin.
  assert (Hex : existsb is_warning effects = true).
  { apply existsb_exists. now exists (ConsoleWarn message). }
  congruence.
Qed.

(** C8, as amended.  A click on a hotspot that carries a product handle
    or id opens the popup whether the load succeeds or fails, and the
    handler returns normally in both cases, without any console warning.
    The load fails when the request is rejected, the status is not 2xx,
    the body does not parse or is [null], or the product is one whose
    option markup cannot be built.  The error is then logged with
    [console.error], by [loadProduct] and again by the handler, and is
    not thrown again; the popup opens on the content it had before
    (stale, or empty when nothing was rendered yet).  When the load
    succeeds the only effects are the request and the opening, and the
    popup shows the product with its initial selection. *)
Theorem handleHotspotClick_opens (h : hotspot) (w : world) :
  Js.truthy_str (productHandle h) = true \/ Js.truthy_str (productId h) = true ->
  let url := "/products/" +:+ requested h +:+ ".js" in
  let w' := snd (handleHotspotClickWithOptions h w) in
  fst (handleHotspotClickWithOptions h w) = Returned tt
  /\ popup_open w' = true
  /\ (forall message,
        ~ In (ConsoleWarn message)
             (effects_of (handleHotspotClickWithOptions h) w))
  /\ (forall p, loads w p -> ~ unrenderable p ->
        trace w' = (trace w ++ [FetchProduct url; OpenPopup])%list
        /\ comp w' = initializeVariants
                       {| currentProduct := Some p;
                          selectedVariants := selectedVariants (comp w) |}
        /\ popup_content w' = renderProductPopup (comp w'))
  /\ ((forall p, loads w p -> unrenderable p) ->
        popup_content w' = popup_content w
        /\ exists error,
             trace w' =
             (trace w ++ [FetchProduct url;
                          ConsoleError "Error loading product:" error;
                          ConsoleError "Error loading product:" error;
                          OpenPopup])%list).
Proof.
  intros Hid. cbv zeta. unfold loads, requested.
  assert (Hguard : negb (Js.truthy_str (productHandle h))
                   && negb (Js.truthy_str (productId h)) = false).
  { destruct Hid as [-> | ->]; simpl; [reflexivity | apply andb_false_r]. }
  set (url := "/products/"
              +:+ default "" (if Js.truthy_str (productHandle h)
                              then productHandle h else productId h)
              +:+ ".js").
  assert (Hfailed : forall c po pc net tr net' c' error,
            (forall p, hd Rejected net = Ok (Json (Some p)) -> unrenderable p) ->
            handleHotspotClickWithOptions h
              {| comp := c; popup_open := po; popup_content := pc;
                 network := net; trace := tr |}
            = (Returned tt,
               {| comp := c'; popup_open := true; popup_content := pc;
                  network := net';
                  trace := (tr ++ [FetchProduct url;
                                   ConsoleError "Error loading product:" error;
                                   ConsoleError "Error loading product:" error;
                                   OpenPopup])%list |}) ->
            let w := {| comp := c; popup_open := po; popup_content := pc;
                        network := net; trace := tr |} in
            let w' := snd (handleHotspotClickWithOptions h w) in
            fst (handleHotspotClickWithOptions h w) = Returned tt
            /\ popup_open w' = true
            /\ (forall message,
                  ~ In (ConsoleWarn message)
                       (effects_of (handleHotspotClickWithOptions h) w))
            /\ (forall p, hd Rejected (network w) = Ok (Json (Some p)) ->
                  ~ unrenderable p ->
                  trace w' = (trace w ++ [FetchProduct url; OpenPopup])%list
                  /\ comp w' = initializeVariants
                                 {| currentProduct := Some p;
                                    selectedVariants := selectedVariants (comp w) |}
                  /\ popup_content w' = renderProductPopup (comp w'))
            /\ ((forall p, hd Rejected (network w) = Ok (Json (Some p)) ->
                           unrenderable p) ->
                  popup_content w' = popup_content w
                  /\ exists error,
                       trace w' =
                       (trace w ++ [FetchProduct url;
                                    ConsoleError "Error loading product:" error;
                                    ConsoleError "Error loading product:" error;
                                    OpenPopup])%list)).
  { intros c po pc net tr net' c' error Hun Hrun. cbv zeta.
    split; [now rewrite Hrun|]. split; [now rewrite Hrun|]. split; [|split].
    - apply no_warning_among.
      rewrite (effects_of_appended _ _
                 [FetchProduct url;
                  ConsoleError "Error loading product:" error;
                  ConsoleError "Error loading product:" error;
                  OpenPopup]) by now rewrite Hrun.
      reflexivity.
    - intros p Hp Hren. cbn [network] in Hp. now destruct (Hren (Hun p Hp)).
    - intros _. rewrite Hrun. split; [reflexivity|]. now exists error. }
  destruct w as [c po pc [|[|status d|[|[p|]]] net] tr].
  - apply (Hfailed c po pc [] tr [] c network_error); [discriminate|].
    unfold handleHotspotClickWithOptions, loadProductWithOptions, openPopup,
      update, set_popup, emit, fetch, try_catch, bind, throw, ret.
    rewrite Hguard. simpl. now rewrite <- !app_assoc.
  - apply (Hfailed c po pc (Rejected :: net) tr net c network_error);
      [discriminate|].
    unfold handleHotspotClickWithOptions, loadProductWithOptions, openPopup,
      update, set_popup, emit, fetch, try_catch, bind, throw, ret.
    rewrite Hguard. simpl. now rewrite <- !app_assoc.
  - apply (Hfailed c po pc (NotOk status d :: net) tr net c
             ("Failed to load product: " +:+ Js.decimal status));
      [discriminate|].
    unfold handleHotspotClickWithOptions, loadProductWithOptions, openPopup,
      update, set_popup, emit, fetch, try_catch, bind, throw, ret.
    rewrite Hguard.
    cbn -[String.append Js.decimal]. now rewrite <- !app_assoc.
  - apply (Hfailed c po pc (Ok InvalidJson :: net) tr net c json_error);
      [discriminate|].
    unfold handleHotspotClickWithOptions, loadProductWithOptions, openPopup,
      update, set_popup, emit, fetch, try_catch, bind, throw, ret.
    rewrite Hguard. simpl. now rewrite <- !app_assoc.
  - set (c' := initializeVariants
                 {| currentProduct := Some p;
                    selectedVariants := selectedVariants c |}).
    assert (Hp' : currentProduct c' = Some p) by reflexivity.
    pose proof (renderVariantOptions_throws c' p Hp') as Hthrows.
    destruct (renderVariantOptions c') as [markup|] eqn:Hmarkup.
    + assert (Hrun : handleHotspotClickWithOptions h
                       {| comp := c; popup_open := po; popup_content := pc;
                          network := Ok (Json (Some p)) :: net; trace := tr |}
                     = (Returned tt,
                        {| comp := c'; popup_open := true;
                           popup_content := renderProductPopup c';
                           network := net;
                           trace := (tr ++ [FetchProduct url; OpenPopup])%list |})).
      { unfold handleHotspotClickWithOptions, loadProductWithOptions,
          renderWithOptions, openPopup, render,
          update, set_popup, emit, fetch, try_catch, bind, throw, ret.
        rewrite Hguard.
        cbn -[renderVariantOptions initializeVariants renderProductPopup
              String.append Js.decimal].
        fold c'. rewrite Hmarkup.
        cbn -[renderVariantOptions initializeVariants renderProductPopup
              String.append Js.decimal].
        unfold renderProductPopup at 1. rewrite Hp'.
        fold (renderProductPopup c'). unfold renderProductPopup. rewrite Hp'.
        now rewrite <- !app_assoc. }
      split; [now rewrite Hrun|]. split; [now rewrite Hrun|].
      split; [|split].
      * apply no_warning_among.
        rewrite (effects_of_appended _ _ [FetchProduct url; OpenPopup])
          by now rewrite Hrun.
        reflexivity.
      * intros p' [= <-] _. rewrite Hrun. repeat split; reflexivity.
      * intros Hun. cbn [network hd] in Hun.
        apply Hthrows in Hun; [discriminate Hun | reflexivity].
    + assert (Hun : unrenderable p) by now apply Hthrows.
      apply (Hfailed c po pc (Ok (Json (Some p)) :: net) tr net c' map_error).
      * now intros p' [= <-].
      * unfold handleHotspotClickWithOptions, loadProductWithOptions,
          renderWithOptions, openPopup, render,
          update, set_popup, emit, fetch, try_catch, bind, throw, ret.
        rewrite Hguard.
        cbn -[renderVariantOptions initializeVariants renderProductPopup
              String.append Js.decimal].
        fold c'. rewrite Hmarkup.
        cbn -[renderVariantOptions initializeVariants renderProductPopup
              String.append Js.decimal].
        now rewrite <- !app_assoc.
  - apply (Hfailed c po pc (Ok (Json None) :: net) tr net
             (initializeVariants {| currentProduct := None;
                                    selectedVariants := selectedVariants c |})
             null_error);
      [discriminate|].
    unfold handleHotspotClickWithOptions, loadProductWithOptions, openPopup,
      update, set_popup, emit, fetch, try_catch, bind, throw, ret.
    rewrite Hguard. simpl. now rewrite <- !app_assoc.
Qed.

Lemma handleHotspotClick_opens_witness :
  let h := Page.shirt_hotspot in
  let w := Page.fresh [NotOk 404 None] in
  let url := "/products/" +:+ requested h +:+ ".js" in
  let w' := snd (handleHotspotClickWithOptions h w) in
  fst (handleHotspotClickWithOptions h w) = Returned tt
  /\ popup_open w' = true
  /\ (forall message,
        ~ In (ConsoleWarn message)
             (effects_of (handleHotspotClickWithOptions h) w))
  /\ (forall p, loads w p -> ~ unrenderable p ->
        trace w' = (trace w ++ [FetchProduct url; OpenPopup])%list
        /\ comp w' = initializeVariants
                       {| currentProduct := Some p;
                          selectedVariants := selectedVariants (comp w) |}
        /\ popup_content w' = renderProductPopup (comp w'))
  /\ ((forall p, loads w p -> unrenderable p) ->
        popup_content w' = popup_content w
        /\ exists error,
             trace w' =
             (trace w ++ [FetchProduct url;
                          ConsoleError "Error loading product:" error;
                          ConsoleError "Error loading product:" error;
                          OpenPopup])%list).
Proof.
  apply (handleHotspotClick_opens Page.shirt_hotspot (Page.fresh [NotOk 404 None])).
  left. reflexivity.
Defined.

(** C8 as stated fails in its wording of the log: on a load that fails
    (here with status 404) the handler issues no console warning; the
    error goes to [console.error], twice. *)
Lemma handleHotspotClick_warning_counterexample :
  let h := Page.shirt_hotspot in
  let w := Page.fresh [NotOk 404 None] in
  (forall p, ~ loads w p)
  /\ effects_of (handleHotspotClickWithOptions h) w
     = [FetchProduct "/products/classic-shirt.js";
        ConsoleError "Error loading product:" "Failed to load product: 404";
        ConsoleError "Error loading product:" "Failed to load product: 404";
        OpenPopup]
  /\ forall message,
       ~ In (ConsoleWarn message)
            (effects_of (handleHotspotClickWithOptions h) w).
Proof.
  cbv zeta.
  assert (H : effects_of (handleHotspotClickWithOptions Page.shirt_hotspot)
                (Page.fresh [NotOk 404 None])
              = [FetchProduct "/products/classic-shirt.js";
                 ConsoleError "Error loading product:"
                              "Failed to load product: 404";
                 ConsoleError "Error loading product:"
                              "Failed to load product: 404";
                 OpenPopup]) by (vm_compute; reflexivity).
  split; [intros p Hp; discriminate Hp|]. split; [exact H|].
  rewrite H. now apply no_warning_among.
Qed.

Example handleHotspotClick_not_found :
  handleHotspotClickWithOptions Page.shirt_hotspot (Page.fresh [NotOk 404 None])
  = (Returned tt,
     {| comp := {| currentProduct := None; selectedVariants := ∅ |};
        popup_open := true; popup_content := None; network := [];
        trace := [FetchProduct "/products/classic-shirt.js";
                  ConsoleError "Error loading product:"
                               "Failed to load product: 404";
                  ConsoleError "Error loading product:"
                               "Failed to load product: 404";
                  OpenPopup] |}).
Proof. vm_compute. reflexivity. Qed.

Example handleHotspotClick_loaded :
  let w' := snd (handleHotspotClickWithOptions Page.shirt_hotspot
                   (Page.fresh [Ok (Json (Some Sample.shirt))])) in
  popup_open w' = true
  /\ selectedVariants (comp w') = {["Color" := "Red"; "Size" := "Small"]}
  /\ view_price <$> popup_content w' = Some "$20.00"
  /\ view_disabled <$> popup_content w' = Some false
  /\ trace w' = [FetchProduct "/products/classic-shirt.js"; OpenPopup].
Proof. repeat split; vm_compute; reflexivity. Qed.

Example handleHotspotClick_no_identifier :
  handleHotspotClickWithOptions {| productHandle := None; productId := Some "" |}
                                (Page.fresh [])
  = (Returned tt,
     {| comp := {| currentProduct := None; selectedVariants := ∅ |};
        popup_open := false; popup_content := None; network := [];
        trace := [ConsoleWarn "No product handle or ID found for hotspot"] |}).
Proof. vm_compute. reflexivity. Qed.

(* ===================================================================== *)
(** ** The popup of a product whose options cannot be rendered *)
(* ===================================================================== *)

(** X16.  With the option markup taken into account, a click on a hotspot that
    carries an identifier still always returns normally with the popup
    open.  A product of the legacy schema without a variants array makes
    the rendering throw: the product is then current and the selection
    empty, the popup shows what it showed before, the error is logged
    twice, and add-to-cart does nothing.  In every other case the
    option markup changes nothing in what the handler does. *)
Theorem handleHotspotClickWithOptions_opens (h : hotspot) (w : world) :
  Js.truthy_str (productHandle h) = true \/ Js.truthy_str (productId h) = true ->
  let w' := snd (handleHotspotClickWithOptions h w) in
  fst (handleHotspotClickWithOptions h w) = Returned tt
  /\ popup_open w' = true
  /\ (forall p, loads w p -> unrenderable p ->
        comp w' = {| currentProduct := Some p; selectedVariants := ∅ |}
        /\ popup_content w' = popup_content w
        /\ trace w' =
           (trace w ++ [FetchProduct ("/products/" +:+ requested h +:+ ".js");
                        ConsoleError "Error loading product:" map_error;
                        ConsoleError "Error loading product:" map_error;
                        OpenPopup])%list
        /\ forall drawer, handleAddToCart drawer w' = (Returned tt, w'))
  /\ ((forall p, loads w p -> ~ unrenderable p) ->
        handleHotspotClickWithOptions h w = handleHotspotClick h w).
Proof.
  intros Hid. cbv zeta. unfold loads, requested.
  assert (Hguard : negb (Js.truthy_str (productHandle h))
                   && negb (Js.truthy_str (productId h)) = false).
  { destruct Hid as [-> | ->]; simpl; [reflexivity | apply andb_false_r]. }
  destruct w as [c po pc [|[|status d|[|[p|]]] net] tr];
    unfold handleHotspotClickWithOptions, loadProductWithOptions,
      renderWithOptions, handleHotspotClick, loadProduct, openPopup, render,
      update, set_popup, emit, fetch, try_catch, bind, throw, ret;
    rewrite Hguard;
    cbn -[renderVariantOptions initializeVariants renderProductPopup
          String.append Js.decimal handleAddToCart];
    try (split; [reflexivity|]; split; [reflexivity|];
         split; [discriminate | reflexivity]).
  set (c' := initializeVariants
               {| currentProduct := Some p;
                  selectedVariants := selectedVariants c |}).
  assert (Hp' : currentProduct c' = Some p) by reflexivity.
  pose proof (renderVariantOptions_throws c' p Hp') as Hthrows.
  destruct (renderVariantOptions c') as [markup|] eqn:Hmarkup;
    cbn -[renderVariantOptions initializeVariants renderProductPopup
          String.append Js.decimal handleAddToCart].
  - split; [reflexivity|]. split; [reflexivity|]. split; [|reflexivity].
    intros p' [= <-] Hun. apply Hthrows in Hun. discriminate Hun.
  - assert (Hun : unrenderable p) by now apply Hthrows.
    split; [reflexivity|]. split; [reflexivity|]. split.
    + intros p' [= <-] _.
      assert (Hsel : c' = {| currentProduct := Some p; selectedVariants := ∅ |}).
      { unfold c', initializeVariants, initial_selection. simpl.
        destruct Hun as (_ & _ & ->). reflexivity. }
      rewrite Hsel. split; [reflexivity|]. split; [reflexivity|].
      split; [now rewrite <- !app_assoc|].
      intros drawer. apply guard_blocks. intros v. cbn [comp].
      unfold getSelectedVariant. simpl. destruct Hun as (_ & _ & ->).
      discriminate.
    + intros H. now destruct (H p eq_refl).
Qed.

Lemma handleHotspotClickWithOptions_opens_witness :
  let h := Page.shirt_hotspot in
  let w := Page.fresh [Ok (Json (Some Belt.belt))] in
  let w' := snd (handleHotspotClickWithOptions h w) in
  fst (handleHotspotClickWithOptions h w) = Returned tt
  /\ popup_open w' = true
  /\ (forall p, loads w p -> unrenderable p ->
        comp w' = {| currentProduct := Some p; selectedVariants := ∅ |}
        /\ popup_content w' = popup_content w
        /\ trace w' =
           (trace w ++ [FetchProduct ("/products/" +:+ requested h +:+ ".js");
                        ConsoleError "Error loading product:" map_error;
                        ConsoleError "Error loading product:" map_error;
                        OpenPopup])%list
        /\ forall drawer, handleAddToCart drawer w' = (Returned tt, w'))
  /\ ((forall p, loads w p -> ~ unrenderable p) ->
        handleHotspotClickWithOptions h w = handleHotspotClick h w).
Proof.
  apply (handleHotspotClickWithOptions_opens Page.shirt_hotspot
           (Page.fresh [Ok (Json (Some Belt.belt))])).
  left. reflexivity.
Defined.

Example handleHotspotClickWithOptions_belt :
  let w' := snd (handleHotspotClickWithOptions Page.shirt_hotspot
                   (Page.fresh [Ok (Json (Some Belt.belt))])) in
  popup_open w' = true
  /\ popup_content w' = None
  /\ currentProduct (comp w') = Some Belt.belt
  /\ trace w' = [FetchProduct "/products/classic-shirt.js";
                 ConsoleError "Error loading product:" map_error;
                 ConsoleError "Error loading product:" map_error;
                 OpenPopup].
Proof. repeat split; vm_compute; reflexivity. Qed.

(* ===================================================================== *)
(** ** The image of the popup: [getProductImage] *)
(* ===================================================================== *)

(** X17.  The image shown.  A selected variant with an image of its own shows
    that image, whatever the product has.  A selected variant without
    one, whose [featured_image_id] is the id of a gallery image, shows
    the first gallery image with that id.  Otherwise the variant plays
    no part: the result is the product's featured image, else its first
    gallery image, else the placeholder.  So the placeholder is shown
    only when it is itself one of these sources, or when the product has
    neither a featured image nor a gallery image. *)
Theorem getProductImage_priority (p : product) (selectedVariant : option variant) :
  (forall v url, selectedVariant = Some v -> featured_image v = Some url ->
                 url <> "" -> getProductImage p selectedVariant = url)
  /\ (forall v fid imgs img,
        selectedVariant = Some v ->
        Js.truthy_str (featured_image v) = false ->
        featured_image_id v = Some fid -> fid <> 0 ->
        images p = Some imgs ->
        find (fun i => image_id i =? fid) imgs = Some img ->
        getProductImage p selectedVariant = src img)
  /\ ((forall v, selectedVariant = Some v ->
                 Js.truthy_str (featured_image v) = false
                 /\ forall fid imgs, featured_image_id v = Some fid ->
                                     images p = Some imgs -> fid <> 0 ->
                                     forall img, In img imgs -> image_id img <> fid) ->
      getProductImage p selectedVariant = getProductImage p None)
  /\ (getProductImage p None = placeholder_image ->
      product_featured_image p = Some placeholder_image
      \/ (Js.truthy_str (product_featured_image p) = false
          /\ match images p with
             | Some (img :: _) => src img = placeholder_image
             | _ => True
             end)).
Proof.
  split; [|split; [|split]].
  - intros v url -> Hf Hne. unfold getProductImage. rewrite Hf. simpl.
    apply String.eqb_neq in Hne. now rewrite Hne.
  - intros v fid imgs img -> Hf Hid Hfid Himgs Hfind. unfold getProductImage.
    rewrite Hf, Hid, Himgs, Hfind. apply Z.eqb_neq in Hfid. now rewrite Hfid.
  - intros H. destruct selectedVariant as [v|]; [|reflexivity].
    destruct (H v eq_refl) as [Hf Hlookup]. unfold getProductImage.
    rewrite Hf. destruct (featured_image_id v) as [fid|]; [|reflexivity].
    destruct (images p) as [imgs|] eqn:Himgs; [|reflexivity].
    destruct (fid =? 0) eqn:Hz; [reflexivity|].
    apply Z.eqb_neq in Hz.
    destruct (find (fun i => image_id i =? fid) imgs) as [img|] eqn:Hfind;
      [|reflexivity].
    apply find_some in Hfind as [Hin Heq]. apply Z.eqb_eq in Heq.
    now destruct (Hlookup fid imgs eq_refl eq_refl Hz img Hin).
  - unfold getProductImage.
    destruct (Js.truthy_str (product_featured_image p)) eqn:Ht.
    + apply truthy_str_true in Ht as (s & -> & _). simpl. intros ->. now left.
    + intros H. right. split; [reflexivity|].
      now destruct (images p) as [[|img imgs]|].
Qed.

Example getProductImage_by_id :
  getProductImage Gallery.hat (Some Gallery.by_id) = "back.jpg"
  /\ getProductImage Gallery.hat None = "hat.jpg".
Proof. split; reflexivity. Qed.

(* ===================================================================== *)
(** ** Prices given as strings *)
(* ===================================================================== *)

Lemma format_usd_nan (x : float) :
  Prim2SF x = S754_nan -> Js.format_usd x = "$NaN".
Proof. intros H. unfold Js.format_usd. now rewrite H. Qed.

Lemma is_nan_spec (x : float) :
  PrimFloat.is_nan x = true <-> Prim2SF x = S754_nan.
Proof.
  unfold PrimFloat.is_nan. rewrite negb_true_iff, FloatAxioms.eqb_spec.
  unfold SFeqb. destruct (Prim2SF x) as [s|s| |s m e] eqn:Hx.
  - rewrite SFcompare_refl by discriminate. split; discriminate.
  - rewrite SFcompare_refl by discriminate. split; discriminate.
  - now split.
  - rewrite SFcompare_refl by discriminate. split; discriminate.
Qed.

(** X18.  A non-empty string that [parseFloat] cannot read as a number (a
    price written with its currency sign, say) is not treated as a
    missing price: [formatPrice] shows "$NaN" for it.  A string that
    reads as a number other than zero is shown like that number. *)
Theorem formatPrice_string (s : string) :
  s <> "" ->
  (PrimFloat.is_nan (Js.parseFloat s) = true -> formatPrice (Js.Str s) = "$NaN")
  /\ (Js.truthy (Js.Num (Js.parseFloat s)) = true ->
      formatPrice (Js.Str s) = formatPrice (Js.Num (Js.parseFloat s))).
Proof.
  intros Hs. apply String.eqb_neq in Hs.
  assert (Hstr : Js.truthy (Js.Str s) = true) by (simpl; now rewrite Hs).
  split.
  - intros Hnan. unfold formatPrice. rewrite Hstr. cbn [negb].
    apply is_nan_spec in Hnan.
    assert (Hlt : (1000 <? Js.parseFloat s)%float = false).
    { rewrite FloatAxioms.ltb_spec, Hnan. unfold SFltb.
      now destruct (Prim2SF 1000). }
    rewrite Hlt. apply format_usd_nan.
    rewrite FloatAxioms.div_spec, FloatAxioms.mul_spec, Hnan. reflexivity.
  - intros Ht. unfold formatPrice. now rewrite Hstr, Ht.
Qed.

Lemma formatPrice_string_witness :
  (PrimFloat.is_nan (Js.parseFloat "$25.00") = true ->
   formatPrice (Js.Str "$25.00") = "$NaN")
  /\ (Js.truthy (Js.Num (Js.parseFloat "$25.00")) = true ->
      formatPrice (Js.Str "$25.00") = formatPrice (Js.Num (Js.parseFloat "$25.00"))).
Proof.
  apply (formatPrice_string "$25.00"). discriminate.
Defined.

Example formatPrice_currency_sign :
  formatPrice (Js.Str "$25.00") = "$NaN"
  /\ formatPrice (Js.Str "abc") = "$NaN"
  /\ formatPrice (Js.Str "0") = "$0.00"
  /\ formatPrice (Js.Str "25 dollars") = "$25.00".
Proof. repeat split; vm_compute; reflexivity. Qed.

(* ===================================================================== *)
(** ** The cart drawer *)
(* ===================================================================== *)

Lemma updateCartDrawerJson_cart (old : drawer_view) (c : cart) :
  updateCartDrawerJson old (json_of c) = (updateCartDrawer old c, false).
Proof.
  unfold updateCartDrawerJson, updateCartDrawer, json_of. simpl.
  destruct (Z.eqb_spec (item_count c) 0) as [H|H].
  - rewrite bool_decide_eq_true_2 by now rewrite H. reflexivity.
  - rewrite bool_decide_eq_false_2 by congruence. reflexivity.
Qed.

Lemma showCartDrawer_view (r : cart_response) (pg : page) :
  exists d, cartDrawer (showCartDrawer r pg) = Some d /\ active d = true.
Proof.
  destruct pg as [[d|] locked logged], r as [|ok [c|]];
    unfold showCartDrawer, loadCartData; simpl;
    try destruct (updateCartDrawerJson _ c) as [v []]; simpl; eauto.
Qed.

(** X19.  Opening the drawer never fails and never depends on the cart
    request: whatever the storefront answers, the drawer element exists
    afterwards, is open, and the page scroll is locked.  When the request
    is rejected or its body cannot be parsed, one error is logged and the
    drawer shows what it showed before, which on first use is the fresh
    markup: no lines, subtotal "$0.00", checkout disabled. *)
Theorem showCartDrawer_opens (r : cart_response) (pg : page) :
  (exists d, cartDrawer (showCartDrawer r pg) = Some d /\ active d = true)
  /\ scroll_locked (showCartDrawer r pg) = true
  /\ ((r = CartRejected \/ exists ok, r = CartResponse ok None) ->
      shown_view (showCartDrawer r pg) = Some (view_before pg)
      /\ console (showCartDrawer r pg)
         = (console pg ++ ["Error loading cart data:"])%list).
Proof.
  split; [apply showCartDrawer_view|]. split.
  - destruct pg as [[d|] locked logged], r as [|ok [c|]];
      unfold showCartDrawer, loadCartData; simpl;
      try destruct (updateCartDrawerJson _ c) as [v []]; reflexivity.
  - destruct pg as [[d|] locked logged]; intros [->|[ok ->]];
      split; reflexivity.
Qed.

(** X20.  A cart body without an item list, such as the error object of a
    refusal, is not told apart from a cart: [loadCartData] does not look
    at the status of the response.  Unless its [item_count] is 0, the
    drawer then opens with the checkout button enabled over the lines and
    the subtotal it had before, and the failure is only logged. *)
Theorem showCartDrawer_without_items (ok : bool) (c : cart_json) (pg : page) :
  json_item_count c <> Some 0 ->
  json_items c = None ->
  shown_view (showCartDrawer (CartResponse ok (Some c)) pg)
  = Some {| items_displayed := true; empty_displayed := false;
            checkout_disabled := false;
            line_prices := line_prices (view_before pg);
            subtotal_amount := subtotal_amount (view_before pg) |}
  /\ console (showCartDrawer (CartResponse ok (Some c)) pg)
     = (console pg ++ ["Error loading cart data:"])%list.
Proof.
  intros Hcount Hitems.
  destruct pg as [[d|] locked logged];
    unfold showCartDrawer, loadCartData, shown_view, view_before,
      updateCartDrawerJson; simpl;
    rewrite bool_decide_eq_false_2 by exact Hcount; rewrite Hitems;
    split; reflexivity.
Qed.

Lemma showCartDrawer_without_items_witness :
  shown_view (showCartDrawer (CartResponse false (Some Basket.refusal))
                             Basket.untouched)
  = Some {| items_displayed := true; empty_displayed := false;
            checkout_disabled := false;
            line_prices := line_prices (view_before Basket.untouched);
            subtotal_amount := subtotal_amount (view_before Basket.untouched) |}
  /\ console (showCartDrawer (CartResponse false (Some Basket.refusal))
                             Basket.untouched)
     = (console Basket.untouched ++ ["Error loading cart data:"])%list.
Proof.
  apply (showCartDrawer_without_items false Basket.refusal Basket.untouched).
  - discriminate.
  - reflexivity.
Defined.

(** X21.  With a cart that has all its fields, the opened drawer tracks
    [item_count] alone: the checkout button is disabled, the item list
    hidden and the empty message shown exactly when it is 0, whatever
    [items] holds.  The subtotal is the formatted [total_price] in both
    cases.  The lines are rendered from [items] when the count is not 0
    and are left as they were, hidden, when it is.  Nothing is logged. *)
Theorem showCartDrawer_tracks_item_count (ok : bool) (c : cart) (pg : page) :
  exists v,
    shown_view (showCartDrawer (CartResponse ok (Some (json_of c))) pg) = Some v
    /\ checkout_disabled v = (item_count c =? 0)
    /\ empty_displayed v = (item_count c =? 0)
    /\ items_displayed v = negb (item_count c =? 0)
    /\ subtotal_amount v = formatPrice (total_price c)
    /\ line_prices v
       = (if item_count c =? 0 then line_prices (view_before pg)
          else map (fun item => formatPrice (final_price item)) (items c))
    /\ console (showCartDrawer (CartResponse ok (Some (json_of c))) pg)
       = console pg.
Proof.
  exists (updateCartDrawer (view_before pg) c).
  split; [|split; [|split; [|split; [|split; [|split]]]]];
    try (unfold updateCartDrawer; now destruct (item_count c =? 0)).
  - destruct pg as [[d|] locked logged];
      unfold showCartDrawer, loadCartData, shown_view, view_before; simpl;
      now rewrite updateCartDrawerJson_cart.
  - destruct pg as [[d|] locked logged];
      unfold showCartDrawer, loadCartData; simpl;
      now rewrite updateCartDrawerJson_cart.
Qed.

(** X22.  Closing and reopening.  After the drawer was opened, closing it
    leaves the element in place with its content, closed, and releases
    the page scroll; a later Escape key does nothing.  The element is
    used again by the next opening, so when that opening's cart request
    fails the drawer shows the cart of the opening before. *)
Theorem hideCartDrawer_keeps_content (r r' : cart_response) (pg : page) :
  let opened := showCartDrawer r pg in
  let closed := hideCartDrawer opened in
  shown_view closed = shown_view opened
  /\ (exists d, cartDrawer closed = Some d /\ active d = false)
  /\ scroll_locked closed = false
  /\ drawerKeydown "Escape" opened = closed
  /\ drawerKeydown "Escape" closed = closed
  /\ ((r' = CartRejected \/ exists ok, r' = CartResponse ok None) ->
      shown_view (showCartDrawer r' closed) = shown_view opened).
Proof.
  intros opened closed.
  destruct (showCartDrawer_view r pg) as (d & Hd & Hactive).
  fold opened in Hd.
  assert (Hclosed : cartDrawer closed = Some {| view := view d; active := false |}).
  { unfold closed, hideCartDrawer. now rewrite Hd. }
  split; [|split; [|split; [|split; [|split]]]].
  - unfold shown_view. now rewrite Hclosed, Hd.
  - eauto.
  - unfold closed, hideCartDrawer. now rewrite Hd.
  - unfold drawerKeydown. now rewrite Hd, Hactive.
  - unfold drawerKeydown. now rewrite Hclosed.
  - intros Hr.
    assert (Hview : view_before closed = view d).
    { unfold view_before. now rewrite Hclosed. }
    intros. unfold shown_view at 2. rewrite Hd. simpl. rewrite <- Hview.
    clear - Hr. generalize closed. intros [[d'|] locked logged].
    all: destruct Hr as [->|[ok ->]]; reflexivity.
Qed.

Example showCartDrawer_basket :
  let first := showCartDrawer (CartResponse true (Some (json_of Basket.one_mug)))
                              Basket.untouched in
  let again := showCartDrawer CartRejected (hideCartDrawer first) in
  shown_view first
  = Some {| items_displayed := true; empty_displayed := false;
            checkout_disabled := false; line_prices := ["$15.00"];
            subtotal_amount := "$30.00" |}
  /\ shown_view again = shown_view first
  /\ scroll_locked again = true.
Proof. vm_compute. repeat split. Qed.
